(** * SDR_spitta: the narrowband FM transmitters for the ZedBoard + AD9361

    A shallow embedding of [training/ad9361_zed/tx-fm/tx-fm-zed.c] (the
    streaming transmitter, module [Stream]) and of
    [training/ad9361_zed/tx-fm/tx-fm-zed-preload.c] (the looping transmitter
    with a pre-loaded sample file, module [Preload]), and the properties of
    the specification that hold, or fail, on them.

    Numbers.  The C type [double] is idealised as the real numbers [R]:
    [M_PI] is [PI], [cos], [sin] are the real functions, [fmod] is the exact
    remainder of the truncated quotient (which is what C's [fmod] computes,
    without rounding, on finite operands).  Rounding error, infinities and
    NaN are outside this model; module [Ieee] has the modulators on doubles
    with overflow, infinities and NaN, to decide when the conversions to
    [int16_t] are defined.  [int16_t], [long], [long long] and [size_t]
    values are integers ([Z], [nat] for counts); no computation of the two
    programs on them leaves its range on the paths studied here (see
    [time_add_ns_nsec_range] for [tv_nsec]), and what is stated of
    [time_add_ns] on its own is stated within the range of a 32-bit [long]
    ([in_long]).

    World.  libiio, the file system, [stdin], the monotonic clock and
    [SIGINT] are the environment: each program takes a record of oracles
    that answers its calls, and logs what it does to them as a list of
    [Env.event]. *)

From Stdlib Require Import Reals Lra Lia ZArith List Bool String.
From Equations Require Import Equations.
Import ListNotations.

Set Implicit Arguments.

(** ** Idealised [double] arithmetic *)

Module CDouble.

Definition double : Type := R.

Definition M_PI : double := PI.

(** Conversion of a [double] to an integer type: the fractional part is
    discarded (truncation toward zero), C11 6.3.1.4. *)
Definition Rtrunc (x : R) : Z :=
  if Rle_dec 0 x then Int_part x else (- Int_part (- x))%Z.

(** [fmod x y]: [x - n * y] where [n] is [x / y] with its fractional part
    truncated (C11 7.12.10.1); the result has the sign of [x]. *)
Definition fmod (x y : double) : double :=
  (x - IZR (Rtrunc (x / y)) * y)%R.

(** [(int16_t) x] for a [double] [x].  The value is the truncation; it is
    defined behaviour only when that fits, which [int16_range] says. *)
Definition to_int16 (x : double) : Z := Rtrunc x.

Definition int16_range (z : Z) : Prop := (-32768 <= z <= 32767)%Z.

(** [(long) x] and [(size_t) x] for a [double] [x]. *)
Definition to_long (x : double) : Z := Rtrunc x.

(** What the specification calls [round]: an integer nearest to [x]
    (whatever the rule for ties). *)
Definition is_round (x : R) (z : Z) : Prop := (Rabs (IZR z - x) <= / 2)%R.

(** [z] is [x] with its fractional part discarded: between 0 and [x], less
    than one away from [x]. *)
Definition is_trunc (x : R) (z : Z) : Prop :=
  (Rabs (IZR z) <= Rabs x /\ Rabs (x - IZR z) < 1)%R.


End CDouble.

Import CDouble.

(** ** The environment: POSIX time, libiio, [stderr] *)

Module Env.

(** [struct timespec]. *)
Record timespec : Type := mk_timespec { tv_sec : Z; tv_nsec : Z }.

(** The four channels the programs look up: [voltage0] and [voltage1] of the
    DDS core, [altvoltage1] (the TX local oscillator) and [voltage0] of the
    PHY. *)
Inductive channel : Type := tx0_i | tx0_q | lo_chan | phy_chan.

(** A buffer slot: one interleaved (I, Q) pair of [int16_t]. *)
Definition slot : Type := (Z * Z)%type.

(** What a program does to its environment, in program order.  Each
    constructor is the C call of that name; [iio_buffer_push] carries the
    whole buffer as the hardware receives it. *)
Inductive event : Type :=
| iio_channel_attr_write_longlong (c : channel) (attr : string) (v : Z)
| iio_channel_attr_write_double (c : channel) (attr : string) (v : double)
| iio_channel_enable (c : channel)
| iio_channel_disable (c : channel)
| iio_device_create_buffer (samples_count : Z)
| iio_buffer_push (content : list slot)
| iio_buffer_destroy
| iio_context_destroy
| clock_nanosleep (target : timespec)
| free_samples
| fprintf_stderr (msg : string).

(** The local oscillator is powered up, resp. down, by writing 0, resp. 1,
    to its [powerdown] attribute. *)
Definition lo_power_up : event :=
  iio_channel_attr_write_longlong lo_chan "powerdown" 0.
Definition lo_power_down : event :=
  iio_channel_attr_write_longlong lo_chan "powerdown" 1.

Definition event_eqb_power (up : bool) (e : event) : bool :=
  match e with
  | iio_channel_attr_write_longlong lo_chan attr v =>
      String.eqb attr "powerdown" && Z.eqb v (if up then 0 else 1)
  | _ => false
  end.

(** The power state of the local oscillator after a trace: the last write
    to [powerdown] decides; [None] when the attribute was never written. *)
Fixpoint lo_powered_from (acc : option bool) (tr : list event) : option bool :=
  match tr with
  | [] => acc
  | e :: rest =>
      if event_eqb_power true e then lo_powered_from (Some true) rest
      else if event_eqb_power false e then lo_powered_from (Some false) rest
      else lo_powered_from acc rest
  end.

Definition lo_powered (tr : list event) : option bool := lo_powered_from None tr.

(** An event that configures or drives the hardware (not a message on
    [stderr], a sleep, or the release of the samples). *)
Definition touches_hardware (e : event) : bool :=
  match e with
  | fprintf_stderr _ | free_samples | clock_nanosleep _ => false
  | _ => true
  end.

End Env.

Import Env.

(** ** Executions *)

(** [run_from step st l]: [l] are the states of an execution after [st],
    each one [step] from the one before. *)
Inductive run_from (A : Type) (step : A -> A -> Prop) : A -> list A -> Prop :=
| run_nil st : run_from step st []
| run_cons st st' l :
    step st st' -> run_from step st' l -> run_from step st (st' :: l).

(** [reaches step st st']: an execution leads from [st] to [st']. *)
Definition reaches (A : Type) (step : A -> A -> Prop) (st st' : A) : Prop :=
  exists l, run_from step st l /\ last l st = st'.

(** ** tx-fm-zed.c: the streaming transmitter *)

Module Stream.

Definition MAX_SAMPLE_VALUE : Z := 32767.        (* 0x7FFF *)
Definition DEFAULT_BANDWIDTH : Z := 200000.
Definition DEFAULT_ATTENUATION : Z := -10.
Definition DEFAULT_BUFFER_TIME : double := (4 / 100)%R.

(** One [read(STDIN_FILENO, &value, 2)]: either it returns 2 and [value] is
    the sample, or it returns something else (end of file, a single byte, an
    error). *)
Inductive read_result : Type := read_2 (value : Z) | read_short.

(** The program state the transmission loop works on.  [stop] is the global
    flag; [stdin] are the results of the reads still to come (when the list
    is used up every read finds the end of the file); [reads] counts the
    calls of [read]; [written] lists every (I, Q) pair stored into a buffer
    slot so far. *)
Record state : Type := mk_state {
  stop : bool;
  stdin : list read_result;
  reads : nat;
  signal_phase : double;
  txbuf : list slot;
  written : list slot;
  pushes : nat;
  checks : nat;
  trace : list event
}.

Definition set_stop (b : bool) (st : state) : state :=
  mk_state b (stdin st) (reads st) (signal_phase st) (txbuf st) (written st)
           (pushes st) (checks st) (trace st).

Definition log (e : event) (st : state) : state :=
  mk_state (stop st) (stdin st) (reads st) (signal_phase st) (txbuf st)
           (written st) (pushes st) (checks st) (trace st ++ [e]).

(** [static volatile bool stop = false;] and the state a run starts in. *)
Definition initial_state (input : list read_result) (buf : list slot)
    (tr : list event) : state :=
  mk_state false input 0 0%R buf [] 0 0 tr.

(** [void signal_handler(int signum) { stop = true; }] *)
Definition signal_handler (st : state) : state := set_stop true st.

(** [int16_t get_next_sample(void)]: on a short read the flag is set and the
    sample is 0. *)
Definition get_next_sample (st : state) : Z * state :=
  match stdin st with
  | read_2 value :: rest =>
      (value,
       mk_state (stop st) rest (S (reads st)) (signal_phase st) (txbuf st)
                (written st) (pushes st) (checks st) (trace st))
  | read_short :: rest =>
      (0%Z,
       mk_state true rest (S (reads st)) (signal_phase st) (txbuf st)
                (written st) (pushes st) (checks st) (trace st))
  | [] =>
      (0%Z,
       mk_state true [] (S (reads st)) (signal_phase st) (txbuf st)
                (written st) (pushes st) (checks st) (trace st))
  end.

(** [void modulate_sample(deviation, &i_sample, &q_sample, &signal,
    deviation_scale, time_per_sample)]: returns [(i_sample, q_sample)] and
    the new [*signal]. *)
Definition modulate_sample (deviation : Z) (signal : double)
    (deviation_scale time_per_sample : double) : slot * double :=
  let freq_hz := (IZR deviation * deviation_scale)%R in
  let phase_increment := (2 * M_PI * freq_hz * time_per_sample)%R in
  let signal' := fmod (signal + phase_increment)%R (2 * M_PI)%R in
  let i_sample := to_int16 (cos signal' * IZR MAX_SAMPLE_VALUE)%R in
  let q_sample := to_int16 (sin signal' * IZR MAX_SAMPLE_VALUE)%R in
  ((i_sample, q_sample), signal').

Section Loop.

(** [deviation_scale] and [time_per_sample] are set once, before the loop. *)
Variables deviation_scale time_per_sample : double.

(** The body of the [for] loop: one slot. *)
Definition fill_slot (st : state) : slot * state :=
  let (sample, st1) := get_next_sample st in
  let (iq, phase) :=
    modulate_sample sample (signal_phase st1) deviation_scale time_per_sample in
  (iq,
   mk_state (stop st1) (stdin st1) (reads st1) phase (txbuf st1)
            (written st1 ++ [iq]) (pushes st1) (checks st1) (trace st1)).

(** [for (p_dat = iio_buffer_first(..); p_dat < p_end; p_dat += p_inc)]:
    the slots of the buffer in order, each one overwritten.  Returns the
    buffer as it is afterwards. *)
Fixpoint fill_buffer (slots : list slot) (st : state) : list slot * state :=
  match slots with
  | [] => ([], st)
  | _ :: rest =>
      let (iq, st1) := fill_slot st in
      let (rest', st2) := fill_buffer rest st1 in
      (iq :: rest', st2)
  end.

Definition set_txbuf (buf : list slot) (st : state) : state :=
  mk_state (stop st) (stdin st) (reads st) (signal_phase st) buf (written st)
           (pushes st) (checks st) (trace st).

(** Filling the program's one buffer in place. *)
Definition fill_txbuf (st : state) : state :=
  let (buf, st1) := fill_buffer (txbuf st) st in set_txbuf buf st1.

(** The filler run over a sequence of buffers of any sizes, the modulator
    and the source carried from one to the next. *)
Fixpoint fill_buffers (bufs : list (list slot)) (st : state) : state :=
  match bufs with
  | [] => st
  | buf :: rest => fill_buffers rest (snd (fill_buffer buf st))
  end.

(** The answers of the environment during the loop: [push_result n] is what
    the [n]-th [iio_buffer_push] returns; [sigint n] says whether a [SIGINT]
    was delivered before the [n]-th evaluation of the loop condition. *)
Variable push_result : nat -> Z.
Variable sigint : nat -> bool.

(** Evaluating the loop condition reads [stop]; the reads are counted. *)
Definition count_check (st : state) : state :=
  mk_state (stop st) (stdin st) (reads st) (signal_phase st) (txbuf st)
           (written st) (pushes st) (S (checks st)) (trace st).

(** Reading [stop] in the loop condition: the handler has run before if a
    signal came in. *)
Definition read_stop (st : state) : state :=
  count_check (if sigint (checks st) then signal_handler st else st).

(** [ssize_t nbytes = iio_buffer_push(txbuf);] *)
Definition push_txbuf (st : state) : Z * state :=
  (push_result (pushes st),
   mk_state (stop st) (stdin st) (reads st) (signal_phase st) (txbuf st)
            (written st) (S (pushes st)) (checks st)
            (trace st ++ [iio_buffer_push (txbuf st)])).

(** [while (!stop) { fill; push; if (nbytes < 0) break; }].  [None]: the
    loop is still running when the fuel is used up. *)
Fixpoint tx_loop (fuel : nat) (st : state) : option state :=
  match fuel with
  | O => None
  | S fuel' =>
      let st0 := read_stop st in
      if stop st0 then Some st0
      else
        let st1 := fill_txbuf st0 in
        let (nbytes, st2) := push_txbuf st1 in
        if (nbytes <? 0)%Z then Some (log (fprintf_stderr "Error pushing buffer") st2)
        else tx_loop fuel' st2
  end.

(** The atomic actions of the loop on the state, and the handler, which can
    run between any two of them. *)
Inductive step : state -> state -> Prop :=
| step_sigint st : step st (signal_handler st)
| step_check st : step st (count_check st)
| step_fill_slot st : step st (snd (fill_slot st))
| step_store buf st : step st (set_txbuf buf st)
| step_push st : step st (snd (push_txbuf st))
| step_log e st : step st (log e st).

End Loop.

(** The sample a read delivers to the modulator. *)
Definition sample_of (r : read_result) : Z :=
  match r with read_2 value => value | read_short => 0%Z end.

(** The samples the next [n] calls of [get_next_sample] return. *)
Fixpoint next_samples (n : nat) (input : list read_result) : list Z :=
  match n with
  | O => []
  | S n' =>
      match input with
      | [] => 0%Z :: next_samples n' []
      | r :: rest => sample_of r :: next_samples n' rest
      end
  end.

(** Whether one of the next [n] reads is short (the source is exhausted
    within them). *)
Fixpoint short_within (n : nat) (input : list read_result) : bool :=
  match n with
  | O => false
  | S n' =>
      match input with
      | read_2 _ :: rest => short_within n' rest
      | _ => true
      end
  end.

(** Modulating a deviation sequence in one pass from a given phase: the
    (I, Q) pairs, and the phase after each update. *)
Fixpoint modulate_all (deviation_scale time_per_sample : double)
    (devs : list Z) (signal : double) : list slot :=
  match devs with
  | [] => []
  | d :: rest =>
      let (iq, signal') := modulate_sample d signal deviation_scale time_per_sample in
      iq :: modulate_all deviation_scale time_per_sample rest signal'
  end.

Fixpoint phases (deviation_scale time_per_sample : double)
    (devs : list Z) (signal : double) : list double :=
  match devs with
  | [] => []
  | d :: rest =>
      let (iq, signal') := modulate_sample d signal deviation_scale time_per_sample in
      signal' :: phases deviation_scale time_per_sample rest signal'
  end.

(** One option of the command line as [getopt] returns it, [optarg] already
    converted by [atoll] or [atof]; [opt_other] is any option that is not
    [-f], [-s] or [-d]. *)
Inductive getopt_result : Type :=
| opt_f (optarg : Z)
| opt_s (optarg : Z)
| opt_d (optarg : double)
| opt_other.

(** libiio's and the operating system's answers to [main]. *)
Record env : Type := mk_env {
  create_default_context : bool;          (* a context was created *)
  find_device_tx : bool;                  (* cf-ad9361-dds-core-lpc found *)
  find_device_phy : bool;                 (* ad9361-phy found *)
  find_channel : channel -> bool;
  create_buffer : option (list slot);     (* the buffer's slots, if created *)
  push_result : nat -> Z;
  sigint : nat -> bool;
  input : list read_result
}.

(** The [while ((opt = getopt(...)) != -1)] loop; [None] is the [default:]
    branch (usage message). *)
Fixpoint parse_args (argv : list getopt_result) (center_freq sample_rate : Z)
    (deviation_hz : double) : option (Z * Z * double) :=
  match argv with
  | [] => Some (center_freq, sample_rate, deviation_hz)
  | opt_f v :: rest => parse_args rest v sample_rate deviation_hz
  | opt_s v :: rest => parse_args rest center_freq v deviation_hz
  | opt_d v :: rest => parse_args rest center_freq sample_rate v
  | opt_other :: _ => None
  end.

(** The attribute writes and channel enables of lines 93-100. *)
Definition configure (center_freq sample_rate : Z) : list event :=
  [ iio_channel_attr_write_longlong lo_chan "frequency" center_freq;
    iio_channel_attr_write_longlong lo_chan "powerdown" 0;
    iio_channel_attr_write_double phy_chan "hardwaregain" (IZR DEFAULT_ATTENUATION);
    iio_channel_attr_write_longlong phy_chan "sampling_frequency" sample_rate;
    iio_channel_attr_write_longlong phy_chan "rf_bandwidth" DEFAULT_BANDWIDTH;
    iio_channel_enable tx0_i;
    iio_channel_enable tx0_q ].

(** Lines 136-144. *)
Definition shutdown : list event :=
  [ fprintf_stderr "Stopping transmission";
    iio_channel_attr_write_longlong lo_chan "powerdown" 1;
    iio_buffer_destroy;
    iio_channel_disable tx0_i;
    iio_channel_disable tx0_q;
    iio_context_destroy ].

(** [int main(int argc, char** argv)]: the exit status and what was done to
    the environment; [None] when the loop outlives the fuel. *)
Definition main (argv : list getopt_result) (e : env) (fuel : nat)
    : option (Z * list event) :=
  match parse_args argv (-1) (-1) 10000%R with
  | None => Some (1, [fprintf_stderr "Usage: %s -f freq -s samplerate [-d deviation]"])
  | Some (center_freq, sample_rate, deviation_hz) =>
  if (center_freq <? 70000000) || (center_freq >? 6000000000) then
    Some (1, [fprintf_stderr "Invalid frequency. Must be between 70 MHz and 6 GHz."])
  else if (sample_rate <? 1000000) || (sample_rate >? 61440000) then
    Some (1, [fprintf_stderr "Invalid sample rate. Must be between 1 MHz and 61.44 MHz."])
  else if negb (create_default_context e) then
    Some (1, [fprintf_stderr "Failed to create IIO context."])
  else if negb (find_device_tx e) || negb (find_device_phy e) then
    Some (1, [fprintf_stderr "Missing required IIO devices."])
  else if negb (find_channel e tx0_i) || negb (find_channel e tx0_q)
          || negb (find_channel e lo_chan) || negb (find_channel e phy_chan) then
    Some (1, [fprintf_stderr "Missing TX channels or LO channel."])
  else
    let buffer_len := to_long (DEFAULT_BUFFER_TIME * IZR sample_rate)%R in
    let tr := configure center_freq sample_rate
              ++ [iio_device_create_buffer buffer_len] in
    match create_buffer e with
    | None => Some (1, tr ++ [fprintf_stderr "Could not create TX buffer"])
    | Some buf =>
        let deviation_scale := (deviation_hz / IZR MAX_SAMPLE_VALUE)%R in
        let time_per_sample := (1 / IZR sample_rate)%R in
        let st := initial_state (input e) buf
                    (tr ++ [fprintf_stderr "Starting transmission at %.1f MHz"]) in
        match tx_loop deviation_scale time_per_sample (push_result e) (sigint e)
                      fuel st with
        | None => None
        | Some st' => Some (0, trace st' ++ shutdown)
        end
    end
  end%Z.

End Stream.

(** ** tx-fm-zed-preload.c: the looping transmitter *)

Module Preload.

Definition DEFAULT_BUFFER_TIME : double := (1 / 10)%R.
Definition DEFAULT_ATTENUATION : Z := -10.

(** The [while] loop of [time_add_ns]: carry whole seconds out of
    [tv_nsec]. *)
Equations? time_add_ns_loop (t : timespec) : timespec
  by wf (Z.to_nat (tv_nsec t)) lt :=
time_add_ns_loop t with Z_le_gt_dec 1000000000 (tv_nsec t) => {
  | left _ =>
      time_add_ns_loop (mk_timespec (tv_sec t + 1) (tv_nsec t - 1000000000));
  | right _ => t }.
Proof. simpl. lia. Qed.

(** [static void time_add_ns(struct timespec *t, long ns)].  [tv_nsec] and
    [ns] are of type [long]: the integers here are what the code computes
    while [t->tv_nsec + ns] stays within [long]. *)
Definition time_add_ns (t : timespec) (ns : Z) : timespec :=
  time_add_ns_loop (mk_timespec (tv_sec t) (tv_nsec t + ns)).

(** A timestamp as a number of nanoseconds. *)
Definition to_ns (t : timespec) : Z := (tv_sec t * 1000000000 + tv_nsec t)%Z.

(** What [clock_gettime] returns: [0 <= tv_nsec < 10^9]. *)
Definition normalized (t : timespec) : Prop := (0 <= tv_nsec t < 1000000000)%Z.

(** The period the loop adds to the deadline after each buffer:
    [DEFAULT_BUFFER_TIME * 1e9], converted to [long] at the call. *)
Definition buffer_period_ns : Z := to_long (DEFAULT_BUFFER_TIME * 1000000000)%R.

(** The program state the transmission loop works on: the globals [stop] and
    [phase_accum], the locals [index] and [t], the buffer; [written] lists
    every (I, Q) pair stored into a buffer slot so far; [pushes], [checks]
    and [clock_reads] count the calls of [iio_buffer_push], the evaluations
    of [stop] and the calls of [clock_gettime]. *)
Record state : Type := mk_state {
  stop : bool;
  phase_accum : double;
  index : nat;
  t : timespec;
  txbuf : list slot;
  written : list slot;
  pushes : nat;
  checks : nat;
  clock_reads : nat;
  trace : list event
}.

Definition set_stop (b : bool) (st : state) : state :=
  mk_state b (phase_accum st) (index st) (t st) (txbuf st) (written st)
           (pushes st) (checks st) (clock_reads st) (trace st).

Definition set_txbuf (buf : list slot) (st : state) : state :=
  mk_state (stop st) (phase_accum st) (index st) (t st) buf (written st)
           (pushes st) (checks st) (clock_reads st) (trace st).

Definition set_t (t' : timespec) (st : state) : state :=
  mk_state (stop st) (phase_accum st) (index st) t' (txbuf st) (written st)
           (pushes st) (checks st) (clock_reads st) (trace st).

Definition log (e : event) (st : state) : state :=
  mk_state (stop st) (phase_accum st) (index st) (t st) (txbuf st)
           (written st) (pushes st) (checks st) (clock_reads st) (trace st ++ [e]).

(** [stop = false], [phase_accum = 0.0]; [index] and [t] are not yet
    declared, and are set at the start of each pass. *)
Definition initial_state (buf : list slot) (tr : list event) : state :=
  mk_state false 0%R 0 (mk_timespec 0 0) buf [] 0 0 0 tr.

(** [static void handle_sig(int sig) { stop = true; }] *)
Definition handle_sig (st : state) : state := set_stop true st.

(** [static void wait_until(struct timespec *target)] *)
Definition wait_until (target : timespec) (st : state) : state :=
  log (clock_nanosleep target) st.

Section Loop.

(** The globals set once before the loop: [deviation_scale],
    [time_per_sample], and the file's samples ([total_samples] is their
    number). *)
Variables deviation_scale time_per_sample : double.
Variable samples : list Z.

Definition total_samples : nat := List.length samples.

(** [static void modulate_sample(deviation, &i_sample, &q_sample)], on the
    global [phase_accum]: returns [(i_sample, q_sample)] and the new
    [phase_accum]. *)
Definition modulate_sample (deviation : Z) (phase_accum : double)
    : slot * double :=
  let dev_hz := (IZR deviation * deviation_scale)%R in
  let dphi := (2 * M_PI * dev_hz * time_per_sample)%R in
  let phase_accum' := fmod (phase_accum + dphi)%R (2 * M_PI)%R in
  let i_sample := to_int16 (cos phase_accum' * IZR 32767)%R in
  let q_sample := to_int16 (sin phase_accum' * IZR 32767)%R in
  ((i_sample, q_sample), phase_accum').

(** The body of the [for] loop: [modulate_sample(samples[index++], &i, &q)]
    and the two stores. *)
Definition fill_slot (st : state) : slot * state :=
  let (iq, phase) := modulate_sample (nth (index st) samples 0%Z) (phase_accum st) in
  (iq,
   mk_state (stop st) phase (S (index st)) (t st) (txbuf st)
            (written st ++ [iq]) (pushes st) (checks st) (clock_reads st) (trace st)).

(** [for (; p < p_end && index < total_samples; p += p_inc)]: the slots of
    the buffer in order; when the samples run out the remaining slots keep
    what they held.  Returns the buffer as it is afterwards. *)
Fixpoint fill_buffer (slots : list slot) (st : state) : list slot * state :=
  match slots with
  | [] => ([], st)
  | old :: rest =>
      if index st <? total_samples then
        let (iq, st1) := fill_slot st in
        let (rest', st2) := fill_buffer rest st1 in
        (iq :: rest', st2)
      else (old :: rest, st)
  end.

(** Filling the program's one buffer in place. *)
Definition fill_txbuf (st : state) : state :=
  let (buf, st1) := fill_buffer (txbuf st) st in set_txbuf buf st1.

(** The filler run over a sequence of buffers of any sizes, the modulator
    and the cursor carried from one to the next. *)
Fixpoint fill_buffers (bufs : list (list slot)) (st : state) : state :=
  match bufs with
  | [] => st
  | buf :: rest => fill_buffers rest (snd (fill_buffer buf st))
  end.

(** The answers of the environment during the loop: [sigint n] says whether
    a [SIGINT] was delivered before the [n]-th evaluation of [stop];
    [clock_gettime n] is the [n]-th reading of [CLOCK_MONOTONIC]. *)
Variable sigint : nat -> bool.
Variable clock_gettime : nat -> timespec.

(** Evaluating a loop condition reads [stop]; the reads are counted. *)
Definition count_check (st : state) : state :=
  mk_state (stop st) (phase_accum st) (index st) (t st) (txbuf st)
           (written st) (pushes st) (S (checks st)) (clock_reads st) (trace st).

(** Reading [stop] in a loop condition: the handler has run before if a
    signal came in. *)
Definition read_stop (st : state) : state :=
  count_check (if sigint (checks st) then handle_sig st else st).

(** [iio_buffer_push(txbuf);] (the result is not looked at). *)
Definition push_txbuf (st : state) : state :=
  mk_state (stop st) (phase_accum st) (index st) (t st) (txbuf st)
           (written st) (S (pushes st)) (checks st) (clock_reads st)
           (trace st ++ [iio_buffer_push (txbuf st)]).

(** The body of the inner [while]: fill, push, advance the deadline, sleep
    until it. *)
Definition send_buffer (st : state) : state :=
  let st1 := fill_txbuf st in
  let st2 := push_txbuf st1 in
  let st3 := set_t (time_add_ns (t st2) buffer_period_ns) st2 in
  wait_until (t st3) st3.

(** [while (!stop && index < total_samples) { ... }].  [None]: the loop is
    still running when the fuel is used up. *)
Fixpoint pass_loop (fuel : nat) (st : state) : option state :=
  match fuel with
  | O => None
  | S fuel' =>
      let st0 := read_stop st in
      if stop st0 then Some st0
      else if index st0 <? total_samples then pass_loop fuel' (send_buffer st0)
      else Some st0
  end.

(** The first three statements of the outer loop's body:
    [phase_accum = 0.0; size_t index = 0; clock_gettime(CLOCK_MONOTONIC, &t);] *)
Definition start_pass (st : state) : state :=
  mk_state (stop st) 0%R 0 (clock_gettime (clock_reads st)) (txbuf st)
           (written st) (pushes st) (checks st) (S (clock_reads st)) (trace st).

(** [while (!stop) { start of pass; inner loop }]. *)
Fixpoint tx_loop (fuel : nat) (st : state) : option state :=
  match fuel with
  | O => None
  | S fuel' =>
      let st0 := read_stop st in
      if stop st0 then Some st0
      else
        match pass_loop fuel' (start_pass st0) with
        | None => None
        | Some st1 => tx_loop fuel' st1
        end
  end.

(** The atomic actions of the two loops on the state, and the handler, which
    can run between any two of them. *)
Inductive step : state -> state -> Prop :=
| step_sigint st : step st (handle_sig st)
| step_check st : step st (count_check st)
| step_start_pass st : step st (start_pass st)
| step_fill_slot st : step st (snd (fill_slot st))
| step_store buf st : step st (set_txbuf buf st)
| step_push st : step st (push_txbuf st)
| step_set_t t' st : step st (set_t t' st)
| step_log e st : step st (log e st).

(** Modulating a deviation sequence in one pass from a given phase: the
    (I, Q) pairs, and the phase after each update. *)
Fixpoint modulate_all (devs : list Z) (phase : double) : list slot :=
  match devs with
  | [] => []
  | d :: rest =>
      let (iq, phase') := modulate_sample d phase in
      iq :: modulate_all rest phase'
  end.

Fixpoint phases (devs : list Z) (phase : double) : list double :=
  match devs with
  | [] => []
  | d :: rest =>
      let (iq, phase') := modulate_sample d phase in
      phase' :: phases rest phase'
  end.

End Loop.

(** One option of the command line as [getopt] returns it, [optarg] already
    converted by [atoll]; [opt_other] is any option that is not [-f], [-s]
    or [-i]. *)
Inductive getopt_result : Type :=
| opt_f (optarg : Z)
| opt_s (optarg : Z)
| opt_i (optarg : string)
| opt_other.

(** The operating system's and libiio's answers to [main].  [fopen] is the
    content of the input file as 16-bit samples, [None] when it cannot be
    opened.  The channel lookups are not checked by the program and are
    taken to succeed. *)
Record env : Type := mk_env {
  fopen : string -> option (list Z);
  malloc : bool;                          (* the allocation succeeded *)
  create_default_context : bool;
  find_device_phy : bool;
  find_device_tx : bool;
  create_buffer : option (list slot);     (* the buffer's slots, if created *)
  sigint : nat -> bool;
  clock_gettime : nat -> timespec
}.

(** The [while ((opt = getopt(...)) != -1)] loop over the globals
    [center_freq], [sample_rate], [input_filename]; [None] is the
    [default:] branch (usage message). *)
Fixpoint parse_args (argv : list getopt_result) (center_freq sample_rate : Z)
    (input_filename : option string) : option (Z * Z * option string) :=
  match argv with
  | [] => Some (center_freq, sample_rate, input_filename)
  | opt_f v :: rest => parse_args rest v sample_rate input_filename
  | opt_s v :: rest => parse_args rest center_freq v input_filename
  | opt_i v :: rest => parse_args rest center_freq sample_rate (Some v)
  | opt_other :: _ => None
  end.

(** The attribute writes and channel enables of lines 119-125. *)
Definition configure (center_freq sample_rate : Z) : list event :=
  [ iio_channel_attr_write_longlong lo_chan "frequency" center_freq;
    iio_channel_attr_write_longlong lo_chan "powerdown" 0;
    iio_channel_attr_write_double phy_chan "hardwaregain" (IZR DEFAULT_ATTENUATION);
    iio_channel_attr_write_longlong phy_chan "sampling_frequency" sample_rate;
    iio_channel_enable tx0_i;
    iio_channel_enable tx0_q ].

(** Lines 158-164. *)
Definition shutdown : list event :=
  [ iio_channel_attr_write_longlong lo_chan "powerdown" 1;
    iio_buffer_destroy;
    iio_channel_disable tx0_i;
    iio_channel_disable tx0_q;
    iio_context_destroy;
    free_samples ].

(** [int main(int argc, char **argv)]: the exit status and what was done to
    the environment; [None] when the loop outlives the fuel. *)
Definition main (argv : list getopt_result) (e : env) (fuel : nat)
    : option (Z * list event) :=
  match parse_args argv 96500000 2304000 None with
  | None => Some (1, [fprintf_stderr "Usage: %s -f freq -s samplerate -i input.raw"])
  | Some (center_freq, sample_rate, input_filename) =>
  match input_filename with
  | None => Some (1, [fprintf_stderr "Input file is required."])
  | Some name =>
  match fopen e name with
  | None => Some (1, [fprintf_stderr "fopen"])
  | Some samples =>
  if negb (malloc e) then Some (1, [fprintf_stderr "malloc"])
  else
    let time_per_sample := (1 / IZR sample_rate)%R in
    let deviation_scale := (7500 / 32767)%R in
    if negb (create_default_context e) then
      Some (1, [fprintf_stderr "Could not create IIO context"])
    else if negb (find_device_phy e) || negb (find_device_tx e) then
      Some (1, [fprintf_stderr "Could not find IIO devices"])
    else
      let buffer_size := to_long (DEFAULT_BUFFER_TIME * IZR sample_rate)%R in
      let tr := configure center_freq sample_rate
                ++ [iio_device_create_buffer buffer_size] in
      match create_buffer e with
      | None => Some (1, tr ++ [fprintf_stderr "Failed to create buffer"])
      | Some buf =>
          match tx_loop deviation_scale time_per_sample samples (sigint e)
                        (clock_gettime e) fuel (initial_state buf tr) with
          | None => None
          | Some st' => Some (0, trace st' ++ shutdown)
          end
      end
  end end end%Z.

End Preload.

(** ** [double] with its infinities and NaN *)

(** The modulators once more, on doubles that can be infinite or NaN, to
    decide when the conversions to [int16_t] are defined.  [-d] is read by
    [atof] and used unchecked, and [atof] returns an infinity for [inf] and
    a NaN for [nan]. *)
Module Ieee.

(** A [double]: a finite value, an infinity with its sign, or NaN.  Finite
    values are exact (rounding is left out, and with it the sign of zero);
    a result whose magnitude is above [DBL_MAX] is an infinity. *)
Inductive double : Type :=
| Fin (x : R)
| Inf (negative : bool)
| NaN.

Definition DBL_MAX : R := ((2 - / 2 ^ 52) * 2 ^ 1023)%R.

Definition negative (x : R) : bool := if Rlt_dec x 0 then true else false.

Definition zero (x : R) : bool := if Req_dec_T x 0 then true else false.

(** The result of an operation on finite operands whose exact value is [x]. *)
Definition of_real (x : R) : double :=
  if Rle_dec (Rabs x) DBL_MAX then Fin x else Inf (negative x).

(** The conversion of an integer ([int16_t], [long long], an integer
    constant) to [double]. *)
Definition of_int (z : Z) : double := Fin (IZR z).

Definition M_PI : double := Fin PI.

(** [a * b]: zero times an infinity is NaN. *)
Definition mul (a b : double) : double :=
  match a, b with
  | NaN, _ | _, NaN => NaN
  | Fin x, Fin y => of_real (x * y)
  | Fin x, Inf s => if zero x then NaN else Inf (xorb (negative x) s)
  | Inf s, Fin y => if zero y then NaN else Inf (xorb s (negative y))
  | Inf s, Inf s' => Inf (xorb s s')
  end.

(** [a + b]: infinities of opposite signs add up to NaN. *)
Definition add (a b : double) : double :=
  match a, b with
  | NaN, _ | _, NaN => NaN
  | Fin x, Fin y => of_real (x + y)
  | Fin _, Inf s => Inf s
  | Inf s, Fin _ => Inf s
  | Inf s, Inf s' => if Bool.eqb s s' then Inf s else NaN
  end.

(** [a / b]; a zero divisor is taken to be [+0.0], which is what the two
    programs can divide by (a [long long] converted to [double]). *)
Definition div (a b : double) : double :=
  match a, b with
  | NaN, _ | _, NaN => NaN
  | Fin x, Fin y =>
      if zero y then (if zero x then NaN else Inf (negative x))
      else of_real (x / y)
  | Fin _, Inf _ => Fin 0
  | Inf s, Fin y => Inf (xorb s (negative y))
  | Inf _, Inf _ => NaN
  end.

(** [fmod(a, b)] (C11 F.10.7.1): NaN when [a] is infinite or [b] is zero,
    [a] when [b] is infinite, exact otherwise. *)
Definition fmod (a b : double) : double :=
  match a, b with
  | NaN, _ | _, NaN => NaN
  | Inf _, _ => NaN
  | Fin x, Inf _ => Fin x
  | Fin x, Fin y => if zero y then NaN else Fin (CDouble.fmod x y)
  end.

(** [cos(a)] and [sin(a)] (C11 F.10.1): NaN unless [a] is finite. *)
Definition cos (a : double) : double :=
  match a with Fin x => Fin (Rtrigo_def.cos x) | _ => NaN end.

Definition sin (a : double) : double :=
  match a with Fin x => Fin (Rtrigo_def.sin x) | _ => NaN end.

(** [(int16_t) a] (C11 6.3.1.4): the value with its fractional part
    discarded when that is an [int16_t]; undefined, [None], for any other
    finite value, an infinity or NaN. *)
Definition to_int16 (a : double) : option Z :=
  match a with
  | Fin x =>
      let z := Rtrunc x in
      if (-32768 <=? z)%Z && (z <=? 32767)%Z then Some z else None
  | _ => None
  end.

(** The finite configurations in which no step of the phase update
    overflows. *)
Definition no_overflow (deviation : Z) (phase deviation_scale time_per_sample : R)
    : Prop :=
  (Rabs (IZR deviation * deviation_scale) <= DBL_MAX
   /\ Rabs (2 * PI * (IZR deviation * deviation_scale)) <= DBL_MAX
   /\ Rabs (2 * PI * (IZR deviation * deviation_scale) * time_per_sample) <= DBL_MAX
   /\ Rabs (phase + 2 * PI * (IZR deviation * deviation_scale) * time_per_sample)
      <= DBL_MAX)%R.

Module Stream.

(** tx-fm-zed.c, [modulate_sample]: the two conversions and the new
    [*signal]. *)
Definition modulate_sample (deviation : Z)
    (signal deviation_scale time_per_sample : double)
    : (option Z * option Z) * double :=
  let freq_hz := mul (of_int deviation) deviation_scale in
  let phase_increment := mul (mul (mul (of_int 2) M_PI) freq_hz) time_per_sample in
  let signal' := fmod (add signal phase_increment) (mul (of_int 2) M_PI) in
  let i_sample := to_int16 (mul (cos signal') (of_int 32767)) in
  let q_sample := to_int16 (mul (sin signal') (of_int 32767)) in
  ((i_sample, q_sample), signal').

(** In [main]: [double deviation_scale = deviation_hz / MAX_SAMPLE_VALUE;]
    and [double time_per_sample = 1.0 / sample_rate;]. *)
Definition deviation_scale (deviation_hz : double) : double :=
  div deviation_hz (of_int 32767).

Definition time_per_sample (sample_rate : Z) : double :=
  div (of_int 1) (of_int sample_rate).

End Stream.

Module Preload.

(** tx-fm-zed-preload.c, [modulate_sample], on the globals
    [deviation_scale], [time_per_sample] and [phase_accum]. *)
Definition modulate_sample (deviation_scale time_per_sample : double)
    (deviation : Z) (phase_accum : double) : (option Z * option Z) * double :=
  let dev_hz := mul (of_int deviation) deviation_scale in
  let dphi := mul (mul (mul (of_int 2) M_PI) dev_hz) time_per_sample in
  let phase_accum' := fmod (add phase_accum dphi) (mul (of_int 2) M_PI) in
  let i_sample := to_int16 (mul (cos phase_accum') (of_int 32767)) in
  let q_sample := to_int16 (mul (sin phase_accum') (of_int 32767)) in
  ((i_sample, q_sample), phase_accum').

End Preload.

End Ieee.

(** ** The history of the stop flag *)

(** The number of places where a history goes from [false] to [true], and
    from [true] to [false]. *)
Fixpoint rises (h : list bool) : nat :=
  match h with
  | a :: ((b :: _) as rest) => (if negb a && b then 1 else 0) + rises rest
  | _ => 0
  end.

Fixpoint falls (h : list bool) : nat :=
  match h with
  | a :: ((b :: _) as rest) => (if a && negb b then 1 else 0) + falls rest
  | _ => 0
  end.

(** ** The ideal modulator *)

(** The (I, Q) pair the modulators store for a phase. *)
Definition iq_of_phase (p : double) : slot :=
  (to_int16 (cos p * 32767)%R, to_int16 (sin p * 32767)%R).

(** The phases of a modulator that never reduces its accumulator: each
    sample adds [2 pi * (deviation * deviation_scale) * time_per_sample]. *)
Fixpoint unwrapped_phases (deviation_scale time_per_sample : double)
    (devs : list Z) (phase : double) : list double :=
  match devs with
  | [] => []
  | d :: rest =>
      let phase' :=
        (phase + 2 * M_PI * (IZR d * deviation_scale) * time_per_sample)%R in
      phase' :: unwrapped_phases deviation_scale time_per_sample rest phase'
  end.

(** The complex conjugate of a sample: Q negated. *)
Definition conj_iq (s : slot) : slot := (fst s, (- snd s)%Z).

(** The number of buffers of [cap] slots that [n] samples take. *)
Definition buffers_for (n cap : nat) : nat := (n + cap - 1) / cap.

(** The evaluations of [stop] left in the looping transmitter before the
    signal that arrives for the [n0]-th one is seen. *)
Definition checks_left (n0 : nat) (st : Preload.state) : nat :=
  if Preload.stop st then 0 else S n0 - Preload.checks st.

(** The events the streaming loop adds to the trace. *)
Definition stream_loop_event (e : event) : bool :=
  match e with
  | iio_buffer_push _ => true
  | fprintf_stderr _ => true
  | _ => false
  end.

(** The range of C's [long] (and of [time_t]) on the ZedBoard's 32-bit ARM
    target; signed arithmetic that leaves it is undefined. *)
Definition LONG_MAX : Z := 2147483647.

Definition LONG_MIN : Z := -2147483648.

Definition in_long (z : Z) : Prop := (LONG_MIN <= z <= LONG_MAX)%Z.

(** * Properties *)

(** ** Truncation and [fmod] *)

Section TruncFacts.

Local Open Scope R_scope.

Lemma Rtrunc_nonneg (x : R) :
  0 <= x -> IZR (Rtrunc x) <= x < IZR (Rtrunc x) + 1.
Proof.
  intros Hx. unfold Rtrunc. destruct (Rle_dec 0 x) as [_|Hn]; [|contradiction].
  destruct (base_Int_part x) as [H1 H2]. lra.
Qed.

Lemma Rtrunc_neg (x : R) :
  x < 0 -> IZR (Rtrunc x) - 1 < x <= IZR (Rtrunc x).
Proof.
  intros Hx. unfold Rtrunc. destruct (Rle_dec 0 x) as [Hp|_]; [lra|].
  destruct (base_Int_part (- x)) as [H1 H2]. rewrite opp_IZR. lra.
Qed.

Lemma Rtrunc_nonneg_sign (x : R) : 0 <= x -> (0 <= Rtrunc x)%Z.
Proof.
  intros Hx. destruct (Rtrunc_nonneg Hx) as [_ H].
  apply Z.lt_succ_r. apply lt_IZR. rewrite succ_IZR. lra.
Qed.

Lemma Rtrunc_neg_sign (x : R) : x < 0 -> (Rtrunc x <= 0)%Z.
Proof.
  intros Hx. destruct (Rtrunc_neg Hx) as [H _].
  apply Z.lt_succ_r. apply lt_IZR. rewrite succ_IZR. lra.
Qed.

(** The truncation is the only integer between 0 and [x] that is less than
    one away from [x]. *)
Lemma Rtrunc_unique (x : R) (z : Z) :
  (0 <= x -> IZR z <= x < IZR z + 1) ->
  (x < 0 -> IZR z - 1 < x <= IZR z) ->
  Rtrunc x = z.
Proof.
  intros Hp Hn. destruct (Rle_dec 0 x) as [H0|H0].
  - destruct (Rtrunc_nonneg H0) as [A B]. destruct (Hp H0) as [C D].
    apply Z.le_antisymm; apply Z.lt_succ_r; apply lt_IZR; rewrite succ_IZR; lra.
  - apply Rnot_le_lt in H0.
    destruct (Rtrunc_neg H0) as [A B]. destruct (Hn H0) as [C D].
    apply Z.le_antisymm; apply Z.lt_succ_r; apply lt_IZR; rewrite succ_IZR; lra.
Qed.

Lemma Rtrunc_IZR (z : Z) : Rtrunc (IZR z) = z.
Proof. apply Rtrunc_unique; intros; lra. Qed.

Lemma Rtrunc_small (x : R) : -1 < x < 1 -> Rtrunc x = 0%Z.
Proof. intros H. apply Rtrunc_unique; intros; simpl; lra. Qed.

Lemma Rtrunc_is_trunc (x : R) : is_trunc x (Rtrunc x).
Proof.
  unfold is_trunc. destruct (Rle_dec 0 x) as [H0|H0].
  - destruct (Rtrunc_nonneg H0) as [A B].
    pose proof (IZR_le _ _ (Rtrunc_nonneg_sign H0)) as C. simpl in C.
    rewrite !Rabs_right by lra. lra.
  - apply Rnot_le_lt in H0. destruct (Rtrunc_neg H0) as [A B].
    pose proof (IZR_le _ _ (Rtrunc_neg_sign H0)) as C. simpl in C.
    rewrite (Rabs_left1 (IZR (Rtrunc x))), (Rabs_left x), (Rabs_left1 (x - _)) by lra.
    lra.
Qed.

(** A truncation never leaves a symmetric integer bound. *)
Lemma Rtrunc_bounded (x : R) (b : Z) :
  (0 <= b)%Z -> - IZR b <= x <= IZR b -> (- b <= Rtrunc x <= b)%Z.
Proof.
  intros Hb [Hlo Hhi]. destruct (Rle_dec 0 x) as [H0|H0].
  - destruct (Rtrunc_nonneg H0) as [A _]. pose proof (Rtrunc_nonneg_sign H0).
    split; [lia|]. apply le_IZR. lra.
  - apply Rnot_le_lt in H0.
    destruct (Rtrunc_neg H0) as [_ B]. pose proof (Rtrunc_neg_sign H0).
    split; [|lia]. apply le_IZR. rewrite opp_IZR. lra.
Qed.




(** Below the divisor in magnitude, [fmod] changes nothing. *)
Lemma fmod_small (x y : R) : 0 < y -> - y < x < y -> fmod x y = x.
Proof.
  intros Hy Hx. unfold fmod.
  assert (Hq : -1 < x / y < 1).
  { assert (Hi : 0 < / y) by now apply Rinv_0_lt_compat.
    assert (E1 : 1 = y * / y) by (field; lra).
    assert (A : (- y) * / y < x * / y) by (apply Rmult_lt_compat_r; lra).
    assert (B : x * / y < y * / y) by (apply Rmult_lt_compat_r; lra).
    unfold Rdiv. lra. }
  rewrite (Rtrunc_small Hq). simpl. lra.
Qed.

Lemma two_pi_pos : 0 < 2 * PI.
Proof. pose proof PI_RGT_0. lra. Qed.

End TruncFacts.

(** ** The modulator *)

Section Modulator.

Local Open Scope R_scope.

(** The two programs have the same modulator. *)
Lemma modulate_sample_same (deviation : Z) (phase scale tps : double) :
  Preload.modulate_sample scale tps deviation phase
  = Stream.modulate_sample deviation phase scale tps.
Proof. reflexivity. Qed.

Lemma modulate_sample_phase (deviation : Z) (phase scale tps : double) :
  snd (Stream.modulate_sample deviation phase scale tps)
  = fmod (phase + 2 * PI * (IZR deviation * scale) * tps) (2 * PI).
Proof. reflexivity. Qed.

Lemma modulate_sample_value (deviation : Z) (phase scale tps : double) :
  Stream.modulate_sample deviation phase scale tps
  = let p := fmod (phase + 2 * PI * (IZR deviation * scale) * tps) (2 * PI) in
    ((Rtrunc (cos p * 32767), Rtrunc (sin p * 32767)), p).
Proof. reflexivity. Qed.


Lemma scaled_unit_bounded (c : R) : -1 <= c <= 1 -> - 32767 <= c * 32767 <= 32767.
Proof. intros H. lra. Qed.

(** [32767 / sqrt 2] lies strictly between 23169.5 and 23170. *)
Lemma full_scale_over_sqrt2 :
  23169 + / 2 < 1 / sqrt 2 * 32767 < 23170.
Proof.
  assert (H0 : 0 < sqrt 2) by (apply sqrt_lt_R0; lra).
  assert (H2 : sqrt 2 * sqrt 2 = 2) by (apply sqrt_sqrt; lra).
  assert (E : 1 / sqrt 2 * 32767 = sqrt 2 * (32767 / 2)).
  { apply Rmult_eq_reg_r with (r := sqrt 2); [|lra].
    transitivity 32767; [field; lra|].
    transitivity (sqrt 2 * sqrt 2 * (32767 / 2)); [rewrite H2; field | ring]. }
  rewrite E.
  assert (L : 46339 / 32767 < sqrt 2).
  { destruct (Rlt_dec (46339 / 32767) (sqrt 2)) as [|N]; [assumption|].
    apply Rnot_lt_le in N. exfalso.
    assert (sqrt 2 * sqrt 2 <= 46339 / 32767 * (46339 / 32767))
      by (apply Rmult_le_compat; lra).
    lra. }
  assert (U : sqrt 2 < 46340 / 32767).
  { destruct (Rlt_dec (sqrt 2) (46340 / 32767)) as [|N]; [assumption|].
    apply Rnot_lt_le in N. exfalso.
    assert (46340 / 32767 * (46340 / 32767) <= sqrt 2 * sqrt 2)
      by (apply Rmult_le_compat; lra).
    lra. }
  lra.
Qed.

(** C1, as the code has it.  For every phase, scale, sample period and
    deviation sample, [modulate_sample] (the same function in both programs)
    takes [freqHz = deviationSample * deviationScale] and
    [phaseIncrement = 2 pi * freqHz * secondsPerSample]; the new phase is
    [phaseAccumulator + phaseIncrement] minus [k] times [2 pi], where [k] is
    the quotient by [2 pi] with its fractional part discarded (C's [fmod]);
    [iSample] and [qSample] are [cos] and [sin] of the new phase times 32767
    with the fractional part discarded (truncated toward zero, not
    rounded). *)
Theorem modulate_sample_formulas
    (deviationSample : Z) (phaseAccumulator deviationScale secondsPerSample : double) :
  let fullScale := 32767 in
  let freqHz := IZR deviationSample * deviationScale in
  let phaseIncrement := 2 * PI * freqHz * secondsPerSample in
  let r := Stream.modulate_sample deviationSample phaseAccumulator
             deviationScale secondsPerSample in
  let iSample := fst (fst r) in
  let qSample := snd (fst r) in
  let phase' := snd r in
  (exists k : Z,
      is_trunc ((phaseAccumulator + phaseIncrement) / (2 * PI)) k /\
      phase' = phaseAccumulator + phaseIncrement - IZR k * (2 * PI)) /\
  is_trunc (cos phase' * fullScale) iSample /\
  is_trunc (sin phase' * fullScale) qSample /\
  Preload.modulate_sample deviationScale secondsPerSample deviationSample
    phaseAccumulator = r.
Proof.
  cbv zeta. repeat split.
  - exists (Rtrunc ((phaseAccumulator
                     + 2 * PI * (IZR deviationSample * deviationScale)
                       * secondsPerSample) / (2 * PI))).
    split; [apply Rtrunc_is_trunc | reflexivity].
  - apply Rtrunc_is_trunc.
  - apply Rtrunc_is_trunc.
  - apply Rtrunc_is_trunc.
  - apply Rtrunc_is_trunc.
Qed.

(** C1 as stated fails: from phase 0, with [-s 1000000 -d 125000] and a
    full-scale sample, the new phase is [pi / 4], [cos] and [sin] times
    32767 are 23169.77..., and the program returns 23169 for both, which is
    not the nearest integer. *)
Lemma modulate_sample_not_rounded :
  let r := Stream.modulate_sample 32767 0 (125000 / 32767) (1 / 1000000) in
  snd r = PI / 4 /\
  fst r = (23169%Z, 23169%Z) /\
  ~ is_round (cos (snd r) * 32767) (fst (fst r)) /\
  ~ is_round (sin (snd r) * 32767) (snd (fst r)).
Proof.
  cbv zeta.
  assert (F : fmod (0 + 2 * PI * (32767 * (125000 / 32767)) * (1 / 1000000)) (2 * PI)
              = PI / 4).
  { replace (0 + 2 * PI * (32767 * (125000 / 32767)) * (1 / 1000000))
      with (PI / 4) by field.
    apply fmod_small; [apply two_pi_pos|]. pose proof PI_RGT_0. lra. }
  pose proof full_scale_over_sqrt2 as [L U].
  assert (T : Rtrunc (1 / sqrt 2 * 32767) = 23169%Z).
  { apply Rtrunc_unique; intros; lra. }
  rewrite modulate_sample_value. cbv zeta. rewrite F. cbn [fst snd].
  rewrite cos_PI4, sin_PI4, T.
  split; [reflexivity|]. split; [reflexivity|].
  unfold is_round.
  assert (A : / 2 < Rabs (23169 - 1 / sqrt 2 * 32767)).
  { rewrite Rabs_left by lra. lra. }
  split; intros H; lra.
Qed.



(** On the real numbers, the I and the Q value of [modulate_sample] lie
    within [-32767, 32767], in both programs. *)
Lemma modulate_sample_in_range
    (deviation : Z) (phase deviation_scale time_per_sample : double) :
  let iq := fst (Stream.modulate_sample deviation phase deviation_scale time_per_sample) in
  let iq' := fst (Preload.modulate_sample deviation_scale time_per_sample deviation phase) in
  ((-32767 <= fst iq <= 32767)%Z /\ (-32767 <= snd iq <= 32767)%Z) /\
  (int16_range (fst iq) /\ int16_range (snd iq)) /\
  ((-32767 <= fst iq' <= 32767)%Z /\ (-32767 <= snd iq' <= 32767)%Z) /\
  (int16_range (fst iq') /\ int16_range (snd iq')).
Proof.
  cbv zeta. rewrite modulate_sample_same.
  unfold Stream.modulate_sample, to_int16, Stream.MAX_SAMPLE_VALUE, int16_range.
  cbn [fst snd].
  set (p := fmod _ _).
  assert (I : (- 32767 <= Rtrunc (cos p * 32767) <= 32767)%Z).
  { apply Rtrunc_bounded with (b := 32767%Z); [lia|]. apply scaled_unit_bounded, COS_bound. }
  assert (Q : (- 32767 <= Rtrunc (sin p * 32767) <= 32767)%Z).
  { apply Rtrunc_bounded with (b := 32767%Z); [lia|]. apply scaled_unit_bounded, SIN_bound. }
  lia.
Qed.

(** [DBL_MAX] is far above every constant of the two programs. *)
Lemma DBL_MAX_large : 1000000000 <= Ieee.DBL_MAX.
Proof.
  unfold Ieee.DBL_MAX.
  assert (A : 1 <= 2 ^ 52) by (apply pow_R1_Rle; lra).
  assert (B : / 2 ^ 52 <= 1).
  { rewrite <- Rinv_1. apply Rinv_le_contravar; lra. }
  assert (C : 2 ^ 1023 = 2 ^ 30 * 2 ^ 993).
  { rewrite <- pow_add. reflexivity. }
  assert (D : 1 <= 2 ^ 993) by (apply pow_R1_Rle; lra).
  assert (E : 2 ^ 30 = 1073741824) by (simpl; lra).
  rewrite C, E. nra.
Qed.

Lemma of_real_finite (x : R) : Rabs x <= Ieee.DBL_MAX -> Ieee.of_real x = Ieee.Fin x.
Proof.
  intros H. unfold Ieee.of_real. destruct (Rle_dec _ _) as [_|N]; [reflexivity|].
  contradiction.
Qed.

Lemma of_real_small (x : R) :
  - 1000000000 <= x <= 1000000000 -> Ieee.of_real x = Ieee.Fin x.
Proof.
  intros H. apply of_real_finite.
  apply Rle_trans with (r2 := 1000000000); [|exact DBL_MAX_large].
  apply Rabs_le. lra.
Qed.

Lemma zero_false (x : R) : x <> 0 -> Ieee.zero x = false.
Proof.
  intros H. unfold Ieee.zero. destruct (Req_dec_T x 0) as [E|_]; [contradiction|].
  reflexivity.
Qed.

Lemma negative_false (x : R) : 0 <= x -> Ieee.negative x = false.
Proof.
  intros H. unfold Ieee.negative. destruct (Rlt_dec x 0) as [N|_]; [lra|].
  reflexivity.
Qed.

Lemma two_pi_double : Ieee.mul (Ieee.of_int 2) Ieee.M_PI = Ieee.Fin (2 * PI).
Proof.
  unfold Ieee.mul, Ieee.of_int, Ieee.M_PI. apply of_real_small.
  pose proof PI_RGT_0. pose proof PI_4. lra.
Qed.

(** The conversion of a cosine or sine scaled by 32767 is defined, and is
    what the model on the real numbers computes. *)
Lemma to_int16_scaled_unit (c : R) :
  -1 <= c <= 1 ->
  Ieee.to_int16 (Ieee.mul (Ieee.Fin c) (Ieee.of_int 32767)) = Some (Rtrunc (c * 32767))
  /\ (- 32767 <= Rtrunc (c * 32767) <= 32767)%Z.
Proof.
  intros H.
  assert (B : (- 32767 <= Rtrunc (c * 32767) <= 32767)%Z).
  { apply Rtrunc_bounded with (b := 32767%Z); [lia|]. apply scaled_unit_bounded, H. }
  split; [|exact B].
  unfold Ieee.mul, Ieee.of_int. rewrite of_real_small by lra.
  unfold Ieee.to_int16. cbv zeta.
  rewrite (proj2 (Z.leb_le _ _)) by lia. rewrite (proj2 (Z.leb_le _ _)) by lia.
  reflexivity.
Qed.

(** The two modulators are the same function on these doubles too. *)
Lemma ieee_modulate_sample_same (deviation : Z)
    (phase deviation_scale time_per_sample : Ieee.double) :
  Ieee.Preload.modulate_sample deviation_scale time_per_sample deviation phase
  = Ieee.Stream.modulate_sample deviation phase deviation_scale time_per_sample.
Proof. reflexivity. Qed.

(** The new phase in a finite configuration where nothing overflows. *)
Lemma ieee_modulate_sample_phase (deviation : Z) (x s t : R) :
  Ieee.no_overflow deviation x s t ->
  snd (Ieee.Stream.modulate_sample deviation (Ieee.Fin x) (Ieee.Fin s) (Ieee.Fin t))
  = Ieee.Fin (fmod (x + 2 * PI * (IZR deviation * s) * t) (2 * PI)).
Proof.
  intros (H1 & H2 & H3 & H4).
  unfold Ieee.Stream.modulate_sample. cbn [snd]. rewrite two_pi_double.
  unfold Ieee.of_int. cbn [Ieee.mul].
  rewrite (@of_real_finite _ H1). cbn [Ieee.mul]. rewrite (@of_real_finite _ H2).
  cbn [Ieee.mul]. rewrite (@of_real_finite _ H3). cbn [Ieee.add].
  rewrite (@of_real_finite _ H4). cbn [Ieee.fmod].
  rewrite zero_false by (pose proof PI_RGT_0; lra). reflexivity.
Qed.

(** C10, as the code has it.  In both programs the conversions to
    [int16_t] are defined exactly when the new phase is finite; they are
    then the truncations of [cos] and [sin] of that phase times 32767, and
    lie within [-32767, 32767]: the conversion does not overflow or wrap.
    The new phase is finite, and the outputs are those of the model on the
    real numbers, for every finite phase, scale and sample period with
    which no step of the phase update overflows.  When the new phase is
    not finite, both conversions are undefined. *)
Theorem iq_samples_fit_int16
    (deviation : Z) (phase deviation_scale time_per_sample : Ieee.double) :
  let r := Ieee.Stream.modulate_sample deviation phase deviation_scale time_per_sample in
  let r' := Ieee.Preload.modulate_sample deviation_scale time_per_sample deviation phase in
  r' = r
  /\ match snd r with
     | Ieee.Fin p =>
         exists i q : Z,
           fst r = (Some i, Some q)
           /\ i = Rtrunc (cos p * 32767) /\ q = Rtrunc (sin p * 32767)
           /\ (-32767 <= i <= 32767)%Z /\ (-32767 <= q <= 32767)%Z
           /\ int16_range i /\ int16_range q
     | _ => fst r = (None, None)
     end
  /\ (forall x s t : R,
        phase = Ieee.Fin x -> deviation_scale = Ieee.Fin s ->
        time_per_sample = Ieee.Fin t ->
        Ieee.no_overflow deviation x s t ->
        r = ((Some (fst (fst (Stream.modulate_sample deviation x s t))),
              Some (snd (fst (Stream.modulate_sample deviation x s t)))),
             Ieee.Fin (snd (Stream.modulate_sample deviation x s t)))).
Proof.
  cbv zeta. split; [reflexivity|].
  assert (Shape : forall a : Ieee.double,
            match a with
            | Ieee.Fin p =>
                exists i q : Z,
                  (Ieee.to_int16 (Ieee.mul (Ieee.cos a) (Ieee.of_int 32767)),
                   Ieee.to_int16 (Ieee.mul (Ieee.sin a) (Ieee.of_int 32767)))
                  = (Some i, Some q)
                  /\ i = Rtrunc (cos p * 32767) /\ q = Rtrunc (sin p * 32767)
                  /\ (-32767 <= i <= 32767)%Z /\ (-32767 <= q <= 32767)%Z
                  /\ int16_range i /\ int16_range q
            | _ =>
                (Ieee.to_int16 (Ieee.mul (Ieee.cos a) (Ieee.of_int 32767)),
                 Ieee.to_int16 (Ieee.mul (Ieee.sin a) (Ieee.of_int 32767)))
                = (None, None)
            end).
  { intros [p|sg|]; [|reflexivity|reflexivity].
    cbn [Ieee.cos Ieee.sin].
    destruct (to_int16_scaled_unit (COS_bound p)) as [Ci Bi].
    destruct (to_int16_scaled_unit (SIN_bound p)) as [Cq Bq].
    exists (Rtrunc (cos p * 32767)), (Rtrunc (sin p * 32767)).
    rewrite Ci, Cq. unfold int16_range. repeat split; lia. }
  split.
  - unfold Ieee.Stream.modulate_sample. cbn [fst snd]. apply Shape.
  - intros x s t -> -> -> H.
    pose proof (ieee_modulate_sample_phase H) as P.
    rewrite modulate_sample_value. cbv zeta. cbn [fst snd].
    unfold Ieee.Stream.modulate_sample in *. cbn [snd] in P. rewrite P.
    cbn [Ieee.cos Ieee.sin].
    rewrite (proj1 (to_int16_scaled_unit (COS_bound _))).
    rewrite (proj1 (to_int16_scaled_unit (SIN_bound _))). reflexivity.
Qed.

(** The theorem at work: the streaming transmitter's defaults at 1 MS/s, a
    full-scale sample. *)
Lemma iq_samples_fit_int16_witness :
  Ieee.Stream.modulate_sample 32767 (Ieee.Fin 0) (Ieee.Fin (10000 / 32767))
    (Ieee.Fin (1 / 1000000))
  = ((Some (fst (fst (Stream.modulate_sample 32767 0 (10000 / 32767) (1 / 1000000)))),
      Some (snd (fst (Stream.modulate_sample 32767 0 (10000 / 32767) (1 / 1000000))))),
     Ieee.Fin (snd (Stream.modulate_sample 32767 0 (10000 / 32767) (1 / 1000000)))).
Proof.
  refine (proj2 (proj2 (@iq_samples_fit_int16 32767 (Ieee.Fin 0)
                          (Ieee.Fin (10000 / 32767)) (Ieee.Fin (1 / 1000000))))
            0 (10000 / 32767) (1 / 1000000) eq_refl eq_refl eq_refl _).
  pose proof PI_RGT_0 as P0. pose proof PI_4 as P4. pose proof DBL_MAX_large as M.
  unfold Ieee.no_overflow.
  repeat split; (apply Rle_trans with (r2 := 1000000000); [|exact M]);
    apply Rabs_le; lra.
Defined.

(** C10 as stated fails.  [-d inf] makes [deviation_scale] infinite; with
    the first non-zero sample the phase increment is infinite, [fmod] of
    the infinite sum is NaN, its cosine and sine are NaN, and the
    conversions of NaN to [int16_t] are undefined. *)
Lemma iq_conversion_undefined_for_infinite_deviation :
  Ieee.Stream.modulate_sample 1 (Ieee.Fin 0)
    (Ieee.Stream.deviation_scale (Ieee.Inf false))
    (Ieee.Stream.time_per_sample 1000000)
  = ((None, None), Ieee.NaN).
Proof.
  unfold Ieee.Stream.deviation_scale, Ieee.Stream.time_per_sample, Ieee.of_int.
  cbn [Ieee.div].
  rewrite (@negative_false 32767) by lra.
  rewrite (@zero_false 1000000) by lra.
  rewrite of_real_small by lra.
  unfold Ieee.Stream.modulate_sample. rewrite two_pi_double.
  unfold Ieee.of_int. cbn [Ieee.mul xorb].
  rewrite (@zero_false 1) by lra. rewrite (@negative_false 1) by lra.
  cbn [Ieee.mul xorb].
  rewrite (@zero_false (2 * PI)) by (pose proof PI_RGT_0; lra).
  rewrite (@negative_false (2 * PI)) by (pose proof PI_RGT_0; lra).
  cbn [Ieee.mul xorb].
  rewrite (@zero_false (1 / 1000000)) by lra.
  rewrite (@negative_false (1 / 1000000)) by lra.
  reflexivity.
Qed.

End Modulator.

(** ** Lists *)

Lemma last_cons_default (A : Type) (l : list A) (x d : A) :
  last (x :: l) d = last l x.
Proof.
  revert x d. induction l as [|y l IH]; intros x d; [reflexivity|].
  change (last (x :: y :: l) d) with (last (y :: l) d).
  rewrite IH. symmetry. apply IH.
Qed.

Lemma last_app_default (A : Type) (l1 l2 : list A) (d : A) :
  last (l1 ++ l2) d = last l2 (last l1 d).
Proof.
  revert d. induction l1 as [|x l1 IH]; intros d; [reflexivity|].
  rewrite <- app_comm_cons, !last_cons_default. apply IH.
Qed.

Lemma firstn_add_skipn (A : Type) (a b : nat) (l : list A) :
  firstn (a + b) l = firstn a l ++ firstn b (skipn a l).
Proof.
  revert l. induction a as [|a IH]; intros l; [reflexivity|].
  destruct l as [|x l]; simpl.
  - rewrite firstn_nil. reflexivity.
  - rewrite IH. reflexivity.
Qed.

Lemma firstn_length_firstn (A : Type) (c : nat) (l : list A) :
  firstn (List.length (firstn c l)) l = firstn c l.
Proof.
  revert l. induction c as [|c IH]; intros l; [reflexivity|].
  destruct l as [|x l]; simpl; [reflexivity|]. rewrite IH. reflexivity.
Qed.

(** ** The streaming filler *)

Section StreamFiller.

Variables deviation_scale time_per_sample : double.

Local Abbreviation fill_slot := (Stream.fill_slot deviation_scale time_per_sample).
Local Abbreviation fill_buffer := (Stream.fill_buffer deviation_scale time_per_sample).
Local Abbreviation fill_buffers := (Stream.fill_buffers deviation_scale time_per_sample).
Local Abbreviation modulate_all := (Stream.modulate_all deviation_scale time_per_sample).

Lemma stream_fill_slot_eq (st : Stream.state) :
  fill_slot st =
  let d := hd 0%Z (Stream.next_samples 1 (Stream.stdin st)) in
  let r := Stream.modulate_sample d (Stream.signal_phase st)
             deviation_scale time_per_sample in
  (fst r,
   Stream.mk_state (Stream.stop st || Stream.short_within 1 (Stream.stdin st))
     (tl (Stream.stdin st)) (S (Stream.reads st)) (snd r) (Stream.txbuf st)
     (Stream.written st ++ [fst r]) (Stream.pushes st) (Stream.checks st)
     (Stream.trace st)).
Proof.
  unfold Stream.fill_slot, Stream.get_next_sample.
  destruct st as [stp inp rd ph buf wr pu ch tr]; simpl.
  destruct inp as [|[v|] rest]; simpl;
    rewrite ?orb_true_r, ?orb_false_r; reflexivity.
Qed.

Lemma stream_fill_buffer_cons (old : slot) (rest : list slot) (st : Stream.state) :
  fill_buffer (old :: rest) st =
  (fst (fill_slot st) :: fst (fill_buffer rest (snd (fill_slot st))),
   snd (fill_buffer rest (snd (fill_slot st)))).
Proof.
  simpl. destruct (fill_slot st) as [iq st1]. simpl.
  destruct (fill_buffer rest st1) as [rest' st2]. reflexivity.
Qed.

(** Filling a buffer made of two parts is filling the first, then the
    second from the state the first left. *)
Lemma stream_fill_buffer_app (b1 b2 : list slot) (st : Stream.state) :
  fill_buffer (b1 ++ b2) st =
  (fst (fill_buffer b1 st) ++ fst (fill_buffer b2 (snd (fill_buffer b1 st))),
   snd (fill_buffer b2 (snd (fill_buffer b1 st)))).
Proof.
  revert st. induction b1 as [|old b1 IH]; intros st.
  - simpl. destruct (fill_buffer b2 st); reflexivity.
  - rewrite <- app_comm_cons, !stream_fill_buffer_cons, IH. reflexivity.
Qed.

Lemma stream_fill_buffers_concat (bufs : list (list slot)) (st : Stream.state) :
  fill_buffers bufs st = snd (fill_buffer (List.concat bufs) st).
Proof.
  revert st. induction bufs as [|b bufs IH]; intros st; simpl.
  - reflexivity.
  - rewrite stream_fill_buffer_app, IH. reflexivity.
Qed.

(** What one fill does, whatever the slots held. *)
Lemma stream_fill_buffer_spec (slots : list slot) (st : Stream.state) :
  let n := List.length slots in
  let r := fill_buffer slots st in
  fst r = modulate_all (Stream.next_samples n (Stream.stdin st)) (Stream.signal_phase st)
  /\ Stream.written (snd r) = Stream.written st ++ fst r
  /\ Stream.reads (snd r) = Stream.reads st + n
  /\ Stream.stdin (snd r) = skipn n (Stream.stdin st)
  /\ Stream.stop (snd r) = Stream.stop st || Stream.short_within n (Stream.stdin st)
  /\ Stream.txbuf (snd r) = Stream.txbuf st
  /\ Stream.pushes (snd r) = Stream.pushes st
  /\ Stream.checks (snd r) = Stream.checks st
  /\ Stream.trace (snd r) = Stream.trace st.
Proof.
  revert st. induction slots as [|old rest IH]; intros st.
  - simpl. rewrite app_nil_r, Nat.add_0_r, orb_false_r. repeat split; reflexivity.
  - cbv zeta. rewrite stream_fill_buffer_cons. cbn [fst snd List.length].
    specialize (IH (snd (fill_slot st))). cbv zeta in IH.
    destruct IH as (O & W & R & I & S & B & P & C & T).
    rewrite O, W, R, I, S, B, P, C, T, O. rewrite stream_fill_slot_eq. cbv zeta. cbn [fst snd].
    cbn [Stream.written Stream.reads Stream.stdin Stream.stop Stream.txbuf
         Stream.pushes Stream.checks Stream.trace Stream.signal_phase].
    destruct st as [stp inp rd ph buf wr pu ch tr];
      cbn [Stream.written Stream.reads Stream.stdin Stream.stop Stream.txbuf
           Stream.pushes Stream.checks Stream.trace Stream.signal_phase].
    destruct inp as [|[v|] inp]; cbn [Stream.next_samples Stream.short_within
      Stream.sample_of hd tl skipn Stream.modulate_all];
      rewrite ?orb_true_r, ?orb_false_r, ?orb_true_l;
      repeat match goal with
             | |- context [let (_, _) := ?x in _] => rewrite (surjective_pairing x)
             end; cbn [fst snd];
      rewrite <- ?app_assoc; cbn [app];
      repeat split; try reflexivity; try lia;
      destruct (List.length rest); reflexivity.
Qed.

Lemma stream_next_samples_length (n : nat) (input : list Stream.read_result) :
  List.length (Stream.next_samples n input) = n.
Proof.
  revert input. induction n as [|n IH]; intros [|r rest]; simpl; auto.
Qed.

Lemma stream_next_samples_add (a b : nat) (input : list Stream.read_result) :
  Stream.next_samples (a + b) input
  = Stream.next_samples a input ++ Stream.next_samples b (skipn a input).
Proof.
  revert input. induction a as [|a IH]; intros input; simpl.
  - reflexivity.
  - destruct input as [|r rest]; simpl; rewrite IH; try reflexivity.
    destruct a; reflexivity.
Qed.

Lemma stream_modulate_all_length (devs : list Z) (phase : double) :
  List.length (modulate_all devs phase) = List.length devs.
Proof.
  revert phase. induction devs as [|d devs IH]; intros phase; simpl; auto.
Qed.

(** The phase a one-pass modulation ends in. *)
Lemma stream_modulate_all_app (l1 l2 : list Z) (phase : double) :
  modulate_all (l1 ++ l2) phase
  = modulate_all l1 phase
    ++ modulate_all l2
         (last (Stream.phases deviation_scale time_per_sample l1 phase) phase).
Proof.
  revert phase. induction l1 as [|d l1 IH]; intros phase.
  - reflexivity.
  - cbn [app Stream.modulate_all Stream.phases]. cbv zeta.
    rewrite (surjective_pairing (Stream.modulate_sample _ _ _ _)).
    cbn [fst snd]. rewrite IH. cbn [app]. rewrite last_cons_default. reflexivity.
Qed.

Lemma stream_fill_buffer_phase (slots : list slot) (st : Stream.state) :
  Stream.signal_phase (snd (fill_buffer slots st))
  = last (Stream.phases deviation_scale time_per_sample
            (Stream.next_samples (List.length slots) (Stream.stdin st))
            (Stream.signal_phase st))
         (Stream.signal_phase st).
Proof.
  revert st. induction slots as [|old rest IH]; intros st.
  - reflexivity.
  - rewrite stream_fill_buffer_cons. cbn [snd]. rewrite IH.
    rewrite stream_fill_slot_eq. cbv zeta. cbn [snd Stream.stdin Stream.signal_phase].
    destruct st as [stp inp rd ph buf wr pu ch tr];
      cbn [Stream.stdin Stream.signal_phase List.length].
    destruct inp as [|r inp]; cbn [Stream.next_samples hd tl Stream.phases];
      rewrite (surjective_pairing (Stream.modulate_sample _ _ _ _)); cbn [fst snd];
      rewrite last_cons_default; reflexivity.
Qed.

Section StreamLoop.

Variable push_result : nat -> Z.
Variable sigint : nat -> bool.

Local Abbreviation read_stop := (Stream.read_stop sigint).
Local Abbreviation tx_loop :=
  (Stream.tx_loop deviation_scale time_per_sample push_result sigint).

Lemma stream_tx_loop_unfold (fuel : nat) (st : Stream.state) :
  tx_loop (S fuel) st =
  let st0 := read_stop st in
  if Stream.stop st0 then Some st0
  else
    let st2 := snd (Stream.push_txbuf push_result
                      (Stream.fill_txbuf deviation_scale time_per_sample st0)) in
    if (push_result (Stream.pushes st0) <? 0)%Z
    then Some (Stream.log (fprintf_stderr "Error pushing buffer") st2)
    else tx_loop fuel st2.
Proof.
  cbn [Stream.tx_loop]. cbv zeta. destruct (Stream.stop (read_stop st)); [reflexivity|].
  unfold Stream.push_txbuf at 1. cbn [fst snd].
  unfold Stream.fill_txbuf at 1.
  pose proof (stream_fill_buffer_spec (Stream.txbuf (read_stop st)) (read_stop st)) as H.
  cbv zeta in H. destruct H as (_ & _ & _ & _ & _ & _ & P & _).
  destruct (Stream.fill_buffer _ _ _ _) as [buf st1]. cbn [snd] in P.
  unfold Stream.set_txbuf. cbn [Stream.pushes]. rewrite P. reflexivity.
Qed.

(** The state after filling the program's buffer. *)
Lemma stream_fill_txbuf_spec (st : Stream.state) :
  let n := List.length (Stream.txbuf st) in
  let outs := modulate_all (Stream.next_samples n (Stream.stdin st))
                (Stream.signal_phase st) in
  let st1 := Stream.fill_txbuf deviation_scale time_per_sample st in
  Stream.txbuf st1 = outs
  /\ Stream.written st1 = Stream.written st ++ outs
  /\ Stream.reads st1 = Stream.reads st + n
  /\ Stream.stdin st1 = skipn n (Stream.stdin st)
  /\ Stream.stop st1 = Stream.stop st || Stream.short_within n (Stream.stdin st)
  /\ Stream.pushes st1 = Stream.pushes st
  /\ Stream.checks st1 = Stream.checks st
  /\ Stream.trace st1 = Stream.trace st
  /\ Stream.signal_phase st1
     = last (Stream.phases deviation_scale time_per_sample
               (Stream.next_samples n (Stream.stdin st)) (Stream.signal_phase st))
            (Stream.signal_phase st).
Proof.
  cbv zeta. unfold Stream.fill_txbuf.
  pose proof (stream_fill_buffer_spec (Stream.txbuf st) st) as H. cbv zeta in H.
  pose proof (stream_fill_buffer_phase (Stream.txbuf st) st) as F.
  destruct (Stream.fill_buffer _ _ _ _) as [buf st1]. cbn [fst snd] in *.
  destruct H as (O & W & R & I & S & B & P & C & T).
  destruct st1; cbn in *. subst. repeat split; reflexivity.
Qed.

Lemma stream_read_stop_eq (st : Stream.state) :
  read_stop st =
  Stream.mk_state (Stream.stop st || sigint (Stream.checks st)) (Stream.stdin st)
    (Stream.reads st) (Stream.signal_phase st) (Stream.txbuf st)
    (Stream.written st) (Stream.pushes st) (S (Stream.checks st)) (Stream.trace st).
Proof.
  unfold Stream.read_stop, Stream.count_check, Stream.signal_handler, Stream.set_stop.
  destruct st as [stp inp rd ph buf wr pu ch tr]; cbn.
  destruct (sigint ch); cbn; rewrite ?orb_true_r, ?orb_false_r; reflexivity.
Qed.

(** What the loop has stored when it ends: the one-pass modulation of the
    samples read for the buffers it pushed. *)
Lemma stream_tx_loop_written (fuel : nat) (st : Stream.state) :
  match tx_loop fuel st with
  | Some st' =>
      let n := List.length (Stream.txbuf st) in
      let k := Stream.pushes st' - Stream.pushes st in
      Stream.pushes st <= Stream.pushes st'
      /\ Stream.written st'
         = Stream.written st
           ++ modulate_all (Stream.next_samples (k * n) (Stream.stdin st))
                (Stream.signal_phase st)
  | None => True
  end.
Proof.
  revert st. induction fuel as [|fuel IH]; intros st; [exact I|].
  rewrite stream_tx_loop_unfold. cbv zeta.
  pose proof (stream_read_stop_eq st) as E.
  set (st0 := read_stop st) in *.
  assert (E0 : Stream.written st0 = Stream.written st
               /\ Stream.stdin st0 = Stream.stdin st
               /\ Stream.signal_phase st0 = Stream.signal_phase st
               /\ Stream.txbuf st0 = Stream.txbuf st
               /\ Stream.pushes st0 = Stream.pushes st)
    by (rewrite E; repeat split; reflexivity).
  destruct E0 as (Ew & Ei & Ep & Eb & Eu).
  destruct (Stream.stop st0).
  - rewrite Eu, Ew, Nat.sub_diag. cbn. rewrite app_nil_r. split; [lia | reflexivity].
  - pose proof (stream_fill_txbuf_spec st0) as F. cbv zeta in F.
    destruct F as (Fb & Fw & _ & Fi & _ & Fu & _ & _ & Fp).
    set (st1 := Stream.fill_txbuf deviation_scale time_per_sample st0) in *.
    set (st2 := snd (Stream.push_txbuf push_result st1)).
    assert (E2 : Stream.written st2 = Stream.written st1
                 /\ Stream.stdin st2 = Stream.stdin st1
                 /\ Stream.signal_phase st2 = Stream.signal_phase st1
                 /\ Stream.txbuf st2 = Stream.txbuf st1
                 /\ Stream.pushes st2 = S (Stream.pushes st1))
      by (repeat split; reflexivity).
    destruct E2 as (Gw & Gi & Gp & Gb & Gu).
    rewrite Eb, Ei, Ep, Ew in *. rewrite Eu in Fu.
    set (n := List.length (Stream.txbuf st)) in *.
    destruct (push_result (Stream.pushes st0) <? 0)%Z.
    + cbn [Stream.log Stream.pushes Stream.written]. rewrite Gu, Gw, Fu, Fw.
      replace (S (Stream.pushes st) - Stream.pushes st) with 1 by lia.
      rewrite Nat.mul_1_l. split; [lia | reflexivity].
    + specialize (IH st2). destruct (tx_loop fuel st2) as [st'|]; [|exact I].
      cbv zeta in IH. destruct IH as [Hle Hw].
      rewrite Gu, Fu in Hle. split; [lia|].
      rewrite Hw, Gw, Gi, Gp, Gb, Gu, Fw, Fi, Fp, Fb, Fu.
      rewrite stream_modulate_all_length, stream_next_samples_length.
      replace (Stream.pushes st' - Stream.pushes st)
        with (S (Stream.pushes st' - S (Stream.pushes st))) by lia.
      cbn [Nat.mul]. rewrite stream_next_samples_add, stream_modulate_all_app.
      rewrite <- app_assoc. reflexivity.
Qed.

End StreamLoop.

End StreamFiller.

(** ** The deadline arithmetic of the looping transmitter *)

Section Deadline.

Local Open Scope Z_scope.

Lemma buffer_period_ns_value : Preload.buffer_period_ns = 100000000.
Proof.
  unfold Preload.buffer_period_ns, Preload.DEFAULT_BUFFER_TIME, to_long.
  replace (1 / 10 * 1000000000)%R with (IZR 100000000) by (simpl; lra).
  apply Rtrunc_IZR.
Qed.

(** The carry loop keeps the instant and ends with [tv_nsec] below one
    second. *)
Lemma time_add_ns_loop_spec (t : timespec) :
  0 <= tv_nsec t ->
  Preload.to_ns (Preload.time_add_ns_loop t) = Preload.to_ns t
  /\ Preload.normalized (Preload.time_add_ns_loop t).
Proof.
  funelim (Preload.time_add_ns_loop t); intros Hpos.
  - destruct H as [E N]; [simpl; lia|].
    split; [|exact N]. rewrite E. unfold Preload.to_ns. simpl. lia.
  - unfold Preload.normalized. split; [reflexivity | lia].
Qed.

Lemma time_add_ns_spec (t : timespec) (ns : Z) :
  Preload.normalized t -> 0 <= ns ->
  Preload.to_ns (Preload.time_add_ns t ns) = Preload.to_ns t + ns
  /\ Preload.normalized (Preload.time_add_ns t ns).
Proof.
  intros [Hlo Hhi] Hns. unfold Preload.time_add_ns.
  destruct (@time_add_ns_loop_spec (mk_timespec (tv_sec t) (tv_nsec t + ns))) as [E N];
    [simpl; lia|].
  split; [|exact N]. rewrite E. unfold Preload.to_ns. simpl. lia.
Qed.

(** [t->tv_nsec += ns] stays within a 32-bit [long] when the period is
    added to a timestamp of the clock. *)
Lemma time_add_ns_nsec_range (t : timespec) :
  Preload.normalized t ->
  0 <= tv_nsec t + Preload.buffer_period_ns < 2 ^ 31.
Proof. intros [Hlo Hhi]. rewrite buffer_period_ns_value. lia. Qed.

(** A normalized timestamp is determined by its number of nanoseconds. *)
Lemma normalized_to_ns_inj (a b : timespec) :
  Preload.normalized a -> Preload.normalized b ->
  Preload.to_ns a = Preload.to_ns b -> a = b.
Proof.
  destruct a as [sa na], b as [sb nb]. unfold Preload.normalized, Preload.to_ns.
  simpl. intros Ha Hb E.
  assert (sa = sb) by nia. subst. f_equal. lia.
Qed.

End Deadline.

(** ** The looping filler *)

Section PreloadFiller.

Variables deviation_scale time_per_sample : double.
Variable samples : list Z.

Local Abbreviation fill_slot := (Preload.fill_slot deviation_scale time_per_sample samples).
Local Abbreviation fill_buffer := (Preload.fill_buffer deviation_scale time_per_sample samples).
Local Abbreviation fill_buffers := (Preload.fill_buffers deviation_scale time_per_sample samples).
Local Abbreviation modulate_all := (Preload.modulate_all deviation_scale time_per_sample).
Local Abbreviation phases := (Preload.phases deviation_scale time_per_sample).
Local Abbreviation total_samples := (Preload.total_samples samples).

Lemma skipn_nth_cons (i : nat) :
  i < total_samples ->
  skipn i samples = nth i samples 0%Z :: skipn (S i) samples.
Proof.
  unfold Preload.total_samples. revert i.
  induction samples as [|x l IH]; intros i Hi; simpl in Hi; [lia|].
  destruct i as [|i]; [reflexivity|]. simpl. rewrite IH by lia. reflexivity.
Qed.

Lemma preload_fill_buffer_cons (old : slot) (rest : list slot) (st : Preload.state) :
  Preload.index st < total_samples ->
  fill_buffer (old :: rest) st =
  (fst (fill_slot st) :: fst (fill_buffer rest (snd (fill_slot st))),
   snd (fill_buffer rest (snd (fill_slot st)))).
Proof.
  intros H. apply Nat.ltb_lt in H. cbn [Preload.fill_buffer]. rewrite H.
  destruct (fill_slot st) as [iq st1]. cbn [fst snd].
  destruct (fill_buffer rest st1) as [rest' st2]. reflexivity.
Qed.

(** Once the samples are used up the filler touches nothing. *)
Lemma preload_fill_buffer_exhausted (slots : list slot) (st : Preload.state) :
  total_samples <= Preload.index st -> fill_buffer slots st = (slots, st).
Proof.
  intros H. apply Nat.ltb_ge in H. destruct slots; simpl; [|rewrite H]; reflexivity.
Qed.

Lemma preload_fill_buffer_app (b1 b2 : list slot) (st : Preload.state) :
  fill_buffer (b1 ++ b2) st =
  (fst (fill_buffer b1 st) ++ fst (fill_buffer b2 (snd (fill_buffer b1 st))),
   snd (fill_buffer b2 (snd (fill_buffer b1 st)))).
Proof.
  revert st. induction b1 as [|old b1 IH]; intros st.
  - simpl. destruct (fill_buffer b2 st); reflexivity.
  - destruct (Nat.lt_ge_cases (Preload.index st) total_samples) as [H|H].
    + rewrite <- app_comm_cons, !preload_fill_buffer_cons, IH by exact H. reflexivity.
    + rewrite !preload_fill_buffer_exhausted by exact H. reflexivity.
Qed.

Lemma preload_fill_buffers_concat (bufs : list (list slot)) (st : Preload.state) :
  fill_buffers bufs st = snd (fill_buffer (List.concat bufs) st).
Proof.
  revert st. induction bufs as [|b bufs IH]; intros st; simpl.
  - reflexivity.
  - rewrite preload_fill_buffer_app, IH. reflexivity.
Qed.

(** What one fill does: the next samples, as many as there are slots and
    samples left, are modulated into the first slots; the other slots keep
    what they held. *)
Lemma preload_fill_buffer_spec (slots : list slot) (st : Preload.state) :
  let devs := firstn (List.length slots) (skipn (Preload.index st) samples) in
  let outs := modulate_all devs (Preload.phase_accum st) in
  let r := fill_buffer slots st in
  fst r = outs ++ skipn (List.length devs) slots
  /\ Preload.written (snd r) = Preload.written st ++ outs
  /\ Preload.index (snd r) = Preload.index st + List.length devs
  /\ Preload.phase_accum (snd r)
     = last (phases devs (Preload.phase_accum st)) (Preload.phase_accum st)
  /\ Preload.stop (snd r) = Preload.stop st
  /\ Preload.t (snd r) = Preload.t st
  /\ Preload.txbuf (snd r) = Preload.txbuf st
  /\ Preload.pushes (snd r) = Preload.pushes st
  /\ Preload.checks (snd r) = Preload.checks st
  /\ Preload.clock_reads (snd r) = Preload.clock_reads st
  /\ Preload.trace (snd r) = Preload.trace st.
Proof.
  revert st. induction slots as [|old rest IH]; intros st.
  - simpl. rewrite app_nil_r, Nat.add_0_r. repeat split; reflexivity.
  - destruct (Nat.lt_ge_cases (Preload.index st) total_samples) as [H|H].
    + cbv zeta. rewrite preload_fill_buffer_cons by exact H.
      rewrite (skipn_nth_cons H). cbn [fst snd List.length firstn].
      specialize (IH (snd (fill_slot st))). cbv zeta in IH.
      destruct IH as (O & W & I & P & S & T & B & U & C & K & R).
      rewrite O, W, I, P, S, T, B, U, C, K, R.
      unfold Preload.fill_slot.
      rewrite (surjective_pairing (Preload.modulate_sample _ _ _ _)).
      cbn [fst snd Preload.written Preload.index Preload.phase_accum Preload.stop
           Preload.t Preload.txbuf Preload.pushes Preload.checks
           Preload.clock_reads Preload.trace Preload.modulate_all Preload.phases].
      rewrite (surjective_pairing (Preload.modulate_sample _ _ _ _)).
      cbn [fst snd List.length skipn app]. rewrite last_cons_default.
      rewrite <- !app_assoc. cbn [app].
      repeat split; try reflexivity; lia.
    + cbv zeta. rewrite preload_fill_buffer_exhausted by exact H.
      rewrite skipn_all2 by exact H. rewrite firstn_nil. cbn.
      rewrite app_nil_r, Nat.add_0_r. repeat split; reflexivity.
Qed.

Lemma preload_modulate_all_length (devs : list Z) (phase : double) :
  List.length (modulate_all devs phase) = List.length devs.
Proof.
  revert phase. induction devs as [|d devs IH]; intros phase; simpl; auto.
Qed.

Lemma preload_modulate_all_app (l1 l2 : list Z) (phase : double) :
  modulate_all (l1 ++ l2) phase
  = modulate_all l1 phase ++ modulate_all l2 (last (phases l1 phase) phase).
Proof.
  revert phase. induction l1 as [|d l1 IH]; intros phase.
  - reflexivity.
  - cbn [app Preload.modulate_all Preload.phases]. cbv zeta.
    rewrite (surjective_pairing (Preload.modulate_sample _ _ _ _)).
    cbn [fst snd]. rewrite IH. cbn [app]. rewrite last_cons_default. reflexivity.
Qed.

Section PreloadLoop.

Variable sigint : nat -> bool.
Variable clock_gettime : nat -> timespec.

Local Abbreviation read_stop := (Preload.read_stop sigint).
Local Abbreviation send_buffer :=
  (Preload.send_buffer deviation_scale time_per_sample samples).
Local Abbreviation pass_loop :=
  (Preload.pass_loop deviation_scale time_per_sample samples sigint).
Local Abbreviation start_pass := (Preload.start_pass clock_gettime).

Lemma preload_read_stop_eq (st : Preload.state) :
  read_stop st =
  Preload.mk_state (Preload.stop st || sigint (Preload.checks st))
    (Preload.phase_accum st) (Preload.index st) (Preload.t st) (Preload.txbuf st)
    (Preload.written st) (Preload.pushes st) (S (Preload.checks st))
    (Preload.clock_reads st) (Preload.trace st).
Proof.
  unfold Preload.read_stop, Preload.count_check, Preload.handle_sig, Preload.set_stop.
  destruct st as [stp ph ix tm buf wr pu ch ck tr]; cbn.
  destruct (sigint ch); cbn; rewrite ?orb_true_r, ?orb_false_r; reflexivity.
Qed.

(** The state after one iteration of the inner loop's body, field by
    field. *)
Lemma preload_send_buffer_eq (st : Preload.state) :
  send_buffer st =
  let devs := firstn (List.length (Preload.txbuf st))
                (skipn (Preload.index st) samples) in
  let outs := modulate_all devs (Preload.phase_accum st) in
  let buf := outs ++ skipn (List.length devs) (Preload.txbuf st) in
  let t' := Preload.time_add_ns (Preload.t st) Preload.buffer_period_ns in
  Preload.mk_state (Preload.stop st)
    (last (phases devs (Preload.phase_accum st)) (Preload.phase_accum st))
    (Preload.index st + List.length devs) t' buf
    (Preload.written st ++ outs) (S (Preload.pushes st)) (Preload.checks st)
    (Preload.clock_reads st)
    (Preload.trace st ++ [iio_buffer_push buf; clock_nanosleep t']).
Proof.
  cbv zeta.
  unfold Preload.send_buffer, Preload.fill_txbuf, Preload.wait_until,
    Preload.push_txbuf, Preload.set_t, Preload.set_txbuf, Preload.log.
  pose proof (preload_fill_buffer_spec (Preload.txbuf st) st) as H. cbv zeta in H.
  destruct (Preload.fill_buffer _ _ _ _ _) as [buf st1]. cbn [fst snd] in H.
  destruct H as (O & W & I & P & S0 & T & B & U & C & K & R).
  destruct st1 as [stp ph ix tm bf wr pu ch ck tr]. cbn in *. subst.
  rewrite <- app_assoc. reflexivity.
Qed.

(** One iteration of the inner loop's body. *)
Lemma preload_send_buffer_spec (st : Preload.state) :
  let devs := firstn (List.length (Preload.txbuf st))
                (skipn (Preload.index st) samples) in
  let outs := modulate_all devs (Preload.phase_accum st) in
  let st1 := send_buffer st in
  Preload.written st1 = Preload.written st ++ outs
  /\ Preload.index st1 = Preload.index st + List.length devs
  /\ Preload.phase_accum st1
     = last (phases devs (Preload.phase_accum st)) (Preload.phase_accum st)
  /\ Preload.stop st1 = Preload.stop st
  /\ Preload.t st1 = Preload.time_add_ns (Preload.t st) Preload.buffer_period_ns
  /\ Preload.txbuf st1 = outs ++ skipn (List.length devs) (Preload.txbuf st)
  /\ Preload.pushes st1 = S (Preload.pushes st)
  /\ Preload.checks st1 = Preload.checks st
  /\ Preload.clock_reads st1 = Preload.clock_reads st
  /\ Preload.trace st1
     = Preload.trace st
       ++ [iio_buffer_push (Preload.txbuf st1); clock_nanosleep (Preload.t st1)].
Proof.
  cbv zeta. rewrite preload_send_buffer_eq. cbv zeta.
  cbn [Preload.stop Preload.phase_accum Preload.index Preload.t Preload.txbuf
       Preload.written Preload.pushes Preload.checks Preload.clock_reads
       Preload.trace].
  repeat split; reflexivity.
Qed.

Lemma preload_pass_loop_unfold (fuel : nat) (st : Preload.state) :
  pass_loop (S fuel) st =
  let st0 := read_stop st in
  if Preload.stop st0 then Some st0
  else if Preload.index st0 <? total_samples then pass_loop fuel (send_buffer st0)
  else Some st0.
Proof. reflexivity. Qed.

(** What the inner loop has done when it ends: the samples from the cursor
    on were modulated in one pass, whatever the buffer boundaries, and the
    deadline moved by one period for each buffer pushed. *)
Lemma preload_pass_loop_spec (fuel : nat) (st : Preload.state) :
  match pass_loop fuel st with
  | Some st' =>
      let devs := firstn (Preload.index st' - Preload.index st)
                    (skipn (Preload.index st) samples) in
      Preload.pushes st <= Preload.pushes st'
      /\ Preload.index st <= Preload.index st'
      /\ Preload.written st'
         = Preload.written st ++ modulate_all devs (Preload.phase_accum st)
      /\ Preload.clock_reads st' = Preload.clock_reads st
      /\ (Preload.normalized (Preload.t st) ->
          Preload.to_ns (Preload.t st')
          = (Preload.to_ns (Preload.t st)
             + Z.of_nat (Preload.pushes st' - Preload.pushes st) * 100000000)%Z
          /\ Preload.normalized (Preload.t st'))
  | None => True
  end.
Proof.
  revert st. induction fuel as [|fuel IH]; intros st; [exact I|].
  rewrite preload_pass_loop_unfold. cbv zeta.
  pose proof (preload_read_stop_eq st) as E.
  set (st0 := read_stop st) in *.
  assert (E0 : Preload.written st0 = Preload.written st
               /\ Preload.index st0 = Preload.index st
               /\ Preload.phase_accum st0 = Preload.phase_accum st
               /\ Preload.txbuf st0 = Preload.txbuf st
               /\ Preload.pushes st0 = Preload.pushes st
               /\ Preload.t st0 = Preload.t st
               /\ Preload.clock_reads st0 = Preload.clock_reads st)
    by (rewrite E; repeat split; reflexivity).
  destruct E0 as (Ew & Ei & Ep & Eb & Eu & Et & Ek).
  assert (Done : let devs := firstn (Preload.index st0 - Preload.index st)
                               (skipn (Preload.index st) samples) in
                 Preload.pushes st <= Preload.pushes st0
                 /\ Preload.index st <= Preload.index st0
                 /\ Preload.written st0
                    = Preload.written st ++ modulate_all devs (Preload.phase_accum st)
                 /\ Preload.clock_reads st0 = Preload.clock_reads st
                 /\ (Preload.normalized (Preload.t st) ->
                     Preload.to_ns (Preload.t st0)
                     = (Preload.to_ns (Preload.t st)
                        + Z.of_nat (Preload.pushes st0 - Preload.pushes st) * 100000000)%Z
                     /\ Preload.normalized (Preload.t st0))).
  { cbv zeta. rewrite Ei, Eu, Ew, Et, Ek, !Nat.sub_diag.
    cbn [firstn Preload.modulate_all Z.of_nat]. rewrite app_nil_r.
    split; [lia|]. split; [lia|]. split; [reflexivity|]. split; [reflexivity|].
    intros N. split; [lia | exact N]. }
  destruct (Preload.stop st0); [exact Done|].
  destruct (Preload.index st0 <? total_samples); [|exact Done].
  clear Done.
  pose proof (preload_send_buffer_spec st0) as F. cbv zeta in F.
  destruct F as (Fw & Fi & Fp & _ & Ft & _ & Fu & _ & Fk & _).
  set (st1 := send_buffer st0) in *.
  specialize (IH st1). destruct (pass_loop fuel st1) as [st'|]; [|exact I].
  cbv zeta in IH. destruct IH as (Hu & Hi & Hw & Hk & Ht).
  rewrite Eb, Ei, Ep, Ew in *. rewrite Eu in Fu. rewrite Et in Ft. rewrite Ek in Fk.
  set (l0 := skipn (Preload.index st) samples) in *.
  set (cap := List.length (Preload.txbuf st)) in *.
  split; [lia|]. split; [lia|]. split; [|split; [congruence|]].
  - rewrite Hw, Fw, Fi, Fp, <- app_assoc. f_equal.
    replace (Preload.index st' - Preload.index st)
      with (List.length (firstn cap l0) + (Preload.index st' - Preload.index st1)) by lia.
    rewrite firstn_add_skipn, firstn_length_firstn, preload_modulate_all_app.
    unfold l0. rewrite skipn_skipn.
    replace (List.length (firstn cap (skipn (Preload.index st) samples)) + Preload.index st)
      with (Preload.index st + List.length (firstn cap (skipn (Preload.index st) samples)))
      by lia.
    rewrite Fi. reflexivity.
  - intros N.
    destruct (@time_add_ns_spec (Preload.t st) Preload.buffer_period_ns N) as [A B];
      [rewrite buffer_period_ns_value; lia|].
    rewrite <- Ft in A, B. destruct (Ht B) as [C D]. split; [|exact D].
    rewrite C, A, buffer_period_ns_value, Fu. lia.
Qed.

(** Without a signal, and with a buffer of at least one slot, the inner
    loop ends, with the cursor at the end of the samples, whatever fuel
    above the number of samples left it is given. *)
Lemma preload_pass_loop_completes (m : nat) (st : Preload.state) :
  (forall n, sigint n = false) ->
  total_samples - Preload.index st <= m ->
  Preload.index st <= total_samples ->
  0 < List.length (Preload.txbuf st) ->
  Preload.stop st = false ->
  exists st',
    (forall k, pass_loop (S m + k) st = Some st')
    /\ Preload.index st' = total_samples
    /\ Preload.stop st' = false
    /\ List.length (Preload.txbuf st') = List.length (Preload.txbuf st).
Proof.
  intros Hsig. revert st. induction m as [|m IH]; intros st Hm Hle Hcap Hstop;
    pose proof (preload_read_stop_eq st) as E;
    set (st0 := read_stop st) in *;
    assert (E0 : Preload.stop st0 = false
                 /\ Preload.index st0 = Preload.index st
                 /\ Preload.txbuf st0 = Preload.txbuf st)
      by (rewrite E; cbn; rewrite Hstop, Hsig; repeat split; reflexivity);
    destruct E0 as (Es & Ei & Eb).
  - assert (H : (Preload.index st <? total_samples) = false) by (apply Nat.ltb_ge; lia).
    exists st0. rewrite Es, Ei, Eb. repeat split; try reflexivity; [|lia].
    intros k. change (1 + k) with (S k). rewrite preload_pass_loop_unfold. cbv zeta.
    fold st0. rewrite Es, Ei, H. reflexivity.
  - destruct (Preload.index st <? total_samples) eqn:H.
    + apply Nat.ltb_lt in H.
      pose proof (preload_send_buffer_spec st0) as F. cbv zeta in F.
      destruct F as (_ & Fi & _ & Fs & _ & Fb & _).
      set (st1 := send_buffer st0) in *.
      rewrite Eb, Ei in Fi, Fb. rewrite Es in Fs.
      assert (L : List.length (firstn (List.length (Preload.txbuf st))
                                 (skipn (Preload.index st) samples))
                  = Nat.min (List.length (Preload.txbuf st))
                            (total_samples - Preload.index st)).
      { rewrite length_firstn, length_skipn. reflexivity. }
      destruct (IH st1) as (st' & R & Ri & Rs & Rb).
      * rewrite Fi, L. lia.
      * rewrite Fi, L. lia.
      * rewrite Fb, length_app, preload_modulate_all_length, length_skipn, L. lia.
      * exact Fs.
      * exists st'. split; [|split; [exact Ri|split; [exact Rs|]]].
        -- intros k. change (S (S m) + k) with (S (S m + k)).
           rewrite preload_pass_loop_unfold. cbv zeta. fold st0.
           apply Nat.ltb_lt in H. rewrite Es, Ei, H. fold st1. apply R.
        -- rewrite Rb, Fb, length_app, preload_modulate_all_length, length_skipn, L. lia.
    + exists st0. apply Nat.ltb_ge in H. rewrite Es, Ei, Eb.
      repeat split; try reflexivity; [|lia].
      intros k. change (S (S m) + k) with (S (S m + k)).
      rewrite preload_pass_loop_unfold. cbv zeta. fold st0.
      apply Nat.ltb_ge in H. rewrite Es, Ei, H. reflexivity.
Qed.

End PreloadLoop.

End PreloadFiller.

(** ** Buffer boundaries and the end of the stream *)

Section Boundaries.

Local Open Scope R_scope.

(** A zero deviation from phase 0 leaves the carrier at phase 0: full scale
    on I, nothing on Q. *)
Lemma modulate_sample_zero (scale tps : double) :
  Stream.modulate_sample 0 0 scale tps = ((32767%Z, 0%Z), 0).
Proof.
  rewrite modulate_sample_value. cbv zeta.
  replace (0 + 2 * PI * (0 * scale) * tps) with 0 by ring.
  rewrite (@fmod_small 0 (2 * PI)) by (pose proof two_pi_pos; lra).
  rewrite cos_0, sin_0.
  replace (1 * 32767) with (IZR 32767) by lra.
  replace (0 * 32767) with (IZR 0) by lra.
  rewrite !Rtrunc_IZR. reflexivity.
Qed.

(** C2.  For every list of buffers, of any sizes, running the filler over
    them one after the other with the state it left is running it once over
    one buffer that holds all their slots: the state is the same, and the
    pairs stored are the one-pass modulation of the samples consumed, from
    the phase the run started with.  This holds for the streaming filler
    (first part) and for the looping filler (second part); the third and
    fourth parts say the same of what the two transmission loops have
    stored when they end. *)
Theorem chunking_preserves_output
    (deviation_scale time_per_sample : double) (samples : list Z)
    (bufs : list (list slot)) :
  (forall st : Stream.state,
      let total := List.length (List.concat bufs) in
      let chunked := Stream.fill_buffers deviation_scale time_per_sample bufs st in
      chunked
      = snd (Stream.fill_buffer deviation_scale time_per_sample (List.concat bufs) st)
      /\ Stream.written chunked
         = Stream.written st
           ++ Stream.modulate_all deviation_scale time_per_sample
                (Stream.next_samples total (Stream.stdin st)) (Stream.signal_phase st))
  /\ (forall st : Preload.state,
      let total := List.length (List.concat bufs) in
      let chunked :=
        Preload.fill_buffers deviation_scale time_per_sample samples bufs st in
      chunked
      = snd (Preload.fill_buffer deviation_scale time_per_sample samples
               (List.concat bufs) st)
      /\ Preload.written chunked
         = Preload.written st
           ++ Preload.modulate_all deviation_scale time_per_sample
                (firstn total (skipn (Preload.index st) samples))
                (Preload.phase_accum st))
  /\ (forall (push_result : nat -> Z) (sigint : nat -> bool) (fuel : nat)
             (st : Stream.state),
      match Stream.tx_loop deviation_scale time_per_sample push_result sigint
              fuel st with
      | Some st' =>
          let consumed :=
            ((Stream.pushes st' - Stream.pushes st)
             * List.length (Stream.txbuf st))%nat in
          Stream.written st'
          = Stream.written st
            ++ Stream.modulate_all deviation_scale time_per_sample
                 (Stream.next_samples consumed (Stream.stdin st))
                 (Stream.signal_phase st)
      | None => True
      end)
  /\ (forall (sigint : nat -> bool) (fuel : nat) (st : Preload.state),
      match Preload.pass_loop deviation_scale time_per_sample samples sigint
              fuel st with
      | Some st' =>
          let consumed := (Preload.index st' - Preload.index st)%nat in
          Preload.written st'
          = Preload.written st
            ++ Preload.modulate_all deviation_scale time_per_sample
                 (firstn consumed (skipn (Preload.index st) samples))
                 (Preload.phase_accum st)
      | None => True
      end).
Proof.
  split; [|split; [|split]].
  - intros st. cbv zeta. rewrite stream_fill_buffers_concat. split; [reflexivity|].
    pose proof (stream_fill_buffer_spec deviation_scale time_per_sample
                  (List.concat bufs) st) as H.
    cbv zeta in H. destruct H as (O & W & _). rewrite W, O. reflexivity.
  - intros st. cbv zeta. rewrite preload_fill_buffers_concat. split; [reflexivity|].
    pose proof (preload_fill_buffer_spec deviation_scale time_per_sample samples
                  (List.concat bufs) st) as H.
    cbv zeta in H. destruct H as (_ & W & _). exact W.
  - intros push_result sigint fuel st.
    pose proof (stream_tx_loop_written deviation_scale time_per_sample
                  push_result sigint fuel st) as H.
    destruct (Stream.tx_loop _ _ _ _ _ _); [|exact I]. apply H.
  - intros sigint fuel st.
    pose proof (preload_pass_loop_spec deviation_scale time_per_sample samples
                  sigint fuel st) as H.
    destruct (Preload.pass_loop _ _ _ _ _ _); [|exact I]. apply H.
Qed.

(** C5, as the code has it.  When one of the reads for a buffer is short,
    the streaming filler sets the stop flag and goes on to the end of the
    buffer: every slot is written (the count is the buffer's size), the
    source is called once for every slot, and the pairs are the modulation
    of what the reads delivered, 0 for each short read.  The loop pushes
    that buffer and ends without filling another. *)
Theorem stream_exhaustion_pads
    (deviation_scale time_per_sample : double) (push_result : nat -> Z)
    (sigint : nat -> bool) (st : Stream.state) (fuel : nat) :
  Stream.stop st = false ->
  sigint (Stream.checks st) = false ->
  Stream.short_within (List.length (Stream.txbuf st)) (Stream.stdin st) = true ->
  let n := List.length (Stream.txbuf st) in
  let r := Stream.fill_buffer deviation_scale time_per_sample (Stream.txbuf st) st in
  (fst r = Stream.modulate_all deviation_scale time_per_sample
             (Stream.next_samples n (Stream.stdin st)) (Stream.signal_phase st)
   /\ List.length (fst r) = n
   /\ Stream.reads (snd r) = (Stream.reads st + n)%nat
   /\ Stream.stop (snd r) = true)
  /\ exists st',
      Stream.tx_loop deviation_scale time_per_sample push_result sigint
        (S (S fuel)) st = Some st'
      /\ Stream.pushes st' = S (Stream.pushes st)
      /\ Stream.txbuf st' = fst r
      /\ Stream.reads st' = (Stream.reads st + n)%nat
      /\ Stream.stop st' = true.
Proof.
  intros Hstop Hsig Hshort. cbv zeta.
  pose proof (stream_fill_buffer_spec deviation_scale time_per_sample
                (Stream.txbuf st) st) as H.
  cbv zeta in H. destruct H as (O & _ & R & _ & St & _).
  split.
  - rewrite O, R, St, Hshort, orb_true_r.
    rewrite stream_modulate_all_length, stream_next_samples_length.
    repeat split; reflexivity.
  - rewrite stream_tx_loop_unfold. cbv zeta.
    pose proof (stream_read_stop_eq sigint st) as E.
    set (st0 := Stream.read_stop sigint st) in *.
    assert (E0 : Stream.stop st0 = false
                 /\ Stream.stdin st0 = Stream.stdin st
                 /\ Stream.signal_phase st0 = Stream.signal_phase st
                 /\ Stream.txbuf st0 = Stream.txbuf st
                 /\ Stream.reads st0 = Stream.reads st
                 /\ Stream.pushes st0 = Stream.pushes st)
      by (rewrite E; cbn; rewrite Hstop, Hsig; repeat split; reflexivity).
    destruct E0 as (Es & Ei & Ep & Eb & Er & Eu). rewrite Es.
    pose proof (stream_fill_txbuf_spec deviation_scale time_per_sample st0) as F.
    cbv zeta in F. destruct F as (Fb & _ & Fr & _ & Fs & Fu & _).
    set (st1 := Stream.fill_txbuf deviation_scale time_per_sample st0) in *.
    set (st2 := snd (Stream.push_txbuf push_result st1)).
    rewrite Eb, Ei, Ep, Er, Es, Eu, Hshort in *. cbn [orb] in Fs.
    assert (G : Stream.stop st2 = true /\ Stream.txbuf st2 = fst
                  (Stream.fill_buffer deviation_scale time_per_sample
                     (Stream.txbuf st) st)
                /\ Stream.reads st2 = (Stream.reads st + List.length (Stream.txbuf st))%nat
                /\ Stream.pushes st2 = S (Stream.pushes st)).
    { unfold st2. cbn. rewrite Fs, Fb, Fr, Fu, O. repeat split; reflexivity. }
    destruct G as (Gs & Gb & Gr & Gu).
    destruct (push_result (Stream.pushes st) <? 0)%Z.
    + eexists. split; [reflexivity|].
      unfold Stream.log.
      cbn [Stream.pushes Stream.txbuf Stream.reads Stream.stop].
      rewrite Gs, Gb, Gr, Gu. repeat split; reflexivity.
    + rewrite stream_tx_loop_unfold. cbv zeta.
      pose proof (stream_read_stop_eq sigint st2) as E2.
      set (st3 := Stream.read_stop sigint st2) in *.
      assert (E3 : Stream.stop st3 = true
                   /\ Stream.txbuf st3 = Stream.txbuf st2
                   /\ Stream.reads st3 = Stream.reads st2
                   /\ Stream.pushes st3 = Stream.pushes st2)
        by (rewrite E2; cbn [Stream.stop Stream.txbuf Stream.reads Stream.pushes];
            rewrite Gs; repeat split; reflexivity).
      destruct E3 as (Hs & Hb & Hr & Hu). rewrite Hs.
      exists st3. rewrite Hs, Hb, Hr, Hu, Gb, Gr, Gu. repeat split; reflexivity.
Qed.

(** The theorem at work: one sample on [stdin], a buffer of three slots. *)
Lemma stream_exhaustion_pads_witness :
  let st := Stream.initial_state [Stream.read_2 0] [(0, 0); (0, 0); (0, 0)]%Z [] in
  let r := Stream.fill_buffer (10000 / 32767) (1 / 1000000) (Stream.txbuf st) st in
  (fst r = Stream.modulate_all (10000 / 32767) (1 / 1000000)
             (Stream.next_samples 3 (Stream.stdin st)) (Stream.signal_phase st)
   /\ List.length (fst r) = 3%nat
   /\ Stream.reads (snd r) = (Stream.reads st + 3)%nat
   /\ Stream.stop (snd r) = true)
  /\ exists st',
      Stream.tx_loop (10000 / 32767) (1 / 1000000) (fun _ => 12%Z) (fun _ => false)
        2 st = Some st'
      /\ Stream.pushes st' = S (Stream.pushes st)
      /\ Stream.txbuf st' = fst r
      /\ Stream.reads st' = (Stream.reads st + 3)%nat
      /\ Stream.stop st' = true.
Proof.
  exact (@stream_exhaustion_pads (10000 / 32767) (1 / 1000000) (fun _ => 12%Z)
           (fun _ => false)
           (Stream.initial_state [Stream.read_2 0] [(0, 0); (0, 0); (0, 0)]%Z [])
           0 eq_refl eq_refl eq_refl).
Defined.

(** C5 as stated fails: with one sample on [stdin] and a buffer of three
    slots that held (0, 0), the filler does not stop after the first slot
    with a count of 1: it writes all three slots (the carrier at phase 0 in
    the last two) and calls [read] three times, twice at the end of the
    file. *)
Lemma stream_filler_pads_after_exhaustion :
  let st := Stream.initial_state [Stream.read_2 0] [(0, 0); (0, 0); (0, 0)]%Z [] in
  let r := Stream.fill_buffer (10000 / 32767) (1 / 1000000) (Stream.txbuf st) st in
  fst r = [(32767, 0); (32767, 0); (32767, 0)]%Z
  /\ fst r <> [(32767, 0); (0, 0); (0, 0)]%Z
  /\ Stream.reads (snd r) = 3%nat
  /\ Stream.stop (snd r) = true.
Proof.
  cbv zeta.
  pose proof (stream_fill_buffer_spec (10000 / 32767) (1 / 1000000)
                [(0, 0); (0, 0); (0, 0)]%Z
                (Stream.initial_state [Stream.read_2 0] [(0, 0); (0, 0); (0, 0)]%Z []))
    as H.
  cbv zeta in H. destruct H as (O & _ & R & _ & St & _).
  cbn [Stream.initial_state Stream.txbuf].
  rewrite O, R, St.
  cbn [Stream.initial_state Stream.stdin Stream.signal_phase Stream.reads Stream.stop
       List.length Stream.next_samples Stream.sample_of Stream.short_within
       Stream.modulate_all Nat.add orb].
  rewrite !modulate_sample_zero.
  split; [reflexivity|]. split; [discriminate|]. split; reflexivity.
Qed.

End Boundaries.

(** ** Buffers per pass *)

Lemma buffers_for_none (cap : nat) : 0 < cap -> buffers_for 0 cap = 0.
Proof.
  intros H. unfold buffers_for. apply Nat.div_small. lia.
Qed.

Lemma buffers_for_step (r cap : nat) :
  0 < cap -> 0 < r ->
  buffers_for r cap = S (buffers_for (r - Nat.min cap r) cap).
Proof.
  intros Hc Hr. unfold buffers_for.
  replace (r + cap - 1) with ((r - 1) + 1 * cap) by lia.
  rewrite Nat.div_add by lia.
  destruct (Nat.le_gt_cases cap r) as [H|H].
  - rewrite Nat.min_l by exact H.
    replace (r - cap + cap - 1) with (r - 1) by lia. lia.
  - rewrite Nat.min_r by lia.
    replace (r - r + cap - 1) with (cap - 1) by lia.
    rewrite (Nat.div_small (r - 1)) by lia.
    rewrite (Nat.div_small (cap - 1)) by lia. reflexivity.
Qed.

Section PassCount.

Variables deviation_scale time_per_sample : double.
Variable samples : list Z.
Variable sigint : nat -> bool.

Local Abbreviation send_buffer :=
  (Preload.send_buffer deviation_scale time_per_sample samples).
Local Abbreviation pass_loop :=
  (Preload.pass_loop deviation_scale time_per_sample samples sigint).

(** An inner loop that ends with the stop flag down has pushed the samples
    left in full buffers and one partial buffer, and has read the flag once
    more than it has pushed. *)
Lemma preload_pass_loop_pushes (fuel : nat) (st : Preload.state) :
  0 < List.length (Preload.txbuf st) ->
  Preload.index st <= List.length samples ->
  match pass_loop fuel st with
  | Some st' =>
      Preload.stop st' = false ->
      let n := buffers_for (List.length samples - Preload.index st)
                 (List.length (Preload.txbuf st)) in
      Preload.pushes st' = Preload.pushes st + n
      /\ Preload.checks st' = Preload.checks st + S n
  | None => True
  end.
Proof.
  revert st. induction fuel as [|fuel IH]; intros st Hcap Hle; [exact I|].
  rewrite preload_pass_loop_unfold. cbv zeta.
  pose proof (preload_read_stop_eq sigint st) as E.
  set (st0 := Preload.read_stop sigint st) in *.
  assert (E0 : Preload.index st0 = Preload.index st
               /\ Preload.txbuf st0 = Preload.txbuf st
               /\ Preload.pushes st0 = Preload.pushes st
               /\ Preload.checks st0 = S (Preload.checks st))
    by (rewrite E; repeat split; reflexivity).
  destruct E0 as (Ei & Eb & Eu & Ec).
  destruct (Preload.stop st0) eqn:Es; [intros H; congruence|].
  unfold Preload.total_samples.
  destruct (Preload.index st0 <? List.length samples) eqn:Lt.
  - apply Nat.ltb_lt in Lt. rewrite Ei in Lt.
    pose proof (preload_send_buffer_spec deviation_scale time_per_sample samples st0)
      as F.
    cbv zeta in F. destruct F as (_ & Fi & _ & _ & _ & Fb & Fu & Fc & _).
    set (st1 := send_buffer st0) in *.
    rewrite Eb, Ei in Fi, Fb. rewrite Eu in Fu. rewrite Ec in Fc.
    assert (L : List.length (firstn (List.length (Preload.txbuf st))
                               (skipn (Preload.index st) samples))
                = Nat.min (List.length (Preload.txbuf st))
                          (List.length samples - Preload.index st)).
    { rewrite length_firstn, length_skipn. reflexivity. }
    assert (Cap : List.length (Preload.txbuf st1) = List.length (Preload.txbuf st)).
    { rewrite Fb, length_app, preload_modulate_all_length, length_skipn, L. lia. }
    specialize (IH st1). rewrite Cap in IH.
    destruct (pass_loop fuel st1) as [st'|]; [|exact I].
    intros Hs. cbv zeta in IH.
    destruct IH as [P C]; [exact Hcap | rewrite Fi, L; lia | exact Hs |].
    rewrite (@buffers_for_step (List.length samples - Preload.index st)
               (List.length (Preload.txbuf st))) by lia.
    replace (List.length samples - Preload.index st1)
      with (List.length samples - Preload.index st
            - Nat.min (List.length (Preload.txbuf st))
                      (List.length samples - Preload.index st))
      in P, C by (rewrite Fi, L; lia).
    rewrite P, C, Fu, Fc. lia.
  - apply Nat.ltb_ge in Lt. rewrite Ei in Lt. intros _.
    replace (List.length samples - Preload.index st) with 0 by lia.
    rewrite buffers_for_none by exact Hcap. rewrite Eu, Ec. lia.
Qed.

End PassCount.

(** ** Passes over the sample file *)

Section Passes.

Variables deviation_scale time_per_sample : double.
Variable samples : list Z.
Variable clock_gettime : nat -> timespec.

Local Abbreviation never := (fun _ : nat => false).
Local Abbreviation pass_loop :=
  (Preload.pass_loop deviation_scale time_per_sample samples).
Local Abbreviation tx_loop :=
  (Preload.tx_loop deviation_scale time_per_sample samples).
Local Abbreviation start_pass := (Preload.start_pass clock_gettime).
Local Abbreviation modulate_all := (Preload.modulate_all deviation_scale time_per_sample).

Lemma preload_tx_loop_unfold (sigint : nat -> bool) (fuel : nat) (st : Preload.state) :
  tx_loop sigint clock_gettime (S fuel) st =
  let st0 := Preload.read_stop sigint st in
  if Preload.stop st0 then Some st0
  else
    match pass_loop sigint fuel (start_pass st0) with
    | None => None
    | Some st1 => tx_loop sigint clock_gettime fuel st1
    end.
Proof. reflexivity. Qed.

(** One iteration of the outer loop when no signal comes in: whatever phase
    and cursor the state had, the pass stores the modulation of the whole
    file from phase 0. *)
Lemma preload_one_pass (st : Preload.state) :
  (0 < List.length (Preload.txbuf st))%nat ->
  Preload.stop st = false ->
  let st0 := start_pass (Preload.read_stop never st) in
  exists st1,
    (forall k, pass_loop never (S (List.length samples) + k) st0 = Some st1)
    /\ (forall k, tx_loop never clock_gettime (S (S (List.length samples) + k)) st
                  = tx_loop never clock_gettime (S (List.length samples) + k) st1)
    /\ Preload.index st1 = List.length samples
    /\ Preload.written st1 = Preload.written st ++ modulate_all samples 0%R
    /\ Preload.stop st1 = false
    /\ List.length (Preload.txbuf st1) = List.length (Preload.txbuf st).
Proof.
  intros Hcap Hstop. cbv zeta.
  pose proof (preload_read_stop_eq never st) as E.
  set (sr := Preload.read_stop never st) in *.
  set (st0 := start_pass sr).
  assert (E0 : Preload.stop st0 = false /\ Preload.index st0 = 0%nat
               /\ Preload.phase_accum st0 = 0%R
               /\ Preload.txbuf st0 = Preload.txbuf st
               /\ Preload.written st0 = Preload.written st
               /\ Preload.stop sr = false).
  { unfold st0, Preload.start_pass. rewrite E.
    cbn [Preload.stop Preload.index Preload.phase_accum Preload.txbuf Preload.written].
    rewrite Hstop. repeat split; reflexivity. }
  destruct E0 as (Es & Ei & Ep & Eb & Ew & Er).
  destruct (@preload_pass_loop_completes deviation_scale time_per_sample samples
              never (List.length samples) st0) as (st1 & R & Ri & Rs & Rb).
  - reflexivity.
  - unfold Preload.total_samples. lia.
  - rewrite Ei. lia.
  - rewrite Eb. exact Hcap.
  - exact Es.
  - exists st1. split; [exact R|]. split; [|split; [exact Ri|split; [|split]]].
    + intros k. rewrite preload_tx_loop_unfold. cbv zeta. fold sr. rewrite Er.
      fold st0. rewrite R. reflexivity.
    + pose proof (preload_pass_loop_spec deviation_scale time_per_sample samples
                    never (S (List.length samples) + 0) st0) as H.
      rewrite R in H. cbv zeta in H. destruct H as (_ & _ & W & _).
      rewrite W, Ew, Ei, Ep, Ri. unfold Preload.total_samples.
      rewrite Nat.sub_0_r. cbn [skipn]. rewrite firstn_all. reflexivity.
    + exact Rs.
    + rewrite Rb, Eb. reflexivity.
Qed.

(** A loop that ended has read the flag at least once. *)
Lemma preload_pass_loop_checks (sigint : nat -> bool) (fuel : nat)
    (st st' : Preload.state) :
  pass_loop sigint fuel st = Some st' ->
  (Preload.checks st < Preload.checks st')%nat.
Proof.
  revert st. induction fuel as [|fuel IH]; intros st H; [discriminate|].
  rewrite preload_pass_loop_unfold in H. cbv zeta in H.
  pose proof (preload_read_stop_eq sigint st) as E.
  set (st0 := Preload.read_stop sigint st) in *.
  assert (C0 : Preload.checks st0 = S (Preload.checks st)) by (rewrite E; reflexivity).
  destruct (Preload.stop st0); [injection H as <-; lia|].
  destruct (_ <? _)%nat.
  - apply IH in H.
    pose proof (preload_send_buffer_spec deviation_scale time_per_sample samples st0) as F.
    cbv zeta in F. destruct F as (_ & _ & _ & _ & _ & _ & _ & Fc & _). lia.
  - injection H as <-. lia.
Qed.

(** The inner loop looks at the signals only where it reads the flag: a
    schedule that agrees with the one it ran under on those reads gives the
    same result. *)
Lemma preload_pass_loop_ext (sigint sigint' : nat -> bool) (fuel : nat)
    (st st' : Preload.state) :
  pass_loop sigint fuel st = Some st' ->
  (forall i, (Preload.checks st <= i < Preload.checks st')%nat -> sigint' i = sigint i) ->
  pass_loop sigint' fuel st = Some st'.
Proof.
  revert st. induction fuel as [|fuel IH]; intros st H A; [discriminate|].
  pose proof (preload_pass_loop_checks _ _ _ H) as C.
  assert (R : Preload.read_stop sigint' st = Preload.read_stop sigint st).
  { rewrite !preload_read_stop_eq, (A (Preload.checks st)) by lia. reflexivity. }
  rewrite preload_pass_loop_unfold in H. rewrite preload_pass_loop_unfold.
  cbv zeta in *. rewrite R.
  pose proof (preload_read_stop_eq sigint st) as E.
  set (st0 := Preload.read_stop sigint st) in *.
  assert (C0 : Preload.checks st0 = S (Preload.checks st)) by (rewrite E; reflexivity).
  destruct (Preload.stop st0); [exact H|].
  destruct (_ <? _)%nat; [|exact H].
  apply IH; [exact H|].
  intros i Hi. apply A.
  pose proof (preload_send_buffer_spec deviation_scale time_per_sample samples st0) as F.
  cbv zeta in F. destruct F as (_ & _ & _ & _ & _ & _ & _ & Fc & _). lia.
Qed.

(** One iteration of the outer loop under a schedule with no signal at the
    [n + 2] reads of the flag it makes ([n] the buffers of a pass): the loop
    goes on from a state that has stored one more pass. *)
Lemma preload_tx_loop_pass (sigint : nat -> bool) (st : Preload.state) :
  (0 < List.length (Preload.txbuf st))%nat ->
  Preload.stop st = false ->
  (forall i,
      (i < buffers_for (List.length samples) (List.length (Preload.txbuf st)) + 2)%nat ->
      sigint (Preload.checks st + i)%nat = false) ->
  exists st1,
    (forall fuel, (S (List.length samples) <= fuel)%nat ->
       tx_loop sigint clock_gettime (S fuel) st = tx_loop sigint clock_gettime fuel st1)
    /\ Preload.written st1 = Preload.written st ++ modulate_all samples 0%R
    /\ Preload.stop st1 = false
    /\ List.length (Preload.txbuf st1) = List.length (Preload.txbuf st)
    /\ Preload.checks st1
       = (Preload.checks st
          + (buffers_for (List.length samples) (List.length (Preload.txbuf st)) + 2))%nat
    /\ Preload.pushes st1
       = (Preload.pushes st
          + buffers_for (List.length samples) (List.length (Preload.txbuf st)))%nat
    /\ Preload.clock_reads st1 = S (Preload.clock_reads st).
Proof.
  intros Hcap Hstop Hsig.
  destruct (preload_one_pass st Hcap Hstop) as (st1 & R1 & _ & I1 & W1 & S1 & B1).
  cbv zeta in R1.
  assert (A0 : sigint (Preload.checks st) = false).
  { rewrite <- (Nat.add_0_r (Preload.checks st)). apply Hsig. lia. }
  assert (R : Preload.read_stop sigint st = Preload.read_stop never st).
  { rewrite !preload_read_stop_eq, A0. reflexivity. }
  assert (Es : Preload.stop (Preload.read_stop never st) = false) by exact Hstop.
  pose proof (@preload_pass_loop_pushes deviation_scale time_per_sample samples never
                (S (List.length samples) + 0)
                (start_pass (Preload.read_stop never st)) Hcap) as P.
  pose proof (preload_pass_loop_spec deviation_scale time_per_sample samples never
                (S (List.length samples) + 0)
                (start_pass (Preload.read_stop never st))) as Q.
  rewrite (R1 0%nat) in P, Q. cbv zeta in P, Q.
  destruct P as [P C]; [cbn; lia | exact S1 |].
  destruct Q as (_ & _ & _ & K & _).
  change (Preload.index (start_pass (Preload.read_stop never st))) with 0%nat in P, C.
  change (Preload.txbuf (start_pass (Preload.read_stop never st)))
    with (Preload.txbuf st) in P, C.
  change (Preload.pushes (start_pass (Preload.read_stop never st)))
    with (Preload.pushes st) in P.
  change (Preload.checks (start_pass (Preload.read_stop never st)))
    with (S (Preload.checks st)) in C.
  change (Preload.clock_reads (start_pass (Preload.read_stop never st)))
    with (S (Preload.clock_reads st)) in K.
  rewrite Nat.sub_0_r in P, C.
  assert (X : forall j, pass_loop sigint (S (List.length samples) + j)
                          (start_pass (Preload.read_stop never st)) = Some st1).
  { intros j. apply preload_pass_loop_ext with (sigint := never); [apply R1|].
    intros i Hi.
    change (Preload.checks (start_pass (Preload.read_stop never st)))
      with (S (Preload.checks st)) in Hi.
    assert (Ei : i = (Preload.checks st + (i - Preload.checks st))%nat) by lia.
    rewrite Ei. apply Hsig. lia. }
  exists st1. split; [|split; [exact W1|split; [exact S1|split; [exact B1|]]]].
  - intros fuel Hf. rewrite preload_tx_loop_unfold. cbv zeta. rewrite R, Es.
    replace fuel with (S (List.length samples) + (fuel - S (List.length samples)))%nat
      at 1 by lia.
    rewrite X. reflexivity.
  - split; [lia|]. split; [exact P | exact K].
Qed.

(** The transmission loop under a schedule whose first signal is seen at the
    read of the flag that follows [k] passes: it returns, having stored [k]
    copies of the pass. *)
Lemma preload_tx_loop_passes (sigint : nat -> bool) (k : nat) (st : Preload.state) :
  (0 < List.length (Preload.txbuf st))%nat ->
  Preload.stop st = false ->
  (forall i,
      (i < k * (buffers_for (List.length samples) (List.length (Preload.txbuf st)) + 2))%nat ->
      sigint (Preload.checks st + i)%nat = false) ->
  sigint (Preload.checks st
          + k * (buffers_for (List.length samples) (List.length (Preload.txbuf st)) + 2))%nat
  = true ->
  exists st',
    (forall fuel, (List.length samples + 2 + k <= fuel)%nat ->
       tx_loop sigint clock_gettime fuel st = Some st')
    /\ Preload.written st'
       = Preload.written st ++ List.concat (repeat (modulate_all samples 0%R) k)
    /\ Preload.pushes st'
       = (Preload.pushes st
          + k * buffers_for (List.length samples) (List.length (Preload.txbuf st)))%nat
    /\ Preload.clock_reads st' = (Preload.clock_reads st + k)%nat
    /\ Preload.stop st' = true.
Proof.
  revert st. induction k as [|k IH]; intros st Hcap Hstop Hsig Hint.
  - rewrite Nat.mul_0_l, Nat.add_0_r in Hint.
    pose proof (preload_read_stop_eq sigint st) as E. rewrite Hint, orb_true_r in E.
    exists (Preload.read_stop sigint st). split.
    + intros fuel Hf. destruct fuel as [|fuel]; [lia|].
      rewrite preload_tx_loop_unfold. cbv zeta. rewrite E. reflexivity.
    + rewrite E.
      cbn [Preload.written Preload.pushes Preload.clock_reads Preload.stop
           repeat List.concat].
      rewrite app_nil_r. repeat split; lia.
  - set (n := buffers_for (List.length samples) (List.length (Preload.txbuf st))) in *.
    destruct (preload_tx_loop_pass sigint st Hcap Hstop)
      as (st1 & T & W & S1 & B & C & P & K).
    { intros i Hi. apply Hsig. fold n in Hi. lia. }
    fold n in C, P.
    destruct (IH st1) as (st' & R' & W' & P' & K' & S').
    + rewrite B. exact Hcap.
    + exact S1.
    + rewrite B. fold n. intros i Hi. rewrite C.
      replace (Preload.checks st + (n + 2) + i)%nat
        with (Preload.checks st + ((n + 2) + i))%nat by lia.
      apply Hsig. lia.
    + rewrite B. fold n. rewrite C.
      replace (Preload.checks st + (n + 2) + k * (n + 2))%nat
        with (Preload.checks st + S k * (n + 2))%nat by lia.
      exact Hint.
    + rewrite B in P'. fold n in P'.
      exists st'. split; [|split; [|split; [|split; [|exact S']]]].
      * intros fuel Hf. destruct fuel as [|fuel]; [lia|].
        rewrite T by lia. apply R'. lia.
      * rewrite W', W. cbn [repeat List.concat]. rewrite <- app_assoc. reflexivity.
      * rewrite P', P. lia.
      * rewrite K', K. lia.
Qed.

(** In [k] copies of a list, the element at [m] of copy [j] is the element
    at [m]. *)
Lemma nth_error_concat_repeat (A : Type) (l : list A) (k j m : nat) :
  (j < k)%nat -> (m < List.length l)%nat ->
  nth_error (List.concat (repeat l k)) (j * List.length l + m) = nth_error l m.
Proof.
  revert j. induction k as [|k IH]; intros j Hj Hm; [lia|].
  cbn [repeat List.concat]. destruct j as [|j].
  - cbn [Nat.mul Nat.add]. apply nth_error_app1. exact Hm.
  - rewrite nth_error_app2 by (cbn [Nat.mul]; lia).
    replace (S j * List.length l + m - List.length l)%nat
      with (j * List.length l + m)%nat by (cbn [Nat.mul]; lia).
    apply IH; [lia | exact Hm].
Qed.

(** C6.  The transmission loop of the looping transmitter, on a file of [L]
    samples and a buffer of at least one slot that takes [n] buffers per
    pass: every pass starts with the phase accumulator and the cursor at 0;
    and when the first signal is seen at the read of the flag that follows
    [k] passes (each pass reads the flag [n + 2] times), the loop returns,
    whatever fuel of [L + 2 + k] or more it is given, having read the clock
    [k] times, pushed [k * n] buffers and stored [k] copies of the
    modulation of the file from phase 0.  So the pair for sample [m] of any
    pass is the pair for sample [m] of the first: the pair for sample
    [L + 1] is the pair for sample 1. *)
Theorem looping_restart (sigint : nat -> bool) (k : nat) (st : Preload.state) :
  (0 < List.length (Preload.txbuf st))%nat ->
  Preload.stop st = false ->
  let L := List.length samples in
  let n := buffers_for L (List.length (Preload.txbuf st)) in
  let pass := modulate_all samples 0%R in
  (forall i, (i < k * (n + 2))%nat -> sigint (Preload.checks st + i)%nat = false) ->
  sigint (Preload.checks st + k * (n + 2))%nat = true ->
  (forall s, Preload.phase_accum (start_pass s) = 0%R
             /\ Preload.index (start_pass s) = 0%nat)
  /\ exists st',
      (forall fuel, (L + 2 + k <= fuel)%nat ->
         tx_loop sigint clock_gettime fuel st = Some st')
      /\ Preload.stop st' = true
      /\ Preload.clock_reads st' = (Preload.clock_reads st + k)%nat
      /\ Preload.pushes st' = (Preload.pushes st + k * n)%nat
      /\ Preload.written st' = Preload.written st ++ List.concat (repeat pass k)
      /\ (forall j m, (j < k)%nat -> (m < L)%nat ->
            nth_error (List.concat (repeat pass k)) (j * L + m) = nth_error pass m).
Proof.
  intros Hcap Hstop. cbv zeta. intros Hsig Hint.
  split; [intros s; split; reflexivity|].
  destruct (preload_tx_loop_passes sigint k st Hcap Hstop Hsig Hint)
    as (st' & R & W & P & K & S').
  exists st'. split; [exact R|]. split; [exact S'|]. split; [exact K|].
  split; [exact P|]. split; [exact W|].
  intros j m Hj Hm.
  pose proof (preload_modulate_all_length deviation_scale time_per_sample samples 0%R)
    as Len.
  rewrite <- Len. apply nth_error_concat_repeat; [exact Hj | rewrite Len; exact Hm].
Qed.

End Passes.

(** ** Deadlines *)

Section Deadlines.

Variables deviation_scale time_per_sample : double.
Variable samples : list Z.

Local Abbreviation send_buffer :=
  (Preload.send_buffer deviation_scale time_per_sample samples).
Local Abbreviation pass_loop :=
  (Preload.pass_loop deviation_scale time_per_sample samples).

Lemma time_add_ns_value (t t' : timespec) (ns : Z) :
  Preload.normalized t -> (0 <= ns)%Z -> Preload.normalized t' ->
  Preload.to_ns t' = (Preload.to_ns t + ns)%Z ->
  Preload.time_add_ns t ns = t'.
Proof.
  intros Nt Hns Nt' E. destruct (time_add_ns_spec Nt Hns) as [A B].
  apply normalized_to_ns_inj; [exact B | exact Nt' | congruence].
Qed.

(** The deadline after [N] iterations of the inner loop's body (each after
    an evaluation of the loop condition). *)
Lemma preload_deadline_iter (sigint : nat -> bool) (N : nat) (st : Preload.state) :
  Preload.normalized (Preload.t st) ->
  let stN := Nat.iter N (fun s => send_buffer (Preload.read_stop sigint s)) st in
  Preload.to_ns (Preload.t stN)
  = (Preload.to_ns (Preload.t st) + Z.of_nat N * 100000000)%Z
  /\ Preload.normalized (Preload.t stN)
  /\ Preload.pushes stN = (Preload.pushes st + N)%nat.
Proof.
  intros Nt. cbv zeta. induction N as [|N IH].
  - unfold Nat.iter. cbn [nat_rect Z.of_nat]. split; [lia|]. split; [exact Nt | lia].
  - rewrite Nat.iter_succ. destruct IH as (A & B & C).
    set (s := Nat.iter N _ st) in *.
    rewrite preload_send_buffer_eq. cbv zeta.
    rewrite preload_read_stop_eq.
    cbn [Preload.t Preload.pushes].
    destruct (@time_add_ns_spec (Preload.t s) Preload.buffer_period_ns B) as [D E];
      [rewrite buffer_period_ns_value; lia|].
    split; [|split; [exact E | lia]].
    rewrite D, A, buffer_period_ns_value. lia.
Qed.

(** C4, as the code has it.  Within one pass over the file, the deadline
    after [N] buffers is the reading of the monotonic clock taken at the
    start of that pass plus [N] times 100 000 000 ns, exactly, with the
    nanoseconds carried into the seconds ([0 <= tv_nsec < 10^9]); whatever
    the signal does, and whatever time the iterations took.  This is said
    of [N] iterations of the inner loop's body, and of the inner loop when
    it ends. *)
Theorem deadline_within_pass
    (sigint : nat -> bool) (clock_gettime : nat -> timespec) (st : Preload.state) :
  Preload.normalized (clock_gettime (Preload.clock_reads st)) ->
  let t0 := clock_gettime (Preload.clock_reads st) in
  let st0 := Preload.start_pass clock_gettime st in
  Preload.buffer_period_ns = 100000000%Z
  /\ Preload.t st0 = t0
  /\ (forall N : nat,
        let stN := Nat.iter N (fun s => send_buffer (Preload.read_stop sigint s)) st0 in
        Preload.to_ns (Preload.t stN)
        = (Preload.to_ns t0 + Z.of_nat N * Preload.buffer_period_ns)%Z
        /\ Preload.normalized (Preload.t stN))
  /\ (forall fuel : nat,
        match pass_loop sigint fuel st0 with
        | Some st' =>
            let N := (Preload.pushes st' - Preload.pushes st)%nat in
            Preload.to_ns (Preload.t st')
            = (Preload.to_ns t0 + Z.of_nat N * Preload.buffer_period_ns)%Z
            /\ Preload.normalized (Preload.t st')
        | None => True
        end).
Proof.
  intros Nt. cbv zeta. split; [apply buffer_period_ns_value|].
  split; [reflexivity|]. split.
  - intros N.
    destruct (@preload_deadline_iter sigint N (Preload.start_pass clock_gettime st) Nt)
      as (A & B & _).
    rewrite buffer_period_ns_value. split; [exact A | exact B].
  - intros fuel.
    pose proof (preload_pass_loop_spec deviation_scale time_per_sample samples
                  sigint fuel (Preload.start_pass clock_gettime st)) as H.
    destruct (pass_loop sigint fuel _) as [st'|]; [|exact I].
    cbv zeta in H. destruct H as (_ & _ & _ & _ & T).
    rewrite buffer_period_ns_value. apply (T Nt).
Qed.

End Deadlines.

(** ** Runs on concrete inputs *)

(** One step of evaluating the loops of the looping transmitter on a state
    written out field by field. *)
Ltac preload_step :=
  first [ rewrite preload_read_stop_eq
        | rewrite preload_send_buffer_eq
        | rewrite preload_pass_loop_unfold
        | rewrite preload_tx_loop_unfold ];
  cbv zeta; unfold Preload.start_pass;
  cbn [Preload.stop Preload.phase_accum Preload.index Preload.t Preload.txbuf
       Preload.written Preload.pushes Preload.checks Preload.clock_reads
       Preload.trace Preload.initial_state Preload.total_samples
       Preload.modulate_all Preload.modulate_sample Preload.phases last app
       List.length firstn skipn Nat.add Nat.leb Nat.ltb orb].

Section Runs.

Local Open Scope Z_scope.

(** The theorem at work: a pass that starts at 10.95 s; after three buffers
    the deadline is 11.25 s, carried into the seconds. *)
Lemma deadline_within_pass_witness :
  let clock := fun _ : nat => mk_timespec 10 950000000 in
  let st0 := Preload.start_pass clock (Preload.initial_state [(0, 0)] []) in
  let st3 :=
    Nat.iter 3
      (fun s => Preload.send_buffer (7500 / 32767)%R (1 / 2304000)%R [1; 2; 3; 4; 5]
                  (Preload.read_stop (fun _ => false) s)) st0 in
  Preload.to_ns (Preload.t st3) = 11250000000
  /\ Preload.normalized (Preload.t st3).
Proof.
  cbv zeta.
  destruct (@deadline_within_pass (7500 / 32767)%R (1 / 2304000)%R [1; 2; 3; 4; 5]
              (fun _ => false) (fun _ : nat => mk_timespec 10 950000000)
              (Preload.initial_state [(0, 0)] []))
    as (P & _ & H & _).
  - unfold Preload.normalized. simpl. lia.
  - specialize (H 3%nat). cbv zeta in H. rewrite P in H. exact H.
Defined.

(** C4 as stated fails.  A file of one sample, a buffer of one slot: each
    pass is one buffer.  The first pass starts at 10.0 s and sleeps until
    10.1 s; the clock reads 10.15 s when the second pass starts, and the
    deadline after the second buffer is 10.25 s, not 10.0 s + 2 * 0.1 s:
    the outer loop reads the clock again at the start of every pass. *)
Lemma deadline_rebased_each_pass :
  let clock := fun n : nat => mk_timespec 10 (Z.of_nat n * 150000000) in
  let sigint := fun n : nat => (6 <=? n)%nat in
  let st := Preload.initial_state [(0, 0)] [] in
  exists st',
    Preload.tx_loop (7500 / 32767)%R (1 / 2304000)%R [0] sigint clock 8 st = Some st'
    /\ Preload.pushes st' = 2%nat
    /\ Preload.t st' = mk_timespec 10 250000000
    /\ Preload.to_ns (Preload.t st')
       <> Preload.to_ns (clock 0%nat) + 2 * Preload.buffer_period_ns.
Proof.
  cbv zeta. eexists. split.
  - repeat preload_step. reflexivity.
  - cbn [Preload.pushes Preload.t]. split; [reflexivity|].
    assert (T : Preload.time_add_ns (mk_timespec 10 (Z.of_nat 1 * 150000000))
                  Preload.buffer_period_ns
                = mk_timespec 10 250000000).
    { rewrite buffer_period_ns_value.
      apply time_add_ns_value; unfold Preload.normalized, Preload.to_ns; simpl; lia. }
    rewrite T. split; [reflexivity|].
    rewrite buffer_period_ns_value. unfold Preload.to_ns. simpl. lia.
Qed.

(** The theorem at work: a file of three samples, a buffer of two slots
    (two buffers, four reads of the flag per pass), the signal seen at the
    ninth read: two passes. *)
Lemma looping_restart_witness :
  let clock := fun _ : nat => mk_timespec 0 0 in
  let sigint := fun i : nat => (8 <=? i)%nat in
  let st := Preload.initial_state [(0, 0); (0, 0)] [] in
  let pass := Preload.modulate_all (7500 / 32767)%R (1 / 2304000)%R [100; -200; 300] 0%R in
  exists st',
    Preload.tx_loop (7500 / 32767)%R (1 / 2304000)%R [100; -200; 300] sigint clock 7 st
    = Some st'
    /\ Preload.pushes st' = 4%nat
    /\ Preload.written st' = List.concat [pass; pass]
    /\ nth_error (List.concat [pass; pass]) 3 = nth_error pass 0.
Proof.
  cbv zeta.
  destruct (@looping_restart (7500 / 32767)%R (1 / 2304000)%R [100; -200; 300]
              (fun _ : nat => mk_timespec 0 0) (fun i : nat => (8 <=? i)%nat) 2%nat
              (Preload.initial_state [(0, 0); (0, 0)] []))
    as (_ & st' & R & _ & _ & P & W & N).
  - simpl. lia.
  - reflexivity.
  - intros i Hi. apply Nat.leb_gt. vm_compute in Hi. simpl. lia.
  - reflexivity.
  - exists st'. split; [apply R; simpl; lia|]. split; [exact P|]. split; [exact W|].
    apply (N 1%nat 0%nat); simpl; lia.
Defined.

End Runs.

(** ** The stop flag *)

Lemma rises_cons (a b : bool) (h : list bool) :
  rises (a :: b :: h) = (if negb a && b then 1 else 0) + rises (b :: h).
Proof. reflexivity. Qed.

Lemma falls_cons (a b : bool) (h : list bool) :
  falls (a :: b :: h) = (if a && negb b then 1 else 0) + falls (b :: h).
Proof. reflexivity. Qed.

(** A history that starts [true] and stays [true] neither rises nor
    falls. *)
Lemma history_all_true (h : list bool) :
  Forall (fun b => b = true) h -> rises (true :: h) = 0 /\ falls (true :: h) = 0.
Proof.
  induction 1 as [|b h Hb Hh IH]; [split; reflexivity|].
  subst b. rewrite rises_cons, falls_cons. destruct IH as [R F].
  rewrite R, F. split; reflexivity.
Qed.

Section FlagHistory.

Variable A : Type.
Variable step : A -> A -> Prop.
Variable flag : A -> bool.

(** No step takes the flag back. *)
Hypothesis step_keeps : forall s s', step s s' -> flag s = true -> flag s' = true.

Lemma run_keeps (st : A) (l : list A) :
  run_from step st l -> flag st = true -> Forall (fun b => b = true) (map flag l).
Proof.
  induction 1 as [st|st st' l Hs Hr IH]; intros Hf; constructor.
  - apply (step_keeps Hs Hf).
  - apply IH, (step_keeps Hs Hf).
Qed.

(** Along an execution the flag rises at most once and never falls. *)
Lemma run_history (st : A) (l : list A) :
  run_from step st l ->
  rises (map flag (st :: l)) <= 1 /\ falls (map flag (st :: l)) = 0.
Proof.
  induction 1 as [st|st st' l Hs Hr IH].
  - split; simpl; lia.
  - change (map flag (st :: st' :: l)) with (flag st :: flag st' :: map flag l).
    change (map flag (st' :: l)) with (flag st' :: map flag l) in IH.
    rewrite rises_cons, falls_cons. destruct IH as [R F].
    destruct (flag st) eqn:Hf.
    + pose proof (step_keeps Hs Hf) as Hf'. rewrite Hf' in *.
      destruct (history_all_true (run_keeps Hr Hf')) as [R0 F0].
      rewrite R0, F0. split; simpl; lia.
    + destruct (flag st') eqn:Hf'.
      * destruct (history_all_true (run_keeps Hr Hf')) as [R0 F0].
        rewrite R0, F0. split; simpl; lia.
      * rewrite F. cbn [negb andb Nat.add]. split; lia.
Qed.

Lemma run_app (st : A) (l1 l2 : list A) :
  run_from step st l1 -> run_from step (last l1 st) l2 -> run_from step st (l1 ++ l2).
Proof.
  induction 1 as [st|st st' l Hs Hr IH]; intros H2.
  - exact H2.
  - rewrite last_cons_default in H2. cbn [app]. constructor; [exact Hs | apply IH, H2].
Qed.

Lemma reaches_refl (st : A) : reaches step st st.
Proof. exists []. split; [constructor | reflexivity]. Qed.

Lemma reaches_step (st st' : A) : step st st' -> reaches step st st'.
Proof. intros H. exists [st']. split; [repeat constructor; exact H | reflexivity]. Qed.

Lemma reaches_trans (a b c : A) :
  reaches step a b -> reaches step b c -> reaches step a c.
Proof.
  intros (l1 & R1 & E1) (l2 & R2 & E2). subst. exists (l1 ++ l2). split.
  - apply run_app; assumption.
  - apply last_app_default.
Qed.

End FlagHistory.

Section StopFlag.

Variables deviation_scale time_per_sample : double.

(** No action of the streaming transmitter clears the flag. *)
Lemma stream_step_keeps (push_result : nat -> Z) (s s' : Stream.state) :
  Stream.step deviation_scale time_per_sample push_result s s' ->
  Stream.stop s = true -> Stream.stop s' = true.
Proof.
  intros H Hs. destruct H as [st|st|st|buf st|st|e st]; try exact Hs.
  - reflexivity.
  - rewrite stream_fill_slot_eq. cbv zeta. cbn [snd Stream.stop]. rewrite Hs. reflexivity.
Qed.

(** In the streaming transmitter only the handler and a short read raise
    the flag. *)
Lemma stream_step_raises (push_result : nat -> Z) (s s' : Stream.state) :
  Stream.step deviation_scale time_per_sample push_result s s' ->
  Stream.stop s = false -> Stream.stop s' = true ->
  s' = Stream.signal_handler s
  \/ (s' = snd (Stream.fill_slot deviation_scale time_per_sample s)
      /\ Stream.short_within 1 (Stream.stdin s) = true).
Proof.
  intros H Hs Hs'. destruct H as [st|st|st|buf st|st|e st];
    try (cbn in Hs'; congruence).
  - left. reflexivity.
  - right. split; [reflexivity|].
    rewrite stream_fill_slot_eq in Hs'. cbv zeta in Hs'. cbn [snd Stream.stop] in Hs'.
    rewrite Hs in Hs'. exact Hs'.
Qed.

(** No action of the looping transmitter clears the flag. *)
Lemma preload_step_keeps (samples : list Z) (clock_gettime : nat -> timespec)
    (s s' : Preload.state) :
  Preload.step deviation_scale time_per_sample samples clock_gettime s s' ->
  Preload.stop s = true -> Preload.stop s' = true.
Proof.
  intros H Hs. destruct H; try exact Hs; reflexivity.
Qed.

(** In the looping transmitter only the handler raises the flag. *)
Lemma preload_step_raises (samples : list Z) (clock_gettime : nat -> timespec)
    (s s' : Preload.state) :
  Preload.step deviation_scale time_per_sample samples clock_gettime s s' ->
  Preload.stop s = false -> Preload.stop s' = true ->
  s' = Preload.handle_sig s.
Proof.
  intros H Hs Hs'. destruct H; cbn in Hs'; congruence.
Qed.

Section StreamRuns.

Variable push_result : nat -> Z.
Variable sigint : nat -> bool.

Local Abbreviation sstep := (Stream.step deviation_scale time_per_sample push_result).

Lemma stream_fill_buffer_reaches (slots : list slot) (st : Stream.state) :
  reaches sstep st (snd (Stream.fill_buffer deviation_scale time_per_sample slots st)).
Proof.
  revert st. induction slots as [|old rest IH]; intros st.
  - apply reaches_refl.
  - rewrite stream_fill_buffer_cons. cbn [snd].
    eapply reaches_trans; [apply reaches_step, Stream.step_fill_slot | apply IH].
Qed.

Lemma stream_fill_txbuf_reaches (st : Stream.state) :
  reaches sstep st (Stream.fill_txbuf deviation_scale time_per_sample st).
Proof.
  unfold Stream.fill_txbuf.
  pose proof (stream_fill_buffer_reaches (Stream.txbuf st) st) as H.
  destruct (Stream.fill_buffer _ _ _ _) as [buf st1]. cbn [snd] in H.
  eapply reaches_trans; [exact H | apply reaches_step, Stream.step_store].
Qed.

Lemma stream_read_stop_reaches (st : Stream.state) :
  reaches sstep st (Stream.read_stop sigint st).
Proof.
  unfold Stream.read_stop. destruct (sigint (Stream.checks st)).
  - eapply reaches_trans; apply reaches_step;
      [apply Stream.step_sigint | apply Stream.step_check].
  - apply reaches_step, Stream.step_check.
Qed.

(** Every run of the streaming loop is an execution of its actions. *)
Lemma stream_tx_loop_reaches (fuel : nat) (st st' : Stream.state) :
  Stream.tx_loop deviation_scale time_per_sample push_result sigint fuel st = Some st' ->
  reaches sstep st st'.
Proof.
  revert st. induction fuel as [|fuel IH]; intros st H; [discriminate|].
  rewrite stream_tx_loop_unfold in H. cbv zeta in H.
  pose proof (stream_read_stop_reaches st) as R0.
  set (st0 := Stream.read_stop sigint st) in *.
  destruct (Stream.stop st0).
  - injection H as <-. exact R0.
  - assert (R2 : reaches sstep st
                   (snd (Stream.push_txbuf push_result
                           (Stream.fill_txbuf deviation_scale time_per_sample st0)))).
    { eapply reaches_trans; [exact R0|].
      eapply reaches_trans; [apply stream_fill_txbuf_reaches|].
      apply reaches_step, Stream.step_push. }
    destruct (push_result (Stream.pushes st0) <? 0)%Z.
    + injection H as <-.
      eapply reaches_trans; [exact R2 | apply reaches_step, Stream.step_log].
    + eapply reaches_trans; [exact R2 | apply IH, H].
Qed.

End StreamRuns.

Section PreloadRuns.

Variable samples : list Z.
Variable sigint : nat -> bool.
Variable clock_gettime : nat -> timespec.

Local Abbreviation pstep :=
  (Preload.step deviation_scale time_per_sample samples clock_gettime).

Lemma preload_fill_buffer_reaches (slots : list slot) (st : Preload.state) :
  reaches pstep st
    (snd (Preload.fill_buffer deviation_scale time_per_sample samples slots st)).
Proof.
  revert st. induction slots as [|old rest IH]; intros st.
  - apply reaches_refl.
  - destruct (Nat.lt_ge_cases (Preload.index st) (Preload.total_samples samples))
      as [H|H].
    + rewrite preload_fill_buffer_cons by exact H. cbn [snd].
      eapply reaches_trans; [apply reaches_step, Preload.step_fill_slot | apply IH].
    + rewrite preload_fill_buffer_exhausted by exact H. apply reaches_refl.
Qed.

Lemma preload_send_buffer_reaches (st : Preload.state) :
  reaches pstep st (Preload.send_buffer deviation_scale time_per_sample samples st).
Proof.
  unfold Preload.send_buffer, Preload.wait_until.
  eapply reaches_trans; [|apply reaches_step, Preload.step_log].
  eapply reaches_trans; [|apply reaches_step, Preload.step_set_t].
  eapply reaches_trans; [|apply reaches_step, Preload.step_push].
  unfold Preload.fill_txbuf.
  pose proof (preload_fill_buffer_reaches (Preload.txbuf st) st) as H.
  destruct (Preload.fill_buffer _ _ _ _ _) as [buf st1]. cbn [snd] in H.
  eapply reaches_trans; [exact H | apply reaches_step, Preload.step_store].
Qed.

Lemma preload_read_stop_reaches (st : Preload.state) :
  reaches pstep st (Preload.read_stop sigint st).
Proof.
  unfold Preload.read_stop. destruct (sigint (Preload.checks st)).
  - eapply reaches_trans; apply reaches_step;
      [apply Preload.step_sigint | apply Preload.step_check].
  - apply reaches_step, Preload.step_check.
Qed.

Lemma preload_pass_loop_reaches (fuel : nat) (st st' : Preload.state) :
  Preload.pass_loop deviation_scale time_per_sample samples sigint fuel st = Some st' ->
  reaches pstep st st'.
Proof.
  revert st. induction fuel as [|fuel IH]; intros st H; [discriminate|].
  rewrite preload_pass_loop_unfold in H. cbv zeta in H.
  pose proof (preload_read_stop_reaches st) as R0.
  set (st0 := Preload.read_stop sigint st) in *.
  destruct (Preload.stop st0); [injection H as <-; exact R0|].
  destruct (Preload.index st0 <? Preload.total_samples samples);
    [|injection H as <-; exact R0].
  eapply reaches_trans; [exact R0|].
  eapply reaches_trans; [apply preload_send_buffer_reaches | apply IH, H].
Qed.

(** Every run of the looping transmitter's loops is an execution of its
    actions. *)
Lemma preload_tx_loop_reaches (fuel : nat) (st st' : Preload.state) :
  Preload.tx_loop deviation_scale time_per_sample samples sigint clock_gettime
    fuel st = Some st' ->
  reaches pstep st st'.
Proof.
  revert st. induction fuel as [|fuel IH]; intros st H; [discriminate|].
  rewrite preload_tx_loop_unfold in H. cbv zeta in H.
  pose proof (preload_read_stop_reaches st) as R0.
  set (st0 := Preload.read_stop sigint st) in *.
  destruct (Preload.stop st0); [injection H as <-; exact R0|].
  destruct (Preload.pass_loop _ _ _ _ _ _) as [st1|] eqn:P; [|discriminate].
  eapply reaches_trans; [exact R0|].
  eapply reaches_trans; [apply reaches_step, Preload.step_start_pass|].
  eapply reaches_trans; [apply (preload_pass_loop_reaches _ _ P) | apply IH, H].
Qed.

End PreloadRuns.

End StopFlag.

(** C9.  In every execution of the streaming transmitter and of the looping
    transmitter (any interleaving of the loop's actions with the signal
    handler, from the initial state), the stop flag starts [false], goes
    from [false] to [true] at most once and never from [true] to [false];
    a step that raises it is the handler or, in the streaming transmitter
    only, a read that came back short.  The runs of the two transmission
    loops are such executions ([stream_tx_loop_reaches],
    [preload_tx_loop_reaches]). *)
Theorem stop_flag_raised_once
    (deviation_scale time_per_sample : double) (push_result : nat -> Z)
    (samples : list Z) (clock_gettime : nat -> timespec) :
  (forall (input : list Stream.read_result) (buf : list slot) (tr : list event)
          (l : list Stream.state),
      let st := Stream.initial_state input buf tr in
      run_from (Stream.step deviation_scale time_per_sample push_result) st l ->
      let history := map Stream.stop (st :: l) in
      hd true history = false /\ rises history <= 1 /\ falls history = 0)
  /\ (forall s s' : Stream.state,
       Stream.step deviation_scale time_per_sample push_result s s' ->
       Stream.stop s = false -> Stream.stop s' = true ->
       s' = Stream.signal_handler s
       \/ (s' = snd (Stream.fill_slot deviation_scale time_per_sample s)
           /\ Stream.short_within 1 (Stream.stdin s) = true))
  /\ (forall (buf : list slot) (tr : list event) (l : list Preload.state),
       let st := Preload.initial_state buf tr in
       run_from (Preload.step deviation_scale time_per_sample samples clock_gettime)
         st l ->
       let history := map Preload.stop (st :: l) in
       hd true history = false /\ rises history <= 1 /\ falls history = 0)
  /\ (forall s s' : Preload.state,
       Preload.step deviation_scale time_per_sample samples clock_gettime s s' ->
       Preload.stop s = false -> Preload.stop s' = true ->
       s' = Preload.handle_sig s).
Proof.
  split; [|split; [|split]].
  - intros input buf tr l st R. cbv zeta. split; [reflexivity|].
    apply (@run_history _ _ Stream.stop
             (@stream_step_keeps deviation_scale time_per_sample push_result) _ _ R).
  - apply stream_step_raises.
  - intros buf tr l st R. cbv zeta. split; [reflexivity|].
    apply (@run_history _ _ Preload.stop
             (@preload_step_keeps deviation_scale time_per_sample samples
                clock_gettime) _ _ R).
  - apply preload_step_raises.
Qed.

(** The theorem at work: the end of the input, then a [SIGINT], then the
    next evaluation of the loop condition.  The flag rises at the short
    read and stays. *)
Lemma stop_flag_raised_once_witness :
  let st := Stream.initial_state [] [(0, 0)]%Z [] in
  let st1 := snd (Stream.fill_slot (10000 / 32767)%R (1 / 1000000)%R st) in
  let st2 := Stream.signal_handler st1 in
  let st3 := Stream.count_check st2 in
  map Stream.stop [st; st1; st2; st3] = [false; true; true; true]
  /\ rises (map Stream.stop [st; st1; st2; st3]) <= 1
  /\ falls (map Stream.stop [st; st1; st2; st3]) = 0.
Proof.
  cbv zeta. split; [reflexivity|].
  refine (proj2 (proj1 (@stop_flag_raised_once (10000 / 32767)%R (1 / 1000000)%R
                          (fun _ => 0%Z) [] (fun _ => mk_timespec 0 0))
                   [] [(0, 0)]%Z [] _ _)).
  repeat constructor.
Defined.

(** ** Start-up and shutdown *)

Section Startup.

Local Open Scope Z_scope.

(** C8, as the code has it.  The streaming transmitter, given a center
    frequency outside 70 MHz .. 6 GHz or a sample rate outside 1 MHz ..
    61.44 MHz (or none: the defaults are -1), prints the error and exits
    with status 1, and that message is all it has done: no hardware is
    configured, no buffer is produced.  The looping transmitter does the
    same when no input file is named or the file cannot be opened; it puts
    no bounds on the center frequency or the sample rate. *)
Theorem configuration_errors_exit_early :
  (forall (argv : list Stream.getopt_result) (e : Stream.env) (fuel : nat)
          (center_freq sample_rate : Z) (deviation_hz : double),
      Stream.parse_args argv (-1) (-1) 10000%R
      = Some (center_freq, sample_rate, deviation_hz) ->
      center_freq < 70000000 \/ 6000000000 < center_freq
      \/ sample_rate < 1000000 \/ 61440000 < sample_rate ->
      exists msg,
        Stream.main argv e fuel = Some (1, [fprintf_stderr msg])
        /\ existsb touches_hardware [fprintf_stderr msg] = false)
  /\ (forall (argv : list Preload.getopt_result) (e : Preload.env) (fuel : nat)
             (center_freq sample_rate : Z),
      Preload.parse_args argv 96500000 2304000 None
      = Some (center_freq, sample_rate, None) ->
      Preload.main argv e fuel = Some (1, [fprintf_stderr "Input file is required."])
      /\ existsb touches_hardware [fprintf_stderr "Input file is required."] = false)
  /\ (forall (argv : list Preload.getopt_result) (e : Preload.env) (fuel : nat)
             (center_freq sample_rate : Z) (name : string),
      Preload.parse_args argv 96500000 2304000 None
      = Some (center_freq, sample_rate, Some name) ->
      Preload.fopen e name = None ->
      Preload.main argv e fuel = Some (1, [fprintf_stderr "fopen"])).
Proof.
  split.
  - intros argv e fuel center_freq sample_rate deviation_hz P H.
    unfold Stream.main. rewrite P.
    destruct ((center_freq <? 70000000) || (center_freq >? 6000000000)) eqn:F.
    + eexists. split; reflexivity.
    + destruct ((sample_rate <? 1000000) || (sample_rate >? 61440000)) eqn:R.
      * eexists. split; reflexivity.
      * exfalso. apply orb_false_elim in F, R. destruct F as [F1 F2], R as [R1 R2].
        apply Z.ltb_ge in F1, R1. rewrite Z.gtb_ltb in F2, R2.
        apply Z.ltb_ge in F2, R2. lia.
  - split.
    + intros argv e fuel center_freq sample_rate P.
      unfold Preload.main. rewrite P. split; reflexivity.
    + intros argv e fuel center_freq sample_rate name P F.
      unfold Preload.main. rewrite P, F. reflexivity.
Qed.

(** The theorem at work: the streaming transmitter with a sample rate of
    500 kHz, the looping transmitter with [-f] and [-s] only. *)
Lemma configuration_errors_exit_early_witness :
  (exists msg,
      Stream.main [Stream.opt_f 96500000; Stream.opt_s 500000]
        (Stream.mk_env true true true (fun _ => true) (Some [(0, 0)])
           (fun _ => 4) (fun _ => false) [])
        5
      = Some (1, [fprintf_stderr msg]))
  /\ Preload.main [Preload.opt_f 96500000; Preload.opt_s 2304000]
       (Preload.mk_env (fun _ => Some []) true true true true (Some [(0, 0)])
          (fun _ => false) (fun _ => mk_timespec 0 0))
       5
     = Some (1, [fprintf_stderr "Input file is required."]).
Proof.
  destruct configuration_errors_exit_early as (S & P & _). split.
  - destruct (S [Stream.opt_f 96500000; Stream.opt_s 500000]
                (Stream.mk_env true true true (fun _ => true) (Some [(0, 0)])
                   (fun _ => 4) (fun _ => false) [])
                5%nat 96500000 500000 10000%R eq_refl) as (msg & M & _).
    + right. right. left. reflexivity.
    + exists msg. exact M.
  - exact (proj1 (P [Preload.opt_f 96500000; Preload.opt_s 2304000]
                    (Preload.mk_env (fun _ => Some []) true true true true
                       (Some [(0, 0)]) (fun _ => false) (fun _ => mk_timespec 0 0))
                    5%nat 96500000 2304000 eq_refl)).
Defined.

(** C8 as stated fails for the looping transmitter: with [-f 1 -s 100] (a
    buffer of ten slots) it reports nothing, writes 1 Hz and 100 Hz to the
    hardware, pushes a buffer and, once interrupted, exits with status 0. *)
Lemma preload_accepts_any_frequency :
  let e := Preload.mk_env (fun _ => Some [0]) true true true true
             (Some (repeat (0, 0) 10))
             (fun n => (3 <=? n)%nat) (fun _ => mk_timespec 0 0) in
  exists tr,
    Preload.main [Preload.opt_f 1; Preload.opt_s 100; Preload.opt_i "in.raw"] e 4
    = Some (0, tr)
    /\ In (iio_channel_attr_write_longlong lo_chan "frequency" 1) tr
    /\ In (iio_channel_attr_write_longlong phy_chan "sampling_frequency" 100) tr
    /\ (exists buf, In (iio_buffer_push buf) tr)
    /\ existsb touches_hardware tr = true.
Proof.
  cbv zeta. eexists. split.
  - unfold Preload.main.
    cbn [Preload.parse_args Preload.fopen Preload.malloc Preload.create_default_context
         Preload.find_device_phy Preload.find_device_tx Preload.create_buffer negb orb
         Preload.sigint Preload.clock_gettime repeat].
    repeat preload_step. reflexivity.
  - split; [simpl; auto|]. split; [simpl; auto 10|]. split.
    + eexists. simpl. do 7 right. left. reflexivity.
    + reflexivity.
Qed.

(** C7 fails on the code.  When [iio_device_create_buffer] fails, both
    programs return 1 straight away: the local oscillator was powered up
    ([powerdown] = 0) and is never powered down.  The other ways out of the
    streaming transmitter after the power-up (a failed push, the end of the
    input) do write [powerdown] = 1. *)
Lemma buffer_failure_leaves_lo_powered :
  (exists tr,
      Stream.main [Stream.opt_f 96500000; Stream.opt_s 2304000]
        (Stream.mk_env true true true (fun _ => true) None
           (fun _ => 0) (fun _ => false) [])
        0
      = Some (1, tr)
      /\ In lo_power_up tr
      /\ lo_powered tr = Some true
      /\ ~ In lo_power_down tr)
  /\ (exists tr,
      Preload.main [Preload.opt_i "in.raw"]
        (Preload.mk_env (fun _ => Some [0]) true true true true None
           (fun _ => false) (fun _ => mk_timespec 0 0))
        0
      = Some (1, tr)
      /\ In lo_power_up tr
      /\ lo_powered tr = Some true
      /\ ~ In lo_power_down tr)
  /\ (forall input : list Stream.read_result,
      exists tr,
        Stream.main [Stream.opt_f 96500000; Stream.opt_s 2304000]
          (Stream.mk_env true true true (fun _ => true) (Some [])
             (fun _ => -1) (fun _ => false) input)
          1
        = Some (0, tr)
        /\ lo_powered tr = Some false).
Proof.
  split; [|split].
  - eexists. split; [reflexivity|]. split; [simpl; auto|]. split; [reflexivity|].
    simpl. intros H. repeat (destruct H as [H|H]; [discriminate H|]). exact H.
  - eexists. split; [reflexivity|]. split; [simpl; auto|]. split; [reflexivity|].
    simpl. intros H. repeat (destruct H as [H|H]; [discriminate H|]). exact H.
  - intros input. eexists. split; reflexivity.
Qed.

End Startup.

(** * Further properties of the code *)

(** ** [time_add_ns] within the range of [long] *)

Section TimeAdd.

Local Open Scope Z_scope.

Lemma time_add_ns_loop_general (t : timespec) :
  Preload.to_ns (Preload.time_add_ns_loop t) = Preload.to_ns t
  /\ tv_nsec (Preload.time_add_ns_loop t) < 1000000000
  /\ tv_sec t <= tv_sec (Preload.time_add_ns_loop t)
  /\ Z.min 0 (tv_nsec t) <= tv_nsec (Preload.time_add_ns_loop t).
Proof.
  funelim (Preload.time_add_ns_loop t).
  - destruct H as (E & U & S & L). cbn [tv_sec tv_nsec] in *.
    split; [|split; [exact U|split; lia]].
    rewrite E. unfold Preload.to_ns. cbn [tv_sec tv_nsec]. lia.
  - split; [reflexivity|]. split; [lia|]. split; lia.
Qed.

(** On the integers of the model, without a bound: the instant moves by
    exactly [ns], [tv_nsec] ends below one second and [tv_sec] never goes
    back. *)
Lemma time_add_ns_moves (t : timespec) (ns : Z) :
  let r := Preload.time_add_ns t ns in
  Preload.to_ns r = Preload.to_ns t + ns
  /\ tv_nsec r < 1000000000
  /\ tv_sec t <= tv_sec r
  /\ Z.min 0 (tv_nsec t + ns) <= tv_nsec r.
Proof.
  cbv zeta. unfold Preload.time_add_ns.
  destruct (time_add_ns_loop_general (mk_timespec (tv_sec t) (tv_nsec t + ns)))
    as (E & U & S & L).
  cbn [tv_sec tv_nsec] in *. split; [|split; [exact U|split; assumption]].
  rewrite E. unfold Preload.to_ns. cbn [tv_sec tv_nsec]. lia.
Qed.

(** [time_add_ns] on every timestamp and number of nanoseconds (negative
    ones too) for which the addition [t->tv_nsec += ns] stays within a
    32-bit [long] and [tv_sec] has room for two more seconds: the instant
    moves by exactly [ns]; [tv_nsec] ends below one second and never above
    the sum; [tv_sec] goes up by at most 2 and never back (there is no
    borrow: a negative [tv_nsec] is left as it is); no step leaves the range
    of [long]. *)
Theorem time_add_ns_exact (t : timespec) (ns : Z) :
  in_long (tv_nsec t) -> in_long ns -> in_long (tv_nsec t + ns) ->
  in_long (tv_sec t) -> in_long (tv_sec t + 2) ->
  let r := Preload.time_add_ns t ns in
  Preload.to_ns r = Preload.to_ns t + ns
  /\ tv_nsec r < 1000000000
  /\ tv_sec t <= tv_sec r <= tv_sec t + 2
  /\ Z.min 0 (tv_nsec t + ns) <= tv_nsec r <= tv_nsec t + ns
  /\ in_long (tv_nsec r) /\ in_long (tv_sec r).
Proof.
  unfold in_long, LONG_MIN, LONG_MAX. intros Hn Hns Hsum Hs Hs2. cbv zeta.
  destruct (time_add_ns_moves t ns) as (E & U & S & L). cbv zeta in *.
  set (r := Preload.time_add_ns t ns) in *.
  unfold Preload.to_ns in E.
  assert (D : tv_sec r <= tv_sec t + 2) by lia.
  assert (M : tv_nsec r <= tv_nsec t + ns) by lia.
  split; [unfold Preload.to_ns; exact E|].
  repeat split; try assumption; lia.
Qed.

(** The theorem at work: a sum that is the largest [long]. *)
Lemma time_add_ns_exact_witness :
  let r := Preload.time_add_ns (mk_timespec 7 999999999) 1147483648 in
  Preload.to_ns r = Preload.to_ns (mk_timespec 7 999999999) + 1147483648
  /\ tv_nsec r < 1000000000
  /\ tv_sec (mk_timespec 7 999999999) <= tv_sec r <= tv_sec (mk_timespec 7 999999999) + 2
  /\ Z.min 0 (tv_nsec (mk_timespec 7 999999999) + 1147483648) <= tv_nsec r
     <= tv_nsec (mk_timespec 7 999999999) + 1147483648
  /\ in_long (tv_nsec r) /\ in_long (tv_sec r).
Proof.
  apply (@time_add_ns_exact (mk_timespec 7 999999999) 1147483648);
    unfold in_long, LONG_MIN, LONG_MAX; simpl; lia.
Defined.

(** When the sum of [tv_nsec] and [ns] is not negative and within a 32-bit
    [long] (and [tv_sec] has room for two more seconds), [time_add_ns]
    carries its whole seconds into [tv_sec] and leaves the rest: the result
    is normalized. *)
Theorem time_add_ns_carries (t : timespec) (ns : Z) :
  in_long (tv_nsec t) -> in_long ns -> in_long (tv_sec t) -> in_long (tv_sec t + 2) ->
  0 <= tv_nsec t + ns <= LONG_MAX ->
  Preload.time_add_ns t ns
  = mk_timespec (tv_sec t + (tv_nsec t + ns) / 1000000000)
                ((tv_nsec t + ns) mod 1000000000).
Proof.
  intros _ _ _ _ [H _]. unfold Preload.time_add_ns.
  destruct (@time_add_ns_loop_spec (mk_timespec (tv_sec t) (tv_nsec t + ns)) H)
    as [E N].
  apply normalized_to_ns_inj.
  - exact N.
  - unfold Preload.normalized. cbn [tv_nsec].
    apply Z.mod_pos_bound. lia.
  - rewrite E. unfold Preload.to_ns. cbn [tv_sec tv_nsec].
    pose proof (Z.div_mod (tv_nsec t + ns) 1000000000). lia.
Qed.

(** The theorem at work: 0.95 s plus 1.1 s of nanoseconds. *)
Lemma time_add_ns_carries_witness :
  Preload.time_add_ns (mk_timespec 7 950000000) 1100000000 = mk_timespec 9 50000000.
Proof.
  apply (@time_add_ns_carries (mk_timespec 7 950000000) 1100000000);
    unfold in_long, LONG_MIN, LONG_MAX; simpl; lia.
Defined.

End TimeAdd.

(** ** More on the modulator *)

Section ModulatorMore.

Local Open Scope R_scope.

Lemma Rtrunc_opp (x : R) : Rtrunc (- x) = (- Rtrunc x)%Z.
Proof.
  apply Rtrunc_unique; intros H; rewrite opp_IZR.
  - destruct (Req_dec x 0) as [->|N].
    + rewrite (Rtrunc_IZR 0). simpl. lra.
    + assert (Hx : x < 0) by lra. destruct (Rtrunc_neg Hx). lra.
  - assert (Hx : 0 <= x) by lra. destruct (Rtrunc_nonneg Hx). lra.
Qed.

Lemma fmod_opp (x y : R) : fmod (- x) y = - fmod x y :> R.
Proof.
  unfold fmod. replace (- x / y) with (- (x / y)) by (unfold Rdiv; ring).
  rewrite Rtrunc_opp, opp_IZR. ring.
Qed.

(** [cos] and [sin] do not see a whole number of turns. *)
Lemma cos_sin_turns (x : R) (k : Z) :
  cos (x - IZR k * (2 * PI)) = cos x /\ sin (x - IZR k * (2 * PI)) = sin x.
Proof.
  destruct (Z_le_gt_dec 0 k) as [H|H].
  - rewrite <- (Z2Nat.id k H), <- INR_IZR_INZ.
    set (n := Z.to_nat k).
    pose proof (cos_period (x - INR n * (2 * PI)) n) as C.
    pose proof (sin_period (x - INR n * (2 * PI)) n) as S0.
    replace (x - INR n * (2 * PI) + 2 * INR n * PI) with x in C, S0 by ring.
    split; congruence.
  - assert (E : k = (- Z.of_nat (Z.to_nat (- k)))%Z) by lia.
    rewrite E, opp_IZR, <- INR_IZR_INZ.
    set (n := Z.to_nat (- k)).
    replace (x - - INR n * (2 * PI)) with (x + 2 * INR n * PI) by ring.
    split; [apply cos_period | apply sin_period].
Qed.

(** The new phase is the sum of the old one and the increment, less a whole
    number of turns. *)
Lemma fmod_turns (x : R) : exists k : Z, fmod x (2 * PI) = x - IZR k * (2 * PI).
Proof. exists (Rtrunc (x / (2 * PI))). reflexivity. Qed.

Lemma modulate_sample_iq (deviation : Z) (phase scale tps : double) :
  Stream.modulate_sample deviation phase scale tps
  = (iq_of_phase (snd (Stream.modulate_sample deviation phase scale tps)),
     snd (Stream.modulate_sample deviation phase scale tps)).
Proof. reflexivity. Qed.

Lemma modulate_all_same (scale tps : double) (devs : list Z) (phase : double) :
  Preload.modulate_all scale tps devs phase = Stream.modulate_all scale tps devs phase.
Proof.
  revert phase. induction devs as [|d devs IH]; intros phase; [reflexivity|].
  cbn [Stream.modulate_all Preload.modulate_all]. rewrite modulate_sample_same.
  destruct (Stream.modulate_sample d phase scale tps).
  rewrite IH. reflexivity.
Qed.

Lemma modulate_sample_silence (phase scale tps : double) :
  - (2 * PI) < phase < 2 * PI ->
  Stream.modulate_sample 0 phase scale tps = (iq_of_phase phase, phase).
Proof.
  intros H. rewrite modulate_sample_iq, modulate_sample_phase.
  unfold double in *.
  replace (phase + 2 * PI * (0 * scale) * tps) with phase by ring.
  rewrite (fmod_small two_pi_pos H). reflexivity.
Qed.

(** A zero deviation leaves a phase within a turn of 0 where it is: the
    output is the unmodulated carrier at that phase. *)
Theorem zero_deviation_keeps_phase (phase scale tps : double) :
  - (2 * PI) < phase < 2 * PI ->
  Stream.modulate_sample 0 phase scale tps = (iq_of_phase phase, phase)
  /\ Preload.modulate_sample scale tps 0 phase = (iq_of_phase phase, phase).
Proof.
  intros H. rewrite modulate_sample_same.
  split; apply modulate_sample_silence; exact H.
Qed.

(** The theorem at work: phase 1 rad. *)
Lemma zero_deviation_keeps_phase_witness :
  Stream.modulate_sample 0 1 (10000 / 32767) (1 / 1000000) = (iq_of_phase 1, 1)
  /\ Preload.modulate_sample (7500 / 32767) (1 / 2304000) 0 1 = (iq_of_phase 1, 1).
Proof.
  assert (H : - (2 * PI) < 1 < 2 * PI) by (pose proof PI2_3_2; lra).
  split.
  - exact (proj1 (@zero_deviation_keeps_phase 1 (10000 / 32767) (1 / 1000000) H)).
  - exact (proj2 (@zero_deviation_keeps_phase 1 (7500 / 32767) (1 / 2304000) H)).
Defined.

(** The outputs are those of a modulator that never reduces its phase: for
    every starting phase and deviation sequence, the k-th pair is [cos] and
    [sin] of the starting phase plus all increments so far, times 32767,
    truncated.  The reduction by [fmod] changes no sample. *)
Theorem outputs_follow_unwrapped_phase
    (deviation_scale time_per_sample : double) (devs : list Z) (phase : double) :
  Stream.modulate_all deviation_scale time_per_sample devs phase
  = map iq_of_phase (unwrapped_phases deviation_scale time_per_sample devs phase)
  /\ Preload.modulate_all deviation_scale time_per_sample devs phase
     = map iq_of_phase (unwrapped_phases deviation_scale time_per_sample devs phase).
Proof.
  unfold double in *.
  assert (G : forall devs p q,
             (exists k : Z, p = q - IZR k * (2 * PI)) ->
             Stream.modulate_all deviation_scale time_per_sample devs p
             = map iq_of_phase
                 (unwrapped_phases deviation_scale time_per_sample devs q)).
  { clear. unfold double in *.
    induction devs as [|d devs IH]; intros p q [k E]; [reflexivity|].
    cbn [Stream.modulate_all unwrapped_phases map]. cbv zeta.
    rewrite modulate_sample_iq, modulate_sample_phase.
    destruct (fmod_turns (p + 2 * PI * (IZR d * deviation_scale) * time_per_sample))
      as [k' E'].
    set (q' := q + 2 * M_PI * (IZR d * deviation_scale) * time_per_sample).
    assert (T : fmod (p + 2 * PI * (IZR d * deviation_scale) * time_per_sample) (2 * PI)
                = q' - IZR (k + k') * (2 * PI) :> R).
    { rewrite E', E, plus_IZR. unfold q', M_PI. ring. }
    f_equal.
    - rewrite T. unfold iq_of_phase.
      destruct (cos_sin_turns q' (k + k')) as [C S0]. rewrite C, S0. reflexivity.
    - apply IH. exists (k + k')%Z. exact T. }
  assert (S0 : Stream.modulate_all deviation_scale time_per_sample devs phase
               = map iq_of_phase
                   (unwrapped_phases deviation_scale time_per_sample devs phase)).
  { apply G. exists 0%Z. simpl. ring. }
  split; [exact S0 | rewrite modulate_all_same; exact S0].
Qed.

End ModulatorMore.

Section ModulatorAlgebra.

Local Open Scope R_scope.

(** Mirror symmetry: negating the deviation and the phase negates the new
    phase and Q and leaves I (truncation and [fmod] are both odd). *)
Lemma modulate_sample_mirror (deviation : Z) (phase scale tps : R) :
  Stream.modulate_sample (- deviation) (- phase) scale tps
  = (conj_iq (fst (Stream.modulate_sample deviation phase scale tps)),
     - snd (Stream.modulate_sample deviation phase scale tps)).
Proof.
  rewrite !modulate_sample_value. cbv zeta. cbn [fst snd]. unfold conj_iq. cbn [fst snd].
  replace (- phase + 2 * PI * (IZR (- deviation) * scale) * tps)
    with (- (phase + 2 * PI * (IZR deviation * scale) * tps))
    by (rewrite opp_IZR; ring).
  rewrite fmod_opp, cos_neg, sin_neg.
  replace (- sin (fmod (phase + 2 * PI * (IZR deviation * scale) * tps) (2 * PI)) * 32767)
    with (- (sin (fmod (phase + 2 * PI * (IZR deviation * scale) * tps) (2 * PI)) * 32767))
    by ring.
  rewrite Rtrunc_opp. reflexivity.
Qed.

(** For every deviation sequence, the negated sequence from the negated
    phase gives the conjugate samples (same I, negated Q), in both
    programs: a deviation of [-d] is the mirror image of [+d]. *)
Theorem negated_deviation_conjugates
    (deviation_scale time_per_sample : R) (devs : list Z) (phase : R) :
  Stream.modulate_all deviation_scale time_per_sample (map Z.opp devs) (- phase)
  = map conj_iq (Stream.modulate_all deviation_scale time_per_sample devs phase)
  /\ Preload.modulate_all deviation_scale time_per_sample (map Z.opp devs) (- phase)
     = map conj_iq (Preload.modulate_all deviation_scale time_per_sample devs phase).
Proof.
  rewrite !modulate_all_same.
  assert (G : Stream.modulate_all deviation_scale time_per_sample (map Z.opp devs)
                (- phase)
              = map conj_iq
                  (Stream.modulate_all deviation_scale time_per_sample devs phase)).
  { revert phase. induction devs as [|d devs IH]; intros phase; [reflexivity|].
    cbn [map Stream.modulate_all]. rewrite modulate_sample_mirror.
    rewrite (surjective_pairing (Stream.modulate_sample d phase _ _)).
    cbn [fst snd map]. rewrite IH. reflexivity. }
  split; exact G.
Qed.






End ModulatorAlgebra.

(** ** More on the fillers *)

Section FillersMore.

Variables deviation_scale time_per_sample : double.

(** The fillers never look at the stop flag: whatever the flag is when a
    fill starts, in the middle of a buffer or not, the slots written and
    the state of the modulator and of the source afterwards are the same. *)
Theorem fillers_ignore_stop_flag (b : bool) (slots : list slot) (samples : list Z) :
  (forall st : Stream.state,
      let r := Stream.fill_buffer deviation_scale time_per_sample slots st in
      let r' := Stream.fill_buffer deviation_scale time_per_sample slots
                  (Stream.set_stop b st) in
      fst r' = fst r
      /\ List.length (fst r') = List.length slots
      /\ Stream.signal_phase (snd r') = Stream.signal_phase (snd r)
      /\ Stream.stdin (snd r') = Stream.stdin (snd r)
      /\ Stream.reads (snd r') = Stream.reads (snd r))
  /\ (forall st : Preload.state,
      let r := Preload.fill_buffer deviation_scale time_per_sample samples slots st in
      let r' := Preload.fill_buffer deviation_scale time_per_sample samples slots
                  (Preload.set_stop b st) in
      fst r' = fst r
      /\ List.length (fst r') = List.length slots
      /\ Preload.phase_accum (snd r') = Preload.phase_accum (snd r)
      /\ Preload.index (snd r') = Preload.index (snd r)).
Proof.
  split; intros st; cbv zeta.
  - pose proof (stream_fill_buffer_spec deviation_scale time_per_sample slots st) as H.
    pose proof (stream_fill_buffer_spec deviation_scale time_per_sample slots
                  (Stream.set_stop b st)) as H'.
    pose proof (stream_fill_buffer_phase deviation_scale time_per_sample slots st) as F.
    pose proof (stream_fill_buffer_phase deviation_scale time_per_sample slots
                  (Stream.set_stop b st)) as F'.
    cbv zeta in H, H'.
    destruct H as (O & _ & R & I & _), H' as (O' & _ & R' & I' & _).
    cbn [Stream.set_stop Stream.stdin Stream.signal_phase Stream.reads] in O', R', I', F'.
    rewrite O', O, R', R, I', I, F', F.
    rewrite stream_modulate_all_length, stream_next_samples_length.
    repeat split; reflexivity.
  - pose proof (preload_fill_buffer_spec deviation_scale time_per_sample samples
                  slots st) as H.
    pose proof (preload_fill_buffer_spec deviation_scale time_per_sample samples
                  slots (Preload.set_stop b st)) as H'.
    cbv zeta in H, H'.
    destruct H as (O & _ & I & P & _), H' as (O' & _ & I' & P' & _).
    cbn [Preload.set_stop Preload.index Preload.phase_accum] in O', I', P'.
    rewrite O', O, I', I, P', P.
    rewrite length_app, preload_modulate_all_length, length_skipn, length_firstn.
    repeat split; try reflexivity. lia.
Qed.


(** One iteration of the looping transmitter's inner loop pushes the buffer
    whole: its first slots hold the modulation of the next samples, as many
    as there are slots and samples left, and the slots after them still
    hold what they held before (when the file ends inside a buffer, stale
    pairs are pushed with the fresh ones); the buffer keeps its size. *)
Theorem preload_push_keeps_stale_slots (samples : list Z) (st : Preload.state) :
  let cap := List.length (Preload.txbuf st) in
  let left := List.length samples - Preload.index st in
  let devs := firstn cap (skipn (Preload.index st) samples) in
  let st1 := Preload.send_buffer deviation_scale time_per_sample samples st in
  List.length devs = Nat.min cap left
  /\ firstn (Nat.min cap left) (Preload.txbuf st1)
     = Preload.modulate_all deviation_scale time_per_sample devs (Preload.phase_accum st)
  /\ skipn (Nat.min cap left) (Preload.txbuf st1)
     = skipn (Nat.min cap left) (Preload.txbuf st)
  /\ List.length (Preload.txbuf st1) = cap
  /\ Preload.trace st1
     = Preload.trace st
       ++ [iio_buffer_push (Preload.txbuf st1); clock_nanosleep (Preload.t st1)].
Proof.
  cbv zeta.
  pose proof (preload_send_buffer_spec deviation_scale time_per_sample samples st) as H.
  cbv zeta in H. destruct H as (_ & _ & _ & _ & _ & B & _ & _ & _ & T).
  assert (L : List.length (firstn (List.length (Preload.txbuf st))
                             (skipn (Preload.index st) samples))
              = Nat.min (List.length (Preload.txbuf st))
                        (List.length samples - Preload.index st)).
  { rewrite length_firstn, length_skipn. reflexivity. }
  split; [exact L|]. rewrite T, B, L.
  set (outs := Preload.modulate_all _ _ _ _).
  assert (Lo : List.length outs
               = Nat.min (List.length (Preload.txbuf st))
                         (List.length samples - Preload.index st)).
  { unfold outs. rewrite preload_modulate_all_length. exact L. }
  set (n := Nat.min _ _) in *. set (old := Preload.txbuf st) in *.
  assert (A1 : firstn n (outs ++ skipn n old) = outs).
  { rewrite <- Lo, firstn_app, Nat.sub_diag, firstn_all. cbn [firstn].
    apply app_nil_r. }
  assert (A2 : skipn n (outs ++ skipn n old) = skipn n old).
  { rewrite <- Lo at 1. rewrite skipn_app, Nat.sub_diag, skipn_all. reflexivity. }
  rewrite A1, A2, length_app, length_skipn, Lo.
  repeat split; try reflexivity. unfold n. lia.
Qed.

End FillersMore.


(** ** The streaming loop: accounting and termination *)

Section StreamLoopMore.

Variables deviation_scale time_per_sample : double.
Variable push_result : nat -> Z.
Variable sigint : nat -> bool.

Local Abbreviation tx_loop :=
  (Stream.tx_loop deviation_scale time_per_sample push_result sigint).

(** The state after one fill and push. *)
Lemma stream_iteration_spec (st : Stream.state) :
  let st0 := Stream.read_stop sigint st in
  let n := List.length (Stream.txbuf st) in
  let st2 := snd (Stream.push_txbuf push_result
                    (Stream.fill_txbuf deviation_scale time_per_sample st0)) in
  Stream.reads st2 = Stream.reads st + n
  /\ Stream.stdin st2 = skipn n (Stream.stdin st)
  /\ Stream.pushes st2 = S (Stream.pushes st)
  /\ List.length (Stream.txbuf st2) = n
  /\ Stream.stop st2
     = Stream.stop st0 || Stream.short_within n (Stream.stdin st)
  /\ Stream.trace st2
     = Stream.trace st ++ [iio_buffer_push (Stream.txbuf st2)].
Proof.
  cbv zeta.
  pose proof (stream_read_stop_eq sigint st) as E.
  set (st0 := Stream.read_stop sigint st) in *.
  assert (E0 : Stream.stdin st0 = Stream.stdin st
               /\ Stream.txbuf st0 = Stream.txbuf st
               /\ Stream.reads st0 = Stream.reads st
               /\ Stream.pushes st0 = Stream.pushes st
               /\ Stream.trace st0 = Stream.trace st)
    by (rewrite E; repeat split; reflexivity).
  destruct E0 as (Ei & Eb & Er & Eu & Et).
  pose proof (stream_fill_txbuf_spec deviation_scale time_per_sample st0) as F.
  cbv zeta in F. destruct F as (Fb & _ & Fr & Fi & Fs & Fu & _ & Ft & _).
  set (st1 := Stream.fill_txbuf deviation_scale time_per_sample st0) in *.
  unfold Stream.push_txbuf.
  cbn [snd Stream.reads Stream.stdin Stream.pushes Stream.txbuf Stream.stop Stream.trace].
  rewrite Fr, Fi, Fu, Fs, Ft, Er, Ei, Eu, Eb, Et.
  rewrite Fb at 1. rewrite stream_modulate_all_length, stream_next_samples_length, Eb.
  repeat split; reflexivity.
Qed.

(** Accounting: when the streaming loop ends, it has called [read] once for
    every slot of every buffer it pushed: [reads] grew by the number of
    pushes times the size of the buffer, and that many results of [stdin]
    are used up. *)
Theorem stream_reads_per_push (fuel : nat) (st : Stream.state) :
  match tx_loop fuel st with
  | Some st' =>
      let n := List.length (Stream.txbuf st) in
      let k := Stream.pushes st' - Stream.pushes st in
      Stream.pushes st <= Stream.pushes st'
      /\ Stream.reads st' = Stream.reads st + k * n
      /\ Stream.stdin st' = skipn (k * n) (Stream.stdin st)
      /\ List.length (Stream.txbuf st') = n
  | None => True
  end.
Proof.
  revert st. induction fuel as [|fuel IH]; intros st; [exact I|].
  rewrite stream_tx_loop_unfold. cbv zeta.
  pose proof (stream_iteration_spec st) as H. cbv zeta in H.
  destruct H as (Hr & Hi & Hu & Hb & _).
  pose proof (stream_read_stop_eq sigint st) as E.
  set (st0 := Stream.read_stop sigint st) in *.
  assert (E0 : Stream.stdin st0 = Stream.stdin st
               /\ Stream.txbuf st0 = Stream.txbuf st
               /\ Stream.reads st0 = Stream.reads st
               /\ Stream.pushes st0 = Stream.pushes st)
    by (rewrite E; repeat split; reflexivity).
  destruct E0 as (Ei & Eb & Er & Eu).
  destruct (Stream.stop st0).
  - rewrite Eu, Er, Ei, Eb, Nat.sub_diag. cbn [Nat.mul skipn].
    repeat split; try reflexivity; lia.
  - set (st2 := snd (Stream.push_txbuf push_result _)) in *.
    set (n := List.length (Stream.txbuf st)) in *.
    destruct (push_result (Stream.pushes st0) <? 0)%Z.
    + unfold Stream.log.
      cbn [Stream.pushes Stream.reads Stream.stdin Stream.txbuf].
      rewrite Hu, Hr, Hi, Hb.
      replace (S (Stream.pushes st) - Stream.pushes st) with 1 by lia.
      rewrite Nat.mul_1_l. repeat split; try reflexivity; lia.
    + specialize (IH st2). destruct (tx_loop fuel st2) as [st'|]; [|exact I].
      cbv zeta in IH. destruct IH as (Il & Ir & Ii & Ib).
      rewrite Hu in Il. rewrite Hb in Ir, Ii, Ib. rewrite Hu in Ir, Ii.
      replace (Stream.pushes st' - Stream.pushes st)
        with (S (Stream.pushes st' - S (Stream.pushes st))) by lia.
      split; [lia|]. split; [rewrite Ir, Hr; cbn [Nat.mul]; lia|].
      split; [|exact Ib].
      rewrite Ii, Hi, skipn_skipn. f_equal. cbn [Nat.mul]. lia.
Qed.

(** On an input that ends, the streaming loop ends: with a buffer of at
    least one slot, a fuel of the length of the input plus two is enough,
    whatever the pushes return and whenever a signal comes; and when it ends
    the flag is set or the last push failed. *)
Lemma stream_tx_loop_terminates (m : nat) (st : Stream.state) :
  List.length (Stream.stdin st) <= m ->
  0 < List.length (Stream.txbuf st) ->
  exists st',
    (forall k, tx_loop (m + 2 + k) st = Some st')
    /\ (Stream.stop st' = true
        \/ exists tr, Stream.trace st' = tr ++ [fprintf_stderr "Error pushing buffer"]).
Proof.
  revert st. induction m as [|m IH]; intros st Hm Hcap;
    pose proof (stream_iteration_spec st) as H; cbv zeta in H;
    destruct H as (_ & Hi & _ & Hb & Hs & _);
    set (st0 := Stream.read_stop sigint st) in *;
    set (st2 := snd (Stream.push_txbuf push_result
                       (Stream.fill_txbuf deviation_scale time_per_sample st0))) in *;
    assert (Eu : Stream.pushes st0 = Stream.pushes st)
      by (unfold st0; rewrite stream_read_stop_eq; reflexivity).
  - destruct (Stream.stop st0) eqn:S0.
    + exists st0. split; [|left; exact S0].
      intros k. change (0 + 2 + k) with (S (S k)).
      rewrite stream_tx_loop_unfold. cbv zeta. fold st0. rewrite S0. reflexivity.
    + assert (S2 : Stream.stop st2 = true).
      { rewrite Hs. destruct (Stream.stdin st) as [|r l]; [|simpl in Hm; lia].
        destruct (List.length (Stream.txbuf st)); [lia|]. reflexivity. }
      destruct (push_result (Stream.pushes st0) <? 0)%Z eqn:P.
      * exists (Stream.log (fprintf_stderr "Error pushing buffer") st2).
        split; [|right; exists (Stream.trace st2); reflexivity].
        intros k. change (0 + 2 + k) with (S (S k)).
        rewrite stream_tx_loop_unfold. cbv zeta. fold st0. rewrite S0. fold st2.
        rewrite P. reflexivity.
      * exists (Stream.read_stop sigint st2).
        assert (S3 : Stream.stop (Stream.read_stop sigint st2) = true)
          by (rewrite stream_read_stop_eq; cbn [Stream.stop]; rewrite S2; reflexivity).
        split; [|left; exact S3].
        intros k. change (0 + 2 + k) with (S (S k)).
        rewrite stream_tx_loop_unfold. cbv zeta. fold st0. rewrite S0. fold st2.
        rewrite P. rewrite stream_tx_loop_unfold. cbv zeta. rewrite S3. reflexivity.
  - destruct (Stream.stop st0) eqn:S0.
    + exists st0. split; [|left; exact S0].
      intros k. change (S m + 2 + k) with (S (m + 2 + k)).
      rewrite stream_tx_loop_unfold. cbv zeta. fold st0. rewrite S0. reflexivity.
    + destruct (push_result (Stream.pushes st0) <? 0)%Z eqn:P.
      * exists (Stream.log (fprintf_stderr "Error pushing buffer") st2).
        split; [|right; exists (Stream.trace st2); reflexivity].
        intros k. change (S m + 2 + k) with (S (m + 2 + k)).
        rewrite stream_tx_loop_unfold. cbv zeta. fold st0. rewrite S0. fold st2.
        rewrite P. reflexivity.
      * destruct (IH st2) as (st' & R & Q).
        -- rewrite Hi, length_skipn. lia.
        -- rewrite Hb. exact Hcap.
        -- exists st'. split; [|exact Q].
           intros k. change (S m + 2 + k) with (S (m + 2 + k)).
           rewrite stream_tx_loop_unfold. cbv zeta. fold st0. rewrite S0. fold st2.
           rewrite P. apply R.
Qed.

End StreamLoopMore.

(** ** Exits *)

Section Exits.

Local Open Scope Z_scope.

Lemma lo_powered_from_app (acc : option bool) (tr1 tr2 : list event) :
  lo_powered_from acc (tr1 ++ tr2) = lo_powered_from (lo_powered_from acc tr1) tr2.
Proof.
  revert acc. induction tr1 as [|e tr1 IH]; intros acc; [reflexivity|].
  cbn [app lo_powered_from].
  destruct (event_eqb_power true e); [apply IH|].
  destruct (event_eqb_power false e); apply IH.
Qed.

(** After either shutdown sequence the local oscillator is powered down. *)
Lemma lo_powered_after_shutdown (tr : list event) :
  lo_powered (tr ++ Stream.shutdown) = Some false
  /\ lo_powered (tr ++ Preload.shutdown) = Some false.
Proof. unfold lo_powered. rewrite !lo_powered_from_app. split; reflexivity. Qed.

(** The streaming program always ends on an input that ends: whatever the
    arguments, the hardware's answers and the signals, when the buffer (if
    one is created) has at least one slot, [main] returns, with a fuel of
    the length of the input plus two or more. *)
Theorem stream_main_terminates (argv : list Stream.getopt_result) (e : Stream.env) :
  Stream.create_buffer e <> Some [] ->
  exists (code : Z) (tr : list event),
    (code = 0 \/ code = 1)
    /\ forall k : nat,
        Stream.main argv e (List.length (Stream.input e) + 2 + k) = Some (code, tr).
Proof.
  intros Hbuf. unfold Stream.main.
  destruct (Stream.parse_args argv (-1) (-1) 10000%R) as [[[cf sr] dv]|];
    [|eexists; eexists; split; [right; reflexivity | reflexivity]].
  destruct ((cf <? 70000000) || (cf >? 6000000000));
    [eexists; eexists; split; [right; reflexivity | reflexivity]|].
  destruct ((sr <? 1000000) || (sr >? 61440000));
    [eexists; eexists; split; [right; reflexivity | reflexivity]|].
  destruct (negb (Stream.create_default_context e));
    [eexists; eexists; split; [right; reflexivity | reflexivity]|].
  destruct (negb (Stream.find_device_tx e) || negb (Stream.find_device_phy e));
    [eexists; eexists; split; [right; reflexivity | reflexivity]|].
  destruct (negb (Stream.find_channel e tx0_i) || negb (Stream.find_channel e tx0_q)
            || negb (Stream.find_channel e lo_chan)
            || negb (Stream.find_channel e phy_chan));
    [eexists; eexists; split; [right; reflexivity | reflexivity]|].
  cbv zeta.
  destruct (Stream.create_buffer e) as [buf|];
    [|eexists; eexists; split; [right; reflexivity | reflexivity]].
  set (st := Stream.initial_state (Stream.input e) buf _).
  destruct (@stream_tx_loop_terminates (dv / IZR Stream.MAX_SAMPLE_VALUE)%R
              (1 / IZR sr)%R (Stream.push_result e) (Stream.sigint e)
              (List.length (Stream.input e)) st) as (st' & R & _).
  - reflexivity.
  - destruct buf; [congruence | simpl; lia].
  - exists 0, (Stream.trace st' ++ Stream.shutdown). split; [left; reflexivity|].
    intros k. rewrite R. reflexivity.
Qed.

(** The theorem at work: two samples on [stdin], a buffer of three slots. *)
Lemma stream_main_terminates_witness :
  exists (code : Z) (tr : list event),
    (code = 0 \/ code = 1)
    /\ forall k : nat,
        Stream.main [Stream.opt_f 96500000; Stream.opt_s 2304000]
          (Stream.mk_env true true true (fun _ => true) (Some [(0, 0); (0, 0); (0, 0)])
             (fun _ => 12) (fun _ => false) [Stream.read_2 5; Stream.read_2 (-7)])
          (2 + 2 + k)
        = Some (code, tr).
Proof.
  apply (@stream_main_terminates [Stream.opt_f 96500000; Stream.opt_s 2304000]
           (Stream.mk_env true true true (fun _ => true) (Some [(0, 0); (0, 0); (0, 0)])
              (fun _ => 12) (fun _ => false) [Stream.read_2 5; Stream.read_2 (-7)])).
  discriminate.
Defined.

(** How the streaming program can exit.  With status 0 it has gone through
    the shutdown sequence, and the local oscillator is powered down; with
    status 1 it has pushed no buffer and has not powered the oscillator
    down (it was never powered up, or it is left powered). *)
Theorem stream_exit_status (argv : list Stream.getopt_result) (e : Stream.env)
    (fuel : nat) (code : Z) (tr : list event) :
  Stream.main argv e fuel = Some (code, tr) ->
  (code = 0
   /\ (exists tr0, tr = tr0 ++ Stream.shutdown)
   /\ lo_powered tr = Some false)
  \/ (code = 1
      /\ (forall buf, ~ In (iio_buffer_push buf) tr)
      /\ lo_powered tr <> Some false).
Proof.
  unfold Stream.main.
  assert (Msg : forall msg, Some (1, [fprintf_stderr msg]) = Some (code, tr) ->
                 code = 1 /\ (forall buf, ~ In (iio_buffer_push buf) tr)
                 /\ lo_powered tr <> Some false).
  { intros msg H. injection H as <- <-. split; [reflexivity|]. split.
    - intros buf [H|[]]. discriminate H.
    - discriminate. }
  destruct (Stream.parse_args argv (-1) (-1) 10000%R) as [[[cf sr] dv]|];
    [|intros H; right; exact (Msg _ H)].
  destruct ((cf <? 70000000) || (cf >? 6000000000)); [intros H; right; exact (Msg _ H)|].
  destruct ((sr <? 1000000) || (sr >? 61440000)); [intros H; right; exact (Msg _ H)|].
  destruct (negb (Stream.create_default_context e));
    [intros H; right; exact (Msg _ H)|].
  destruct (negb (Stream.find_device_tx e) || negb (Stream.find_device_phy e));
    [intros H; right; exact (Msg _ H)|].
  destruct (negb (Stream.find_channel e tx0_i) || negb (Stream.find_channel e tx0_q)
            || negb (Stream.find_channel e lo_chan)
            || negb (Stream.find_channel e phy_chan));
    [intros H; right; exact (Msg _ H)|].
  cbv zeta. destruct (Stream.create_buffer e) as [buf|].
  - destruct (Stream.tx_loop _ _ _ _ _ _) as [st'|]; [|discriminate].
    intros H. injection H as <- <-. left. split; [reflexivity|].
    split; [eexists; reflexivity | apply lo_powered_after_shutdown].
  - intros H. injection H as <- <-. right. split; [reflexivity|]. split.
    + intros b H. simpl in H.
      repeat (destruct H as [H|H]; [discriminate H|]). exact H.
    + discriminate.
Qed.

(** The theorem at work: a push that fails. *)
Lemma stream_exit_status_witness :
  exists tr,
    Stream.main [Stream.opt_f 96500000; Stream.opt_s 2304000]
      (Stream.mk_env true true true (fun _ => true) (Some [])
         (fun _ => -1) (fun _ => false) [])
      1
    = Some (0, tr)
    /\ lo_powered tr = Some false.
Proof.
  eexists. split; [reflexivity|].
  destruct (@stream_exit_status [Stream.opt_f 96500000; Stream.opt_s 2304000]
              (Stream.mk_env true true true (fun _ => true) (Some [])
                 (fun _ => -1) (fun _ => false) [])
              1%nat 0 _ eq_refl) as [(_ & _ & P)|(C & _)].
  - exact P.
  - discriminate C.
Defined.

End Exits.

(** ** The looping transmitter: running and stopping *)

Section PreloadLoopMore.

Variables deviation_scale time_per_sample : double.
Variable samples : list Z.
Variable sigint : nat -> bool.
Variable clock_gettime : nat -> timespec.

Local Abbreviation pass_loop :=
  (Preload.pass_loop deviation_scale time_per_sample samples sigint).
Local Abbreviation tx_loop :=
  (Preload.tx_loop deviation_scale time_per_sample samples sigint clock_gettime).
Local Abbreviation send_buffer :=
  (Preload.send_buffer deviation_scale time_per_sample samples).

(** More fuel does not change the result of a loop that ended. *)
Lemma preload_pass_loop_more_fuel (fuel : nat) (st st' : Preload.state) :
  pass_loop fuel st = Some st' -> pass_loop (S fuel) st = Some st'.
Proof.
  revert st. induction fuel as [|fuel IH]; intros st H; [discriminate|].
  rewrite preload_pass_loop_unfold in H. rewrite preload_pass_loop_unfold.
  cbv zeta in *. destruct (Preload.stop _); [exact H|].
  destruct (_ <? _); [apply IH, H | exact H].
Qed.

Lemma preload_tx_loop_more_fuel (fuel : nat) (st st' : Preload.state) :
  tx_loop fuel st = Some st' -> tx_loop (S fuel) st = Some st'.
Proof.
  revert st. induction fuel as [|fuel IH]; intros st H; [discriminate|].
  rewrite preload_tx_loop_unfold in H. rewrite preload_tx_loop_unfold.
  cbv zeta in *. destruct (Preload.stop _); [exact H|].
  destruct (Preload.pass_loop _ _ _ _ fuel _) as [st1|] eqn:P; [|discriminate].
  rewrite (preload_pass_loop_more_fuel _ _ P). apply IH, H.
Qed.

Lemma preload_tx_loop_fuel_above (fuel k : nat) (st st' : Preload.state) :
  tx_loop fuel st = Some st' -> tx_loop (fuel + k) st = Some st'.
Proof.
  intros H. induction k as [|k IH]; [rewrite Nat.add_0_r; exact H|].
  rewrite Nat.add_succ_r. apply preload_tx_loop_more_fuel, IH.
Qed.

(** Without a signal the inner loop leaves the flag down. *)
Lemma preload_pass_loop_keeps_running (fuel : nat) (st st' : Preload.state) :
  (forall n, sigint n = false) ->
  Preload.stop st = false ->
  pass_loop fuel st = Some st' -> Preload.stop st' = false.
Proof.
  intros Hsig. revert st. induction fuel as [|fuel IH]; intros st Hs H; [discriminate|].
  rewrite preload_pass_loop_unfold in H. cbv zeta in H.
  pose proof (preload_read_stop_eq sigint st) as E.
  set (st0 := Preload.read_stop sigint st) in *.
  assert (S0 : Preload.stop st0 = false)
    by (rewrite E; cbn [Preload.stop]; rewrite Hs, Hsig; reflexivity).
  rewrite S0 in H. destruct (_ <? _).
  - apply (IH (send_buffer st0)); [|exact H].
    rewrite preload_send_buffer_eq. exact S0.
  - injection H as <-. exact S0.
Qed.

(** The looping transmitter's loop never ends on its own: while no signal
    comes in, it is still running whatever the fuel. *)
Lemma preload_tx_loop_runs_forever (fuel : nat) (st : Preload.state) :
  (forall n, sigint n = false) ->
  Preload.stop st = false ->
  tx_loop fuel st = None.
Proof.
  intros Hsig. revert st. induction fuel as [|fuel IH]; intros st Hs; [reflexivity|].
  rewrite preload_tx_loop_unfold. cbv zeta.
  pose proof (preload_read_stop_eq sigint st) as E.
  set (st0 := Preload.read_stop sigint st) in *.
  assert (S0 : Preload.stop st0 = false)
    by (rewrite E; cbn [Preload.stop]; rewrite Hs, Hsig; reflexivity).
  rewrite S0.
  destruct (Preload.pass_loop _ _ _ _ fuel _) as [st1|] eqn:P; [|reflexivity].
  apply IH.
  apply (@preload_pass_loop_keeps_running fuel
           (Preload.start_pass clock_gettime st0) st1 Hsig S0 P).
Qed.

Lemma preload_pass_loop_stops (n0 fuel : nat) (st : Preload.state) :
  sigint n0 = true ->
  Preload.stop st = true \/ Preload.checks st <= n0 ->
  checks_left n0 st < fuel ->
  exists st',
    pass_loop fuel st = Some st'
    /\ (Preload.stop st' = true \/ Preload.checks st' <= n0)
    /\ checks_left n0 st' <= checks_left n0 st.
Proof.
  intros Hn. revert st. induction fuel as [|fuel IH]; intros st Inv Hf; [lia|].
  rewrite preload_pass_loop_unfold. cbv zeta.
  pose proof (preload_read_stop_eq sigint st) as E.
  set (st0 := Preload.read_stop sigint st) in *.
  assert (E0 : Preload.stop st0 = Preload.stop st || sigint (Preload.checks st)
               /\ Preload.checks st0 = S (Preload.checks st))
    by (rewrite E; split; reflexivity).
  destruct E0 as [Es Ec].
  destruct (Preload.stop st0) eqn:S0.
  - exists st0. split; [reflexivity|]. split; [left; exact S0|].
    unfold checks_left. rewrite S0. lia.
  - symmetry in Es. apply orb_false_elim in Es. destruct Es as [Es Eg].
    assert (Hc : Preload.checks st < n0).
    { destruct Inv as [Inv|Inv]; [congruence|].
      destruct (Nat.eq_dec (Preload.checks st) n0) as [Q|Q]; [|lia].
      rewrite Q in Eg. congruence. }
    assert (M0 : checks_left n0 st0 < checks_left n0 st).
    { unfold checks_left. rewrite S0, Es, Ec. lia. }
    destruct (_ <? _).
    + assert (Q : Preload.stop (send_buffer st0) = false
                  /\ Preload.checks (send_buffer st0) = Preload.checks st0)
        by (rewrite preload_send_buffer_eq; split; [exact S0 | reflexivity]).
      destruct Q as [Qs Qc].
      destruct (IH (send_buffer st0)) as (st' & R & I' & M').
      * right. rewrite Qc, Ec. lia.
      * unfold checks_left in *. rewrite Qs, Qc. rewrite S0 in M0. lia.
      * exists st'. split; [exact R|]. split; [exact I'|].
        unfold checks_left in *. rewrite Qs, Qc in M'. rewrite S0 in M0. lia.
    + exists st0. split; [reflexivity|]. split; [right; rewrite Ec; lia | lia].
Qed.

(** Once a signal has come in, the loop ends with the flag set: if
    [SIGINT] is delivered before the [n0]-th evaluation of [stop], a fuel
    above the evaluations left is enough. *)
Lemma preload_tx_loop_stops (n0 fuel : nat) (st : Preload.state) :
  sigint n0 = true ->
  Preload.stop st = true \/ Preload.checks st <= n0 ->
  checks_left n0 st < fuel ->
  exists st', tx_loop fuel st = Some st' /\ Preload.stop st' = true.
Proof.
  intros Hn. revert st. induction fuel as [|fuel IH]; intros st Inv Hf; [lia|].
  rewrite preload_tx_loop_unfold. cbv zeta.
  pose proof (preload_read_stop_eq sigint st) as E.
  set (st0 := Preload.read_stop sigint st) in *.
  assert (E0 : Preload.stop st0 = Preload.stop st || sigint (Preload.checks st)
               /\ Preload.checks st0 = S (Preload.checks st))
    by (rewrite E; split; reflexivity).
  destruct E0 as [Es Ec].
  destruct (Preload.stop st0) eqn:S0.
  - exists st0. split; [reflexivity | exact S0].
  - symmetry in Es. apply orb_false_elim in Es. destruct Es as [Es Eg].
    assert (Hc : Preload.checks st < n0).
    { destruct Inv as [Inv|Inv]; [congruence|].
      destruct (Nat.eq_dec (Preload.checks st) n0) as [Q|Q]; [|lia].
      rewrite Q in Eg. congruence. }
    set (sp := Preload.start_pass clock_gettime st0).
    assert (Q : Preload.stop sp = false /\ Preload.checks sp = S (Preload.checks st))
      by (split; [exact S0 | exact Ec]).
    destruct Q as [Qs Qc].
    assert (Msp : checks_left n0 sp < checks_left n0 st)
      by (unfold checks_left; rewrite Qs, Es, Qc; lia).
    destruct (@preload_pass_loop_stops n0 fuel sp Hn) as (st1 & R & I1 & M1).
    + right. rewrite Qc. lia.
    + lia.
    + fold sp. rewrite R. apply IH; [exact I1 | lia].
Qed.

End PreloadLoopMore.

Section PreloadExits.

Local Open Scope Z_scope.

(** The looping transmitter runs until it is interrupted: while no signal
    comes in, [main] either fails at start-up with status 1 or is still
    running, whatever the fuel; it never exits with status 0. *)
Theorem preload_runs_until_interrupted
    (argv : list Preload.getopt_result) (e : Preload.env) (fuel : nat) :
  (forall n, Preload.sigint e n = false) ->
  Preload.main argv e fuel = None
  \/ exists tr, Preload.main argv e fuel = Some (1, tr).
Proof.
  intros Hsig. unfold Preload.main.
  destruct (Preload.parse_args argv 96500000 2304000 None) as [[[cf sr] [name|]]|];
    try (right; eexists; reflexivity).
  destruct (Preload.fopen e name) as [samples|]; [|right; eexists; reflexivity].
  destruct (negb (Preload.malloc e)); [right; eexists; reflexivity|].
  cbv zeta.
  destruct (negb (Preload.create_default_context e)); [right; eexists; reflexivity|].
  destruct (negb (Preload.find_device_phy e) || negb (Preload.find_device_tx e));
    [right; eexists; reflexivity|].
  destruct (Preload.create_buffer e) as [buf|]; [|right; eexists; reflexivity].
  left. rewrite preload_tx_loop_runs_forever; [reflexivity | exact Hsig | reflexivity].
Qed.

(** The theorem at work: a file of two samples, no signal, fuel 50. *)
Lemma preload_runs_until_interrupted_witness :
  Preload.main [Preload.opt_i "in.raw"]
    (Preload.mk_env (fun _ => Some [1; 2]) true true true true (Some [(0, 0)])
       (fun _ => false) (fun _ => mk_timespec 0 0))
    50
  = None.
Proof.
  destruct (@preload_runs_until_interrupted [Preload.opt_i "in.raw"]
              (Preload.mk_env (fun _ => Some [1; 2]) true true true true
                 (Some [(0, 0)]) (fun _ => false) (fun _ => mk_timespec 0 0))
              50%nat (fun _ => eq_refl)) as [H|[tr H]].
  - exact H.
  - exfalso. revert H. unfold Preload.main.
    cbn [Preload.parse_args Preload.fopen Preload.malloc Preload.create_default_context
         Preload.find_device_phy Preload.find_device_tx Preload.create_buffer negb orb].
    destruct (Preload.tx_loop _ _ _ _ _ _ _); discriminate.
Defined.

(** A [SIGINT] ends the looping transmitter: if the signal is delivered
    before the [n0]-th evaluation of [stop], [main] returns with any fuel
    of [n0 + 2] or more, always with the same result; when the status is 0
    the program went through the shutdown sequence and the local oscillator
    is powered down. *)
Theorem preload_sigint_ends_main
    (argv : list Preload.getopt_result) (e : Preload.env) (n0 : nat) :
  Preload.sigint e n0 = true ->
  exists (code : Z) (tr : list event),
    (forall fuel : nat, (n0 + 2 <= fuel)%nat -> Preload.main argv e fuel = Some (code, tr))
    /\ (code = 0 /\ (exists tr0, tr = tr0 ++ Preload.shutdown)
                 /\ lo_powered tr = Some false
        \/ code = 1).
Proof.
  intros Hsig. unfold Preload.main.
  destruct (Preload.parse_args argv 96500000 2304000 None) as [[[cf sr] [name|]]|];
    try (eexists; eexists; split; [reflexivity | right; reflexivity]).
  destruct (Preload.fopen e name) as [samples|];
    [|eexists; eexists; split; [reflexivity | right; reflexivity]].
  destruct (negb (Preload.malloc e));
    [eexists; eexists; split; [reflexivity | right; reflexivity]|].
  cbv zeta.
  destruct (negb (Preload.create_default_context e));
    [eexists; eexists; split; [reflexivity | right; reflexivity]|].
  destruct (negb (Preload.find_device_phy e) || negb (Preload.find_device_tx e));
    [eexists; eexists; split; [reflexivity | right; reflexivity]|].
  destruct (Preload.create_buffer e) as [buf|];
    [|eexists; eexists; split; [reflexivity | right; reflexivity]].
  set (st := Preload.initial_state buf _).
  destruct (@preload_tx_loop_stops (7500 / 32767)%R (1 / IZR sr)%R samples
              (Preload.sigint e) (Preload.clock_gettime e) n0 (n0 + 2) st Hsig)
    as (st' & R & _).
  - right. cbn. lia.
  - cbn. lia.
  - exists 0, (Preload.trace st' ++ Preload.shutdown). split.
    + intros fuel Hf. replace fuel with (n0 + 2 + (fuel - (n0 + 2)))%nat by lia.
      rewrite (@preload_tx_loop_fuel_above _ _ _ _ _ _ (fuel - (n0 + 2)) _ _ R).
      reflexivity.
    + left. split; [reflexivity|]. split; [eexists; reflexivity|].
      apply lo_powered_after_shutdown.
Qed.

(** The theorem at work: a signal before the fourth evaluation of [stop]. *)
Lemma preload_sigint_ends_main_witness :
  exists (code : Z) (tr : list event),
    (forall fuel : nat, (3 + 2 <= fuel)%nat ->
       Preload.main [Preload.opt_i "in.raw"]
         (Preload.mk_env (fun _ => Some [1; 2]) true true true true (Some [(0, 0)])
            (fun n => (3 <=? n)%nat) (fun _ => mk_timespec 0 0))
         fuel
       = Some (code, tr))
    /\ (code = 0 /\ (exists tr0, tr = tr0 ++ Preload.shutdown)
                 /\ lo_powered tr = Some false
        \/ code = 1).
Proof.
  exact (@preload_sigint_ends_main [Preload.opt_i "in.raw"]
           (Preload.mk_env (fun _ => Some [1; 2]) true true true true (Some [(0, 0)])
              (fun n => (3 <=? n)%nat) (fun _ => mk_timespec 0 0))
           3%nat eq_refl).
Defined.

End PreloadExits.

Section ExitsMore.

Local Open Scope Z_scope.

(** How the looping transmitter can exit.  With status 0 it has gone
    through the shutdown sequence, and the local oscillator is powered
    down; with status 1 it has pushed no buffer and has not powered the
    oscillator down (it was never powered up, or it is left powered). *)
Theorem preload_exit_status (argv : list Preload.getopt_result) (e : Preload.env)
    (fuel : nat) (code : Z) (tr : list event) :
  Preload.main argv e fuel = Some (code, tr) ->
  (code = 0
   /\ (exists tr0, tr = tr0 ++ Preload.shutdown)
   /\ lo_powered tr = Some false)
  \/ (code = 1
      /\ (forall buf, ~ In (iio_buffer_push buf) tr)
      /\ lo_powered tr <> Some false).
Proof.
  unfold Preload.main.
  assert (Msg : forall msg, Some (1, [fprintf_stderr msg]) = Some (code, tr) ->
                 code = 1 /\ (forall buf, ~ In (iio_buffer_push buf) tr)
                 /\ lo_powered tr <> Some false).
  { intros msg H. injection H as <- <-. split; [reflexivity|]. split.
    - intros buf [H|[]]. discriminate H.
    - discriminate. }
  destruct (Preload.parse_args argv 96500000 2304000 None) as [[[cf sr] [name|]]|];
    try (intros H; right; exact (Msg _ H)).
  destruct (Preload.fopen e name) as [samples|]; [|intros H; right; exact (Msg _ H)].
  destruct (negb (Preload.malloc e)); [intros H; right; exact (Msg _ H)|].
  cbv zeta.
  destruct (negb (Preload.create_default_context e));
    [intros H; right; exact (Msg _ H)|].
  destruct (negb (Preload.find_device_phy e) || negb (Preload.find_device_tx e));
    [intros H; right; exact (Msg _ H)|].
  destruct (Preload.create_buffer e) as [buf|].
  - destruct (Preload.tx_loop _ _ _ _ _ _ _) as [st'|]; [|discriminate].
    intros H. injection H as <- <-. left. split; [reflexivity|].
    split; [eexists; reflexivity | apply lo_powered_after_shutdown].
  - intros H. injection H as <- <-. right. split; [reflexivity|]. split.
    + intros b H. simpl in H.
      repeat (destruct H as [H|H]; [discriminate H|]). exact H.
    + discriminate.
Qed.

(** The theorem at work: a signal that is there before the loop starts. *)
Lemma preload_exit_status_witness :
  exists tr,
    Preload.main [Preload.opt_i "in.raw"]
      (Preload.mk_env (fun _ => Some [1; 2]) true true true true (Some [(0, 0)])
         (fun _ => true) (fun _ => mk_timespec 0 0))
      1
    = Some (0, tr)
    /\ lo_powered tr = Some false.
Proof.
  eexists. split; [reflexivity|].
  destruct (@preload_exit_status [Preload.opt_i "in.raw"]
              (Preload.mk_env (fun _ => Some [1; 2]) true true true true
                 (Some [(0, 0)]) (fun _ => true) (fun _ => mk_timespec 0 0))
              1%nat 0 _ eq_refl) as [(_ & _ & P)|(C & _)].
  - exact P.
  - discriminate C.
Defined.

Lemma stream_parse_args_unknown (argv : list Stream.getopt_result)
    (center_freq sample_rate : Z) (deviation_hz : double) :
  In Stream.opt_other argv ->
  Stream.parse_args argv center_freq sample_rate deviation_hz = None.
Proof.
  revert center_freq sample_rate deviation_hz.
  induction argv as [|o argv IH]; intros cf sr dv H; [destruct H|].
  destruct H as [->|H]; [reflexivity|].
  destruct o; cbn [Stream.parse_args]; auto.
Qed.

Lemma preload_parse_args_unknown (argv : list Preload.getopt_result)
    (center_freq sample_rate : Z) (input_filename : option string) :
  In Preload.opt_other argv ->
  Preload.parse_args argv center_freq sample_rate input_filename = None.
Proof.
  revert center_freq sample_rate input_filename.
  induction argv as [|o argv IH]; intros cf sr name H; [destruct H|].
  destruct H as [->|H]; [reflexivity|].
  destruct o; cbn [Preload.parse_args]; auto.
Qed.

(** An option the program does not know, anywhere on the command line and
    whatever the other options are, makes either program print its usage
    line and exit with status 1, having done nothing else. *)
Theorem unknown_option_prints_usage :
  (forall (argv : list Stream.getopt_result) (e : Stream.env) (fuel : nat),
      In Stream.opt_other argv ->
      Stream.main argv e fuel
      = Some (1, [fprintf_stderr "Usage: %s -f freq -s samplerate [-d deviation]"]))
  /\ (forall (argv : list Preload.getopt_result) (e : Preload.env) (fuel : nat),
      In Preload.opt_other argv ->
      Preload.main argv e fuel
      = Some (1, [fprintf_stderr "Usage: %s -f freq -s samplerate -i input.raw"])).
Proof.
  split; intros argv e fuel H.
  - unfold Stream.main. rewrite (stream_parse_args_unknown _ _ _ _ H). reflexivity.
  - unfold Preload.main. rewrite (preload_parse_args_unknown _ _ _ _ H). reflexivity.
Qed.

(** The theorem at work: an unknown option after valid ones. *)
Lemma unknown_option_prints_usage_witness :
  Stream.main [Stream.opt_f 96500000; Stream.opt_s 2304000; Stream.opt_other]
    (Stream.mk_env true true true (fun _ => true) (Some [(0, 0)])
       (fun _ => 4) (fun _ => false) [])
    5
  = Some (1, [fprintf_stderr "Usage: %s -f freq -s samplerate [-d deviation]"]).
Proof.
  apply (proj1 unknown_option_prints_usage). simpl. auto.
Defined.

(** Without [-f] the streaming program does not start: the center
    frequency keeps its initial value -1, and [main] prints the frequency
    error and exits with status 1 (the looping program has defaults and
    starts). *)
Theorem stream_requires_frequency
    (argv : list Stream.getopt_result) (e : Stream.env) (fuel : nat) :
  (forall v, ~ In (Stream.opt_f v) argv) ->
  ~ In Stream.opt_other argv ->
  Stream.main argv e fuel
  = Some (1, [fprintf_stderr "Invalid frequency. Must be between 70 MHz and 6 GHz."]).
Proof.
  intros Hf Ho.
  assert (P : forall cf sr dv,
             exists sr' dv', Stream.parse_args argv cf sr dv = Some (cf, sr', dv')).
  { induction argv as [|o argv IH]; intros cf sr dv.
    - eexists; eexists; reflexivity.
    - destruct o as [v|v|v|]; cbn [Stream.parse_args].
      + exfalso. apply (Hf v). left. reflexivity.
      + apply IH; [intros w H; apply (Hf w); right; exact H
                  | intros H; apply Ho; right; exact H].
      + apply IH; [intros w H; apply (Hf w); right; exact H
                  | intros H; apply Ho; right; exact H].
      + exfalso. apply Ho. left. reflexivity. }
  destruct (P (-1) (-1) 10000%R) as (sr' & dv' & E).
  unfold Stream.main. rewrite E. reflexivity.
Qed.

(** The theorem at work: [-s] and [-d] only. *)
Lemma stream_requires_frequency_witness :
  Stream.main [Stream.opt_s 2304000; Stream.opt_d 5000%R]
    (Stream.mk_env true true true (fun _ => true) (Some [(0, 0)])
       (fun _ => 4) (fun _ => false) [])
    5
  = Some (1, [fprintf_stderr "Invalid frequency. Must be between 70 MHz and 6 GHz."]).
Proof.
  apply stream_requires_frequency.
  - intros v H. simpl in H. destruct H as [H|[H|[]]]; discriminate H.
  - intros H. simpl in H. destruct H as [H|[H|[]]]; discriminate H.
Defined.

End ExitsMore.

(** ** The length of a pass *)

Section PassLength.

Variables deviation_scale time_per_sample : double.
Variable samples : list Z.
Variable sigint : nat -> bool.

Local Abbreviation send_buffer :=
  (Preload.send_buffer deviation_scale time_per_sample samples).
Local Abbreviation pass_loop :=
  (Preload.pass_loop deviation_scale time_per_sample samples sigint).

(** When no signal comes in, a pass over a file of [L] samples with a buffer
    of [cap >= 1] slots pushes [ceil (L / cap)] buffers, reads the stop flag
    once more than that, and leaves the deadline that many periods of
    100 ms after the clock reading the pass started with: the length of a
    pass depends on the buffer count, not on the sample count. *)
Theorem preload_pass_length (clock_gettime : nat -> timespec) (st : Preload.state) :
  (forall n, sigint n = false) ->
  0 < List.length (Preload.txbuf st) ->
  Preload.stop st = false ->
  Preload.normalized (clock_gettime (Preload.clock_reads st)) ->
  let n := buffers_for (List.length samples) (List.length (Preload.txbuf st)) in
  exists st',
    (forall k, pass_loop (S (List.length samples) + k)
                 (Preload.start_pass clock_gettime st) = Some st')
    /\ Preload.pushes st' = Preload.pushes st + n
    /\ Preload.checks st' = Preload.checks st + S n
    /\ Preload.to_ns (Preload.t st')
       = (Preload.to_ns (clock_gettime (Preload.clock_reads st))
          + Z.of_nat n * 100000000)%Z.
Proof.
  intros Hsig Hcap Hstop Nt. cbv zeta.
  set (st0 := Preload.start_pass clock_gettime st).
  destruct (@preload_pass_loop_completes deviation_scale time_per_sample samples
              sigint (List.length samples) st0 Hsig) as (st' & R & _ & Rs & _).
  - unfold Preload.total_samples. lia.
  - unfold Preload.total_samples. cbn. lia.
  - exact Hcap.
  - exact Hstop.
  - exists st'. split; [exact R|].
    pose proof (@preload_pass_loop_pushes deviation_scale time_per_sample samples
                  sigint (S (List.length samples) + 0) st0 Hcap) as P.
    pose proof (preload_pass_loop_spec deviation_scale time_per_sample samples
                  sigint (S (List.length samples) + 0) st0) as Q.
    rewrite R in P, Q. cbv zeta in P, Q.
    destruct P as [P C]; [cbn; lia | exact Rs |].
    destruct Q as (_ & _ & _ & _ & T). destruct (T Nt) as [T1 _].
    change (Preload.index st0) with 0 in P, C.
    change (Preload.txbuf st0) with (Preload.txbuf st) in P, C.
    change (Preload.pushes st0) with (Preload.pushes st) in P, C, T1.
    change (Preload.checks st0) with (Preload.checks st) in C.
    change (Preload.t st0) with (clock_gettime (Preload.clock_reads st)) in T1.
    rewrite Nat.sub_0_r in P, C.
    split; [exact P|]. split; [exact C|].
    rewrite T1, P. f_equal. f_equal. f_equal. lia.
Qed.

End PassLength.

(** The theorem at work: five samples through a buffer of two slots take
    three buffers, 300 ms. *)
Lemma preload_pass_length_witness :
  exists st',
    Preload.pass_loop (7500 / 32767)%R (1 / 2304000)%R [1; 2; 3; 4; 5]%Z
      (fun _ => false) 6
      (Preload.start_pass (fun _ => mk_timespec 10 950000000)
         (Preload.initial_state [(0, 0); (0, 0)]%Z [])) = Some st'
    /\ Preload.pushes st' = 3
    /\ Preload.to_ns (Preload.t st') = 11250000000%Z.
Proof.
  destruct (@preload_pass_length (7500 / 32767)%R (1 / 2304000)%R [1; 2; 3; 4; 5]%Z
              (fun _ => false) (fun _ => mk_timespec 10 950000000)
              (Preload.initial_state [(0, 0); (0, 0)]%Z []))
    as (st' & R & P & _ & T).
  - reflexivity.
  - simpl. lia.
  - reflexivity.
  - unfold Preload.normalized. simpl. lia.
  - exists st'. split; [exact (R 0)|]. split; [exact P | exact T].
Defined.

(** ** The streaming program: pushes and settings *)

Section StreamPushes.

Variables deviation_scale time_per_sample : double.
Variable push_result : nat -> Z.
Variable sigint : nat -> bool.

Local Abbreviation tx_loop :=
  (Stream.tx_loop deviation_scale time_per_sample push_result sigint).

(** The loop adds only pushes and messages to the trace. *)
Lemma stream_tx_loop_trace (fuel : nat) (st : Stream.state) :
  match tx_loop fuel st with
  | Some st' =>
      exists tr', Stream.trace st' = Stream.trace st ++ tr'
                  /\ forallb stream_loop_event tr' = true
  | None => True
  end.
Proof.
  revert st. induction fuel as [|fuel IH]; intros st; [exact I|].
  rewrite stream_tx_loop_unfold. cbv zeta.
  pose proof (stream_iteration_spec deviation_scale time_per_sample push_result
                sigint st) as H.
  cbv zeta in H. destruct H as (_ & _ & _ & _ & _ & Ht).
  assert (E : Stream.trace (Stream.read_stop sigint st) = Stream.trace st)
    by (rewrite stream_read_stop_eq; reflexivity).
  set (st0 := Stream.read_stop sigint st) in *.
  set (st2 := snd (Stream.push_txbuf push_result _)) in *.
  destruct (Stream.stop st0).
  - exists []. rewrite app_nil_r. split; [exact E | reflexivity].
  - destruct (push_result (Stream.pushes st0) <? 0)%Z.
    + exists [iio_buffer_push (Stream.txbuf st2); fprintf_stderr "Error pushing buffer"].
      split; [|reflexivity].
      unfold Stream.log. cbn [Stream.trace]. rewrite Ht, <- app_assoc. reflexivity.
    + specialize (IH st2). destruct (tx_loop fuel st2) as [st'|]; [|exact I].
      destruct IH as (tr' & T & F).
      exists (iio_buffer_push (Stream.txbuf st2) :: tr'). split.
      * rewrite T, Ht, <- app_assoc. reflexivity.
      * cbn [forallb stream_loop_event andb]. exact F.
Qed.

(** A push that fails is the last one: when the streaming loop has ended,
    every push but the last returned 0 or more, and if the last one did too
    the loop ended on the stop flag. *)
Theorem stream_no_push_after_failure (fuel : nat) (st : Stream.state) :
  match tx_loop fuel st with
  | Some st' =>
      (forall i, Stream.pushes st <= i < Stream.pushes st' ->
                 (push_result i < 0)%Z -> Stream.pushes st' = S i)
      /\ (Stream.stop st' = true
          \/ (Stream.pushes st < Stream.pushes st'
              /\ (push_result (Stream.pushes st' - 1) < 0)%Z))
  | None => True
  end.
Proof.
  revert st. induction fuel as [|fuel IH]; intros st; [exact I|].
  rewrite stream_tx_loop_unfold. cbv zeta.
  pose proof (stream_iteration_spec deviation_scale time_per_sample push_result
                sigint st) as H.
  cbv zeta in H. destruct H as (_ & _ & Hu & _).
  assert (E : Stream.pushes (Stream.read_stop sigint st) = Stream.pushes st)
    by (rewrite stream_read_stop_eq; reflexivity).
  set (st0 := Stream.read_stop sigint st) in *.
  set (st2 := snd (Stream.push_txbuf push_result _)) in *.
  destruct (Stream.stop st0) eqn:S0.
  - split; [intros i Hi; lia | left; exact S0].
  - rewrite E. destruct (push_result (Stream.pushes st) <? 0)%Z eqn:P.
    + apply Z.ltb_lt in P. unfold Stream.log. cbn [Stream.pushes Stream.stop].
      rewrite Hu. split; [intros i Hi _; lia|]. right. split; [lia|].
      replace (S (Stream.pushes st) - 1) with (Stream.pushes st) by lia. exact P.
    + apply Z.ltb_ge in P.
      specialize (IH st2). destruct (tx_loop fuel st2) as [st'|]; [|exact I].
      destruct IH as [A B]. rewrite Hu in A, B. split.
      * intros i Hi Hneg.
        destruct (Nat.eq_dec i (Stream.pushes st)) as [->|Hne]; [lia|].
        apply A; [lia | exact Hneg].
      * destruct B as [B|[B1 B2]]; [left; exact B | right; split; [lia | exact B2]].
Qed.

End StreamPushes.

Section StreamSettings.

Local Open Scope Z_scope.

(** A buffer of the streaming program holds 40 ms of samples. *)
Lemma stream_buffer_len (sample_rate : Z) :
  0 <= sample_rate ->
  to_long (Stream.DEFAULT_BUFFER_TIME * IZR sample_rate)%R = sample_rate / 25.
Proof.
  intros H. unfold to_long, Stream.DEFAULT_BUFFER_TIME.
  pose proof (Z.div_mod sample_rate 25 ltac:(lia)) as D.
  pose proof (Z.mod_pos_bound sample_rate 25 ltac:(lia)) as M.
  assert (R1 : (IZR sample_rate
                = 25 * IZR (sample_rate / 25) + IZR (sample_rate mod 25))%R).
  { rewrite D at 1. rewrite plus_IZR, mult_IZR. reflexivity. }
  assert (R2 : (0 <= IZR (sample_rate mod 25) < 25)%R).
  { split; [apply (IZR_le 0) | apply (IZR_lt _ 25)]; lia. }
  assert (R3 : (0 <= IZR sample_rate)%R) by (apply (IZR_le 0); exact H).
  apply Rtrunc_unique; intros; lra.
Qed.

(** The shape of the trace of a run of the streaming program. *)
Lemma stream_main_trace (argv : list Stream.getopt_result) (e : Stream.env)
    (fuel : nat) (code : Z) (tr : list event) :
  Stream.main argv e fuel = Some (code, tr) ->
  (exists msg, tr = [fprintf_stderr msg])
  \/ exists center_freq sample_rate tl,
      70000000 <= center_freq <= 6000000000
      /\ 1000000 <= sample_rate <= 61440000
      /\ tr = Stream.configure center_freq sample_rate
              ++ [iio_device_create_buffer
                    (to_long (Stream.DEFAULT_BUFFER_TIME * IZR sample_rate)%R)]
              ++ tl
      /\ ((exists msg, tl = [fprintf_stderr msg])
          \/ exists msg tr', tl = fprintf_stderr msg :: tr' ++ Stream.shutdown
                             /\ forallb stream_loop_event tr' = true).
Proof.
  unfold Stream.main.
  assert (Msg : forall msg, Some (1, [fprintf_stderr msg]) = Some (code, tr) ->
                 exists m, tr = [fprintf_stderr m]).
  { intros msg H. injection H as <- <-. eexists. reflexivity. }
  destruct (Stream.parse_args argv (-1) (-1) 10000%R) as [[[cf sr] dv]|];
    [|intros H; left; exact (Msg _ H)].
  destruct ((cf <? 70000000) || (cf >? 6000000000)) eqn:F;
    [intros H; left; exact (Msg _ H)|].
  destruct ((sr <? 1000000) || (sr >? 61440000)) eqn:R;
    [intros H; left; exact (Msg _ H)|].
  apply orb_false_elim in F, R. destruct F as [F1 F2], R as [R1 R2].
  apply Z.ltb_ge in F1, R1. rewrite Z.gtb_ltb in F2, R2. apply Z.ltb_ge in F2, R2.
  destruct (negb (Stream.create_default_context e));
    [intros H; left; exact (Msg _ H)|].
  destruct (negb (Stream.find_device_tx e) || negb (Stream.find_device_phy e));
    [intros H; left; exact (Msg _ H)|].
  destruct (negb (Stream.find_channel e tx0_i) || negb (Stream.find_channel e tx0_q)
            || negb (Stream.find_channel e lo_chan)
            || negb (Stream.find_channel e phy_chan));
    [intros H; left; exact (Msg _ H)|].
  cbv zeta. destruct (Stream.create_buffer e) as [buf|].
  - match goal with
    | |- context [Stream.tx_loop ?a ?b ?c ?d ?f ?s] =>
        pose proof (stream_tx_loop_trace a b c d f s) as T;
        destruct (Stream.tx_loop a b c d f s) as [st'|]; [|discriminate]
    end.
    destruct T as (tr' & T & Fa). cbn [Stream.initial_state Stream.trace] in T.
    intros H. injection H as <- <-. right. exists cf, sr. eexists.
    split; [lia|]. split; [lia|]. split.
    + rewrite T, <- ?app_assoc. cbn [app]. reflexivity.
    + right. eexists. exists tr'. split; [reflexivity | exact Fa].
  - intros H. injection H as <- <-. right. exists cf, sr. eexists.
    split; [lia|]. split; [lia|]. split.
    + rewrite <- ?app_assoc. reflexivity.
    + left. eexists. reflexivity.
Qed.

(** What the streaming program writes to the hardware has been validated:
    in every run that returns, a center frequency written to the local
    oscillator lies in 70 MHz .. 6 GHz, a sampling frequency written to the
    PHY in 1 MHz .. 61.44 MHz, and a buffer is requested only after a
    sampling frequency was written, with a twenty-fifth of it (40 ms) as
    its number of slots, 40000 to 2457600. *)
Theorem stream_settings_validated (argv : list Stream.getopt_result) (e : Stream.env)
    (fuel : nat) (code : Z) (tr : list event) :
  Stream.main argv e fuel = Some (code, tr) ->
  (forall v, In (iio_channel_attr_write_longlong lo_chan "frequency" v) tr ->
             70000000 <= v <= 6000000000)
  /\ (forall v, In (iio_channel_attr_write_longlong phy_chan "sampling_frequency" v) tr ->
                1000000 <= v <= 61440000)
  /\ (forall n, In (iio_device_create_buffer n) tr ->
                40000 <= n <= 2457600
                /\ exists v,
                    In (iio_channel_attr_write_longlong phy_chan "sampling_frequency" v) tr
                    /\ n = v / 25).
Proof.
  intros H. destruct (stream_main_trace _ _ _ H) as [[msg ->]|(cf & sr & tl & F & R & -> & Tl)].
  - split; [|split]; intros x [I|[]]; discriminate I.
  - assert (Loop : forall x tr', forallb stream_loop_event tr' = true -> In x tr' ->
                     stream_loop_event x = true).
    { intros x tr' Fa I. rewrite forallb_forall in Fa. apply Fa. exact I. }
    assert (Tail : forall x, stream_loop_event x = false ->
                     x <> iio_channel_attr_write_longlong lo_chan "powerdown" 1 ->
                     x <> iio_buffer_destroy -> x <> iio_context_destroy ->
                     (forall c, x <> iio_channel_disable c) ->
                     ~ In x tl).
    { intros x Hx N1 N2 N3 N4 I.
      destruct Tl as [[msg ->]|(msg & tr' & -> & Fa)].
      - destruct I as [I|[]]. subst x. discriminate Hx.
      - destruct I as [I|I]; [subst x; discriminate Hx|].
        apply in_app_or in I. destruct I as [I|I].
        + rewrite (Loop _ _ Fa I) in Hx. discriminate Hx.
        + simpl in I.
          destruct I as [I|[I|[I|[I|[I|[I|[]]]]]]]; subst x;
            try discriminate Hx; try (now apply N1); try (now apply N2);
            try (now apply N3); now apply (N4 _ eq_refl). }
    assert (Len := stream_buffer_len (sample_rate := sr) ltac:(lia)).
    split; [|split].
    + intros v I. apply in_app_or in I. destruct I as [I|I].
      * simpl in I.
        destruct I as [I|[I|[I|[I|[I|[I|[I|[]]]]]]]]; try discriminate I.
        injection I as <-. exact F.
      * apply in_app_or in I. destruct I as [[I|[]]|I]; [discriminate I|].
        exfalso. revert I. apply Tail; try discriminate; reflexivity.
    + intros v I. apply in_app_or in I. destruct I as [I|I].
      * simpl in I.
        destruct I as [I|[I|[I|[I|[I|[I|[I|[]]]]]]]]; try discriminate I.
        injection I as <-. exact R.
      * apply in_app_or in I. destruct I as [[I|[]]|I]; [discriminate I|].
        exfalso. revert I. apply Tail; try discriminate; reflexivity.
    + intros n I. apply in_app_or in I. destruct I as [I|I].
      * simpl in I.
        destruct I as [I|[I|[I|[I|[I|[I|[I|[]]]]]]]]; discriminate I.
      * apply in_app_or in I. destruct I as [[I|[]]|I].
        -- injection I as <-. rewrite Len. split.
           ++ split; [apply (Z.div_le_mono 1000000 sr 25) | apply (Z.div_le_mono sr 61440000 25)];
                lia.
           ++ exists sr. split; [|reflexivity].
              apply in_or_app. left. simpl. auto.
        -- exfalso. revert I. apply Tail; try discriminate; reflexivity.
Qed.

(** The theorem at work: a run at 2.304 MS/s whose buffer cannot be
    created asked for 92160 slots. *)
Lemma stream_settings_validated_witness :
  40000 <= to_long (Stream.DEFAULT_BUFFER_TIME * IZR 2304000)%R <= 2457600.
Proof.
  destruct (@stream_settings_validated
              [Stream.opt_f 96500000; Stream.opt_s 2304000]
              (Stream.mk_env true true true (fun _ => true) None
                 (fun _ => 0) (fun _ => false) [])
              0%nat 1 _ eq_refl) as (_ & _ & B).
  apply B. simpl. auto 10.
Defined.

End StreamSettings.
